(** * The Wayland object-protocol runtime: client and server cores

    A shallow embedding of [src/wayland-client.c] and
    [wayland/wayland-server.c].  C structs become records, pointers become
    addresses into explicit heaps, the socket becomes a script of I/O
    outcomes, and the handlers that the runtime calls through function
    pointers are recorded in a trace. *)

From Stdlib Require Import ZArith Lia.
From Stdlib Require Import Strings.Byte.
From stdpp Require Import base option list gmap strings.

Local Open Scope Z_scope.

(** ** Outcomes of a C function

    [Done] is a normal return.  [Undefined] stands for the places where the
    C text reads an uninitialised variable, indexes past a table or follows
    a dangling pointer.  [Aborted] is a failed [assert].  [Timeout] means
    that the loop did not finish within the fuel given, or that the socket
    script ran dry while the code was waiting in a system call. *)

Inductive result (A : Type) : Type :=
| Done (a : A)
| Undefined
| Aborted
| Timeout.

Arguments Done {A} a.
Arguments Undefined {A}.
Arguments Aborted {A}.
Arguments Timeout {A}.

#[global] Instance result_ret : MRet result := fun A a => Done a.

#[global] Instance result_bind : MBind result := fun A B k r =>
  match r with
  | Done a => k a
  | Undefined => Undefined
  | Aborted => Aborted
  | Timeout => Timeout
  end.

(** ** Words on the wire *)

#[global] Instance byte_eq_decision : EqDecision byte := Byte.byte_eq_dec.

(** A 32-bit word read from up to four bytes in host (little-endian) order;
    bytes that are missing read as zero. *)
Fixpoint u32_of_bytes_aux (n : nat) (bs : list byte) : Z :=
  match n with
  | O => 0
  | S n' =>
      match bs with
      | [] => 0
      | b :: bs' => Z.of_N (Byte.to_N b) + 256 * u32_of_bytes_aux n' bs'
      end
  end.

Definition u32_of_bytes (bs : list byte) : Z := u32_of_bytes_aux 4 bs.

Definition byte_of_Z (z : Z) : byte :=
  match Byte.of_N (Z.to_N (z mod 256)) with
  | Some b => b
  | None => x00
  end.

Definition bytes_of_u32 (w : Z) : list byte :=
  [byte_of_Z w; byte_of_Z (w / 256); byte_of_Z (w / 65536);
   byte_of_Z (w / 16777216)].

(** Header of a frame: [[object_id][size<<16 | opcode]]. *)
Definition frame_header (id opcode size : Z) : list byte :=
  bytes_of_u32 id ++ bytes_of_u32 (Z.lor (Z.shiftl size 16) opcode).

(** A frame as the peer writes it: the header and the body, the size field
    counting both. *)
Record frame := {
  frame_object : Z;
  frame_opcode : Z;
  frame_body : list byte
}.

Definition frame_size (f : frame) : Z :=
  8 + Z.of_nat (length (frame_body f)).

Definition encode_frame (f : frame) : list byte :=
  frame_header (frame_object f) (frame_opcode f) (frame_size f)
  ++ frame_body f.

Definition encode_frames (fs : list frame) : list byte :=
  concat (map encode_frame fs).

(** The fields fit the header: a 32-bit id, a 16-bit opcode, a 16-bit
    size. *)
Definition frame_ok (f : frame) : Prop :=
  0 <= frame_object f < 4294967296 /\
  0 <= frame_opcode f < 65536 /\
  frame_size f < 65536.

#[global] Instance frame_ok_dec f : Decision (frame_ok f).
Proof. unfold frame_ok. apply _. Defined.

(** * Client side: [src/wayland-client.c] *)

Module Client.

(** ** Constants of the headers *)

(** Modelled from the spec: [WL_SERVER_ID_START] of wayland-private.h, which
    is not part of the sources; ids in [[1, 0xFF000000)] are allocated by
    the client, ids from [0xFF000000] on by the server. *)
Definition WL_SERVER_ID_START : Z := 0xff000000.

(** The two readiness bits of wayland-client.h. *)
Definition WL_DISPLAY_READABLE : Z := 1.
Definition WL_DISPLAY_WRITABLE : Z := 2.

(** Request opcodes of the display in the order of the protocol:
    [bind], [sync]. *)
Definition WL_DISPLAY_BIND : Z := 0.
Definition WL_DISPLAY_SYNC : Z := 1.

(** [errno] values of Linux. *)
Definition EINVAL : Z := 22.
Definition EPROTO : Z := 71.

(** ** Data *)

Record wl_message := {
  message_name : string;
  message_signature : string
}.

Record wl_interface := {
  interface_name : string;
  interface_version : Z;
  methods : list wl_message;
  events : list wl_message
}.

(** The listener tables that the file installs itself, and the ones of the
    application, known by a number. *)
Inductive listener : Type :=
| display_listener
| sync_listener
| user_listener (n : nat).

(** [struct wl_proxy]; the [display] back-pointer is left out because the
    model holds one display. *)
Record wl_proxy := {
  object_interface : wl_interface;
  object_implementation : option listener;
  object_id : Z;
  user_data : Z
}.

(** What a slot of the object map holds: [NULL], [WL_ZOMBIE_OBJECT] or the
    address of a proxy. *)
Inductive map_entry : Type :=
| entry_null
| entry_zombie
| entry_proxy (p : nat).

#[global] Instance map_entry_eq_dec : EqDecision map_entry.
Proof. solve_decision. Defined.

Inductive map_side : Type := WL_MAP_CLIENT_SIDE | WL_MAP_SERVER_SIDE.

(** A decoded argument of a closure.  An object argument is the pointer
    found in the object map; a [new_id] argument is first the id read from
    the wire and, after [create_proxies], the proxy made for it. *)
Inductive argument : Type :=
| arg_int (v : Z)
| arg_uint (v : Z)
| arg_string (s : string)
| arg_object (p : option nat)
| arg_new_id (id : Z) (itf : wl_interface)
| arg_new_proxy (p : option nat)
| arg_array (bs : list byte)
| arg_fd (fd : Z).

Record wl_closure := {
  closure_message : wl_message;
  closure_args : list argument
}.

Record wl_global := {
  global_id : Z;
  global_interface : string;
  global_version : Z
}.

Record wl_global_listener := {
  listener_handler : nat;
  listener_data : Z
}.

(** The two rings of a connection. *)
Record wl_connection := {
  conn_in : list byte;
  conn_out : list byte
}.

(** What the kernel does at one call of [wl_connection_data]: how many
    bytes [sendmsg] takes and which bytes [recvmsg] delivers; [None] is a
    fatal error of the call. *)
Record io_event := {
  io_sent : option nat;
  io_received : option (list byte)
}.

(** Calls that leave the runtime through a function pointer, and the
    decoding of a frame, in the order they happen. *)
Inductive trace_event : Type :=
| t_demarshal (id opcode : Z)
| t_invoke (id opcode : Z) (l : listener) (args : list argument)
| t_global_handler (handler : nat) (id : Z) (itf : string) (version : Z)
    (data : Z)
| t_update (m : Z).

(** [struct wl_display] together with the state of the process that the
    file reads and writes: the heap of proxies (address 0 is the proxy
    embedded in the display), the [int] cells that [user_data] points to,
    [errno], what was written to the log, and the socket. *)
Record wl_display := {
  proxy_heap : gmap nat wl_proxy;
  connection : wl_connection;
  mask : Z;
  fatal_error : bool;
  objects : gmap Z map_entry;
  global_listener_list : list wl_global_listener;
  global_list : list wl_global;
  update : option nat;
  errno : Z;
  next_alloc : nat;
  user_mem : gmap nat Z;
  log : list string;
  trace : list trace_event;
  socket : list io_event
}.

Definition set_proxy_heap (d : wl_display) (v : gmap nat wl_proxy) :=
  {| proxy_heap := v; connection := connection d; mask := mask d;
     fatal_error := fatal_error d; objects := objects d;
     global_listener_list := global_listener_list d;
     global_list := global_list d; update := update d; errno := errno d;
     next_alloc := next_alloc d; user_mem := user_mem d; log := log d;
     trace := trace d; socket := socket d |}.

Definition set_connection (d : wl_display) (v : wl_connection) :=
  {| proxy_heap := proxy_heap d; connection := v; mask := mask d;
     fatal_error := fatal_error d; objects := objects d;
     global_listener_list := global_listener_list d;
     global_list := global_list d; update := update d; errno := errno d;
     next_alloc := next_alloc d; user_mem := user_mem d; log := log d;
     trace := trace d; socket := socket d |}.

Definition set_mask (d : wl_display) (v : Z) :=
  {| proxy_heap := proxy_heap d; connection := connection d; mask := v;
     fatal_error := fatal_error d; objects := objects d;
     global_listener_list := global_listener_list d;
     global_list := global_list d; update := update d; errno := errno d;
     next_alloc := next_alloc d; user_mem := user_mem d; log := log d;
     trace := trace d; socket := socket d |}.

Definition set_fatal_error (d : wl_display) (v : bool) :=
  {| proxy_heap := proxy_heap d; connection := connection d; mask := mask d;
     fatal_error := v; objects := objects d;
     global_listener_list := global_listener_list d;
     global_list := global_list d; update := update d; errno := errno d;
     next_alloc := next_alloc d; user_mem := user_mem d; log := log d;
     trace := trace d; socket := socket d |}.

Definition set_objects (d : wl_display) (v : gmap Z map_entry) :=
  {| proxy_heap := proxy_heap d; connection := connection d; mask := mask d;
     fatal_error := fatal_error d; objects := v;
     global_listener_list := global_listener_list d;
     global_list := global_list d; update := update d; errno := errno d;
     next_alloc := next_alloc d; user_mem := user_mem d; log := log d;
     trace := trace d; socket := socket d |}.

Definition set_global_list (d : wl_display) (v : list wl_global) :=
  {| proxy_heap := proxy_heap d; connection := connection d; mask := mask d;
     fatal_error := fatal_error d; objects := objects d;
     global_listener_list := global_listener_list d;
     global_list := v; update := update d; errno := errno d;
     next_alloc := next_alloc d; user_mem := user_mem d; log := log d;
     trace := trace d; socket := socket d |}.

Definition set_errno (d : wl_display) (v : Z) :=
  {| proxy_heap := proxy_heap d; connection := connection d; mask := mask d;
     fatal_error := fatal_error d; objects := objects d;
     global_listener_list := global_listener_list d;
     global_list := global_list d; update := update d; errno := v;
     next_alloc := next_alloc d; user_mem := user_mem d; log := log d;
     trace := trace d; socket := socket d |}.

Definition set_next_alloc (d : wl_display) (v : nat) :=
  {| proxy_heap := proxy_heap d; connection := connection d; mask := mask d;
     fatal_error := fatal_error d; objects := objects d;
     global_listener_list := global_listener_list d;
     global_list := global_list d; update := update d; errno := errno d;
     next_alloc := v; user_mem := user_mem d; log := log d;
     trace := trace d; socket := socket d |}.

Definition set_user_mem (d : wl_display) (v : gmap nat Z) :=
  {| proxy_heap := proxy_heap d; connection := connection d; mask := mask d;
     fatal_error := fatal_error d; objects := objects d;
     global_listener_list := global_listener_list d;
     global_list := global_list d; update := update d; errno := errno d;
     next_alloc := next_alloc d; user_mem := v; log := log d;
     trace := trace d; socket := socket d |}.

Definition set_log (d : wl_display) (v : list string) :=
  {| proxy_heap := proxy_heap d; connection := connection d; mask := mask d;
     fatal_error := fatal_error d; objects := objects d;
     global_listener_list := global_listener_list d;
     global_list := global_list d; update := update d; errno := errno d;
     next_alloc := next_alloc d; user_mem := user_mem d; log := v;
     trace := trace d; socket := socket d |}.

Definition set_trace (d : wl_display) (v : list trace_event) :=
  {| proxy_heap := proxy_heap d; connection := connection d; mask := mask d;
     fatal_error := fatal_error d; objects := objects d;
     global_listener_list := global_listener_list d;
     global_list := global_list d; update := update d; errno := errno d;
     next_alloc := next_alloc d; user_mem := user_mem d; log := log d;
     trace := v; socket := socket d |}.

Definition set_socket (d : wl_display) (v : list io_event) :=
  {| proxy_heap := proxy_heap d; connection := connection d; mask := mask d;
     fatal_error := fatal_error d; objects := objects d;
     global_listener_list := global_listener_list d;
     global_list := global_list d; update := update d; errno := errno d;
     next_alloc := next_alloc d; user_mem := user_mem d; log := log d;
     trace := trace d; socket := v |}.

(** [wl_log] and [fprintf(stderr, ...)]: the format string is kept. *)
Definition wl_log (d : wl_display) (s : string) : wl_display :=
  set_log d (log d ++ [s]).

Definition record (d : wl_display) (e : trace_event) : wl_display :=
  set_trace d (trace d ++ [e]).

(** ** What the file takes from the rest of the library and from the
    application

    connection.c and wayland-util.c are not part of the sources.  Their
    effect on the rings and on the map is modelled below from the spec; what
    the spec leaves open is a field here: when [wl_map_insert_at] reports
    success, how arguments are laid out and decoded, how large a ring is,
    which call of [malloc] fails, and what the listeners of the application
    do to the display. *)
Class Environment := {
  insert_at_ok : gmap Z map_entry -> Z -> map_entry -> bool;
  vmarshal : wl_message -> Z -> Z -> list argument -> option (list byte);
  demarshal : wl_message -> list byte -> gmap Z map_entry ->
              Z + list argument;
  ring_capacity : nat;
  malloc_fails : nat -> bool;
  user_handler : nat -> Z -> list argument -> Z -> wl_display -> wl_display;
  global_handler : nat -> Z -> string -> Z -> Z -> wl_display -> wl_display
}.

Section Operations.

Context `{Environment}.

(** ** The object map *)

(** Modelled from the spec: the object map of wayland-util.c, "a sparse
    mapping id -> (object | ZOMBIE | null)" with [lookup(id) -> value|null],
    [remove(id)], [insert_at(id, value)] and [insert_new(side) -> id].  A
    slot that was never filled, or that was removed, is absent from the
    finite map and reads as null. *)
Definition wl_map_lookup (m : gmap Z map_entry) (i : Z) : map_entry :=
  default entry_null (m !! i).

Definition wl_map_remove (m : gmap Z map_entry) (i : Z) : gmap Z map_entry :=
  delete i m.

(** Modelled from the spec: [insert_at(id, value) -> ok | error].  The spec
    has it fail on a slot that holds a live object, while
    [wl_proxy_destroy] below overwrites the live slot of its proxy through
    this very function; the test that makes it fail is therefore left to
    the environment.  On success the slot holds the value, on failure the
    map is as before. *)
Definition wl_map_insert_at (m : gmap Z map_entry) (i : Z) (v : map_entry)
  : Z * gmap Z map_entry :=
  if insert_at_ok m i v then (0, <[i := v]> m) else (-1, m).

Fixpoint first_unused (m : gmap Z map_entry) (i : Z) (n : nat) : Z :=
  match n with
  | O => i
  | S n' =>
      match m !! i with
      | None => i
      | Some _ => first_unused m (i + 1) n'
      end
  end.

(** Modelled from the spec: [insert_new(side) -> id] takes the first slot of
    the side's segment that is not in use. *)
Definition wl_map_insert_new (m : gmap Z map_entry) (side : map_side)
  (v : map_entry) : Z * gmap Z map_entry :=
  let base := match side with
              | WL_MAP_CLIENT_SIDE => 0
              | WL_MAP_SERVER_SIDE => WL_SERVER_ID_START
              end in
  let i := first_unused m base (size m) in
  (i, <[i := v]> m).

(** ** The heap *)

Definition malloc (d : wl_display) : option nat * wl_display :=
  if malloc_fails (next_alloc d) then (None, set_next_alloc d (S (next_alloc d)))
  else (Some (next_alloc d), set_next_alloc d (S (next_alloc d))).

Definition free (d : wl_display) (p : nat) : wl_display :=
  set_proxy_heap d (delete p (proxy_heap d)).

(** ** The connection *)

(** lines 81-93 *)
Definition connection_update (d : wl_display) (m : Z) : wl_display :=
  let d1 := set_mask d m in
  match update d1 with
  | Some _ => record d1 (t_update m)
  | None => d1
  end.

(** Modelled from the spec: [copy(dest, n)] of connection.c peeks [n] bytes
    of the in-ring without consuming. *)
Definition wl_connection_copy (d : wl_display) (n : nat) : list byte :=
  take n (conn_in (connection d)).

(** Modelled from the spec: [consume(n)] of connection.c advances the read
    cursor of the in-ring by [n] bytes. *)
Definition wl_connection_consume (d : wl_display) (size : Z) : wl_display :=
  set_connection d
    {| conn_in := drop (Z.to_nat size) (conn_in (connection d));
       conn_out := conn_out (connection d) |}.

(** Modelled from the spec: [write(bytes, n)] of connection.c enqueues into
    the out-ring, fails on overflow, and asks for writability through the
    update callback when output becomes pending. *)
Definition wl_connection_write (d : wl_display) (bs : list byte)
  : Z * wl_display :=
  let out := conn_out (connection d) in
  if (ring_capacity <? length out + length bs)%nat then (-1, d)
  else
    let d1 := set_connection d
                {| conn_in := conn_in (connection d); conn_out := out ++ bs |} in
    match out, bs with
    | [], _ :: _ =>
        (0, connection_update d1
              (Z.lor WL_DISPLAY_READABLE WL_DISPLAY_WRITABLE))
    | _, _ => (0, d1)
    end.

(** Modelled from the spec: [data(mask)] of connection.c.  On writable it
    sends from the out-ring and, when the ring drains, drops the interest in
    writability through the update callback; on readable it receives into
    the in-ring; it returns the bytes buffered in the in-ring, or a negative
    value on a fatal I/O error.  The outcome of the system calls is the next
    entry of the socket script; with no entry left the call never
    returns. *)
Definition wl_connection_data (d : wl_display) (m : Z)
  : result (Z * wl_display) :=
  match socket d with
  | [] => Timeout
  | io :: rest =>
      let d0 := set_socket d rest in
      let sent :=
        if Z.land m WL_DISPLAY_WRITABLE =? 0 then Some d0
        else match io_sent io with
             | None => None
             | Some n =>
                 let out := drop n (conn_out (connection d0)) in
                 let d1 := set_connection d0
                             {| conn_in := conn_in (connection d0);
                                conn_out := out |} in
                 match out with
                 | [] => Some (connection_update d1 WL_DISPLAY_READABLE)
                 | _ :: _ => Some d1
                 end
             end in
      match sent with
      | None => Done (-1, d0)
      | Some d2 =>
          if Z.land m WL_DISPLAY_READABLE =? 0
          then Done (Z.of_nat (length (conn_in (connection d2))), d2)
          else match io_received io with
               | None => Done (-1, d2)
               | Some bs =>
                   let inb := conn_in (connection d2) ++ bs in
                   Done (Z.of_nat (length inb),
                         set_connection d2
                           {| conn_in := inb;
                              conn_out := conn_out (connection d2) |})
               end
      end
  end.

(** Modelled from the spec: [demarshal] of connection.c consumes the frame
    as one region and decodes it against the signature; a failure carries
    the [errno] that tells a protocol violation from an exhausted heap. *)
Definition wl_connection_demarshal (d : wl_display) (size : Z)
  (message : wl_message) : option wl_closure * wl_display :=
  let frame := take (Z.to_nat size) (conn_in (connection d)) in
  let d1 := wl_connection_consume d size in
  match demarshal message frame (objects d) with
  | inl e => (None, set_errno d1 e)
  | inr args =>
      (Some {| closure_message := message; closure_args := args |}, d1)
  end.

(** ** Proxies *)

(** lines 125-142; the factory only supplies the display. *)
Definition wl_proxy_create (d : wl_display) (interface : wl_interface)
  : option nat * wl_display :=
  match malloc d with
  | (None, d1) => (None, d1)
  | (Some p, d1) =>
      let '(id, objs) :=
        wl_map_insert_new (objects d1) WL_MAP_CLIENT_SIDE (entry_proxy p) in
      let proxy := {| object_interface := interface;
                      object_implementation := None;
                      object_id := id;
                      user_data := 0 |} in
      (Some p, set_objects (set_proxy_heap d1 (<[p := proxy]> (proxy_heap d1)))
                 objs)
  end.

(** lines 144-168 *)
Definition wl_proxy_create_for_id (d : wl_display) (id : Z)
  (interface : wl_interface) : option nat * wl_display :=
  match malloc d with
  | (None, d1) => (None, d1)
  | (Some p, d1) =>
      let proxy := {| object_interface := interface;
                      object_implementation := None;
                      object_id := id;
                      user_data := 0 |} in
      let '(ret, objs) := wl_map_insert_at (objects d1) id (entry_proxy p) in
      if ret =? 0
      then (Some p,
            set_objects (set_proxy_heap d1 (<[p := proxy]> (proxy_heap d1)))
              objs)
      else (None, set_objects d1 objs)
  end.

(** lines 170-186 *)
Definition wl_proxy_destroy (d : wl_display) (p : nat)
  : result (Z * wl_display) :=
  match proxy_heap d !! p with
  | None => Undefined
  | Some proxy =>
      let '(ret, objs) :=
        if object_id proxy <? WL_SERVER_ID_START
        then wl_map_insert_at (objects d) (object_id proxy) entry_zombie
        else wl_map_insert_at (objects d) (object_id proxy) entry_null in
      let d1 := set_objects d objs in
      if ret =? 0
      then Done (ret, free d1 p)
      else Done (ret, wl_log d1 "Could not destroy proxy %u")
  end.

(** lines 188-201 *)
Definition wl_proxy_add_listener (d : wl_display) (p : nat)
  (implementation : listener) (data : Z) : result (Z * wl_display) :=
  match proxy_heap d !! p with
  | None => Undefined
  | Some proxy =>
      match object_implementation proxy with
      | Some _ => Done (-1, wl_log d "proxy already has listener")
      | None =>
          let proxy' := {| object_interface := object_interface proxy;
                           object_implementation := Some implementation;
                           object_id := object_id proxy;
                           user_data := data |} in
          Done (0, set_proxy_heap d (<[p := proxy']> (proxy_heap d)))
      end
  end.

(** lines 203-229 *)
Definition wl_proxy_marshal (d : wl_display) (p : nat) (opcode : Z)
  (args : list argument) : result (Z * wl_display) :=
  match proxy_heap d !! p with
  | None => Undefined
  | Some proxy =>
      match methods (object_interface proxy) !! Z.to_nat opcode with
      | None => Undefined
      | Some message =>
          match vmarshal message (object_id proxy) opcode args with
          | None => Done (-1, wl_log d "Error marshalling request")
          | Some bs =>
              let '(ret, d1) := wl_connection_write d bs in
              if ret =? 0 then Done (ret, d1)
              else Done (ret, wl_log d1 "Error sending request: %m")
          end
      end
  end.

(** ** The listener of the display *)

(** lines 247-256 *)
Definition display_handle_error (d : wl_display) (object : option nat)
  (code : Z) (message : string) : result wl_display :=
  match object ≫= (fun p => proxy_heap d !! p) with
  | None => Undefined
  | Some _ =>
      Done (set_fatal_error (wl_log d "%s@%u: error %u: %s") true)
  end.

Definition notify_global_listeners (d : wl_display) (id : Z)
  (interface : string) (version : Z) : wl_display :=
  foldl (fun d l =>
           global_handler (listener_handler l) id interface version
             (listener_data l)
             (record d (t_global_handler (listener_handler l) id interface
                          version (listener_data l))))
    d (global_listener_list d).

(** lines 258-275; the result of [malloc] is written through unchecked. *)
Definition display_handle_global (d : wl_display) (id : Z)
  (interface : string) (version : Z) : result wl_display :=
  match malloc d with
  | (None, _) => Undefined
  | (Some _, d1) =>
      let global := {| global_id := id; global_interface := interface;
                       global_version := version |} in
      Done (notify_global_listeners
              (set_global_list d1 (global_list d1 ++ [global]))
              id interface version)
  end.

Fixpoint remove_global (l : list wl_global) (id : Z) : list wl_global :=
  match l with
  | [] => []
  | g :: l' => if global_id g =? id then l' else g :: remove_global l' id
  end.

(** lines 285-296 *)
Definition display_handle_global_remove (d : wl_display) (id : Z)
  : wl_display :=
  set_global_list d (remove_global (global_list d) id).

(** lines 298-308 *)
Definition display_handle_delete_id (d : wl_display) (id : Z) : wl_display :=
  if decide (wl_map_lookup (objects d) id = entry_zombie)
  then set_objects d (wl_map_remove (objects d) id)
  else wl_log d "server sent delete_id for live object".

(** lines 467-474; [data] is the address of the caller's [done]. *)
Definition sync_callback (d : wl_display) (data : Z) (callback : nat)
  (serial : Z) : result wl_display :=
  match user_mem d !! Z.to_nat data with
  | None => Undefined
  | Some _ =>
      let d1 := set_user_mem d (<[Z.to_nat data := 1]> (user_mem d)) in
      '(_, d2) ← wl_proxy_destroy d1 callback;
      Done d2
  end.

(** [wl_closure_invoke] on the client: the call through
    [implementation[opcode]] with the decoded arguments. *)
Definition wl_closure_invoke (d : wl_display) (args : list argument)
  (target : nat) (id : Z) (implementation : listener) (opcode : Z)
  (data : Z) : result wl_display :=
  let d1 := record d (t_invoke id opcode implementation args) in
  match implementation with
  | display_listener =>
      match opcode, args with
      | 0, [arg_object o; arg_uint code; arg_string message] =>
          display_handle_error d1 o code message
      | 1, [arg_uint name; arg_string interface; arg_uint version] =>
          display_handle_global d1 name interface version
      | 2, [arg_uint name] => Done (display_handle_global_remove d1 name)
      | 3, [arg_uint name] => Done (display_handle_delete_id d1 name)
      | _, _ => Undefined
      end
  | sync_listener =>
      match opcode, args with
      | 0, [arg_uint serial] => sync_callback d1 data target serial
      | _, _ => Undefined
      end
  | user_listener n => Done (user_handler n opcode args data d1)
  end.

(** ** Receiving events *)

(** lines 505-538 *)
Fixpoint create_proxies (d : wl_display) (args : list argument)
  : option (list argument) * wl_display :=
  match args with
  | [] => (Some [], d)
  | arg_new_id id itf :: rest =>
      if id =? 0 then
        let '(r, d1) := create_proxies d rest in
        ((fun l => arg_new_proxy None :: l) <$> r, d1)
      else
        match wl_proxy_create_for_id d id itf with
        | (None, d1) => (None, d1)
        | (Some p, d1) =>
            let '(r, d2) := create_proxies d1 rest in
            ((fun l => arg_new_proxy (Some p) :: l) <$> r, d2)
        end
  | a :: rest =>
      let '(r, d1) := create_proxies d rest in
      ((fun l => a :: l) <$> r, d1)
  end.

(** lines 540-577 *)
Definition handle_event (d : wl_display) (id opcode size : Z)
  : result (Z * wl_display) :=
  match wl_map_lookup (objects d) id with
  | entry_zombie => Done (0, wl_connection_consume d size)
  | entry_null => Done (0, wl_connection_consume d size)
  | entry_proxy p =>
      match proxy_heap d !! p with
      | None => Undefined
      | Some proxy =>
          match object_implementation proxy with
          | None => Done (0, wl_connection_consume d size)
          | Some implementation =>
              match events (object_interface proxy) !! Z.to_nat opcode with
              | None => Undefined
              | Some message =>
                  let '(closure, d1) :=
                    wl_connection_demarshal d size message in
                  let d2 := record d1 (t_demarshal id opcode) in
                  match closure with
                  | None => Done (-1, wl_log d2 "Error demarshalling event")
                  | Some c =>
                      match create_proxies d2 (closure_args c) with
                      | (None, d3) =>
                          Done (-1, wl_log d3 "Error demarshalling event")
                      | (Some args, d3) =>
                          d4 ← wl_closure_invoke d3 args p id implementation
                                 opcode (user_data proxy);
                          Done (0, d4)
                      end
                  end
              end
          end
      end
  end.

(** The [while (len > 0)] loop of [wl_display_iterate], lines 607-627. *)
Fixpoint iterate_loop (fuel : nat) (d : wl_display) (len : Z)
  : result (Z * wl_display) :=
  match fuel with
  | O => Timeout
  | S fuel' =>
      if len >? 0 then
        if len <? 8 then Done (len, d)
        else
          let p := wl_connection_copy d 8 in
          let object := u32_of_bytes (take 4 p) in
          let opcode := Z.land (u32_of_bytes (drop 4 p)) 0xffff in
          let size := Z.shiftr (u32_of_bytes (drop 4 p)) 16 in
          if len <? size then Done (len, d)
          else
            '(ret, d1) ← handle_event d object opcode size;
            if ret =? 0 then iterate_loop fuel' d1 (len - size)
            else Done (ret, d1)
      else Done (len, d)
  end.

(** lines 579-628 *)
Definition wl_display_iterate (fuel : nat) (d : wl_display) (m : Z)
  : result (Z * wl_display) :=
  if fatal_error d then
    Done (-1, set_errno
                (wl_log d "Fatal error on wl_display %p: Call wl_display_destroy() and create a replacement display")
                EPROTO)
  else
    let m := Z.land m (mask d) in
    if m =? 0 then
      Done (-1, set_errno
                  (wl_log d "wl_display_iterate called with unsolicited flags")
                  EINVAL)
    else
      '(len, d1) ← wl_connection_data d m;
      if len <? 0 then Done (len, wl_log d1 "read error: %m")
      else iterate_loop fuel d1 len.

(** Successive calls of [wl_display_iterate], each with its mask; what
    each call returned and the [errno] it left. *)
Fixpoint iterate_calls (fuel : nat) (d : wl_display) (masks : list Z)
  : result (list (Z * Z) * wl_display) :=
  match masks with
  | [] => Done ([], d)
  | m :: ms =>
      '(r, d1) ← wl_display_iterate fuel d m;
      '(rs, d2) ← iterate_calls fuel d1 ms;
      Done ((r, errno d1) :: rs, d2)
  end.

(** lines 630-642; [ret] is [None] while nothing was assigned to it. *)
Fixpoint wl_display_flush_loop (n fuel : nat) (d : wl_display)
  (ret : option Z) : result (Z * wl_display) :=
  if Z.land (mask d) WL_DISPLAY_WRITABLE =? 0 then
    match ret with
    | None => Undefined
    | Some r => Done (r, d)
    end
  else
    match n with
    | O => Timeout
    | S n' =>
        '(r, d1) ← wl_display_iterate fuel d WL_DISPLAY_WRITABLE;
        if r =? 0 then wl_display_flush_loop n' fuel d1 (Some r)
        else Done (r, d1)
    end.

Definition wl_display_flush (fuel : nat) (d : wl_display)
  : result (Z * wl_display) :=
  wl_display_flush_loop fuel fuel d None.

(** ** The interfaces of the core protocol

    The generated protocol tables are not part of the sources; the order of
    the events of the display is the order of [display_listener], the
    callback has the one event that [sync_listener] handles. *)
Definition wl_display_interface : wl_interface :=
  {| interface_name := "wl_display";
     interface_version := 1;
     methods := [ {| message_name := "bind"; message_signature := "usun" |};
                  {| message_name := "sync"; message_signature := "n" |} ];
     events := [ {| message_name := "error"; message_signature := "ous" |};
                 {| message_name := "global"; message_signature := "usu" |};
                 {| message_name := "global_remove";
                    message_signature := "u" |};
                 {| message_name := "delete_id"; message_signature := "u" |} ]
  |}.

Definition wl_callback_interface : wl_interface :=
  {| interface_name := "wl_callback";
     interface_version := 1;
     methods := [];
     events := [ {| message_name := "done"; message_signature := "u" |} ] |}.

(** Address of the proxy embedded in the display. *)
Definition display_proxy : nat := 0%nat.

(** lines 660-673 *)
Definition wl_display_sync (d : wl_display)
  : result (option nat * wl_display) :=
  match wl_proxy_create d wl_callback_interface with
  | (None, d1) => Done (None, d1)
  | (Some p, d1) =>
      '(_, d2) ← wl_proxy_marshal d1 display_proxy WL_DISPLAY_SYNC
                   [arg_new_proxy (Some p)];
      Done (Some p, d2)
  end.

(** The [while (!done && ret == 0)] loop of [wl_display_roundtrip]. *)
Fixpoint roundtrip_loop (n fuel : nat) (d : wl_display) (done : nat)
  (ret : Z) : result (Z * wl_display) :=
  match user_mem d !! done with
  | None => Undefined
  | Some v =>
      if (v =? 0) && (ret =? 0) then
        match n with
        | O => Timeout
        | S n' =>
            '(r, d1) ← wl_display_iterate fuel d WL_DISPLAY_READABLE;
            roundtrip_loop n' fuel d1 done r
        end
      else Done (ret, d)
  end.

(** lines 480-503; the local [done] is a cell that lives from the entry of
    the function to its return. *)
Definition wl_display_roundtrip (fuel : nat) (d : wl_display)
  : result (Z * wl_display) :=
  let done := next_alloc d in
  let d0 := set_user_mem (set_next_alloc d (S done))
              (<[done := 0]> (user_mem d)) in
  '(ret, d5) ←
    ('(callback, d1) ← wl_display_sync d0;
     match callback with
     | None => Done (-1, d1)
     | Some cb =>
         let d2 := set_user_mem d1 (<[done := 0]> (user_mem d1)) in
         '(ret, d3) ← wl_proxy_add_listener d2 cb sync_listener
                        (Z.of_nat done);
         if negb (ret =? 0) then Done (ret, d3)
         else
           '(ret, d4) ← wl_display_flush fuel d3;
           if negb (ret =? 0) then Done (ret, d4)
           else roundtrip_loop fuel fuel d4 done ret
     end);
  Done (ret, set_user_mem d5 (delete done (user_mem d5))).

(** ** What an application does with a display *)

Inductive call : Type :=
| call_iterate (m : Z)
| call_flush
| call_roundtrip
| call_sync
| call_proxy_create (interface : wl_interface)
| call_proxy_destroy (p : nat)
| call_add_listener (p : nat) (l : listener) (data : Z)
| call_marshal (p : nat) (opcode : Z) (args : list argument).

(** One call; for the calls that return a pointer the value is 0. *)
Definition run_call (fuel : nat) (d : wl_display) (c : call)
  : result (Z * wl_display) :=
  match c with
  | call_iterate m => wl_display_iterate fuel d m
  | call_flush => wl_display_flush fuel d
  | call_roundtrip => wl_display_roundtrip fuel d
  | call_sync => '(_, d1) ← wl_display_sync d; Done (0, d1)
  | call_proxy_create interface =>
      Done (0, (wl_proxy_create d interface).2)
  | call_proxy_destroy p => wl_proxy_destroy d p
  | call_add_listener p l data => wl_proxy_add_listener d p l data
  | call_marshal p opcode args => wl_proxy_marshal d p opcode args
  end.

(** A sequence of calls; of each call of [wl_display_iterate] it keeps
    what the call returned and the [errno] it left. *)
Fixpoint run_calls (fuel : nat) (d : wl_display) (cs : list call)
  : result (list (Z * Z) * wl_display) :=
  match cs with
  | [] => Done ([], d)
  | c :: cs' =>
      '(r, d1) ← run_call fuel d c;
      '(rs, d2) ← run_calls fuel d1 cs';
      match c with
      | call_iterate _ => Done ((r, errno d1) :: rs, d2)
      | _ => Done (rs, d2)
      end
  end.

(** The entries of the trace that stand for a decoded frame or a call of a
    listener. *)
Definition is_dispatch (e : trace_event) : bool :=
  match e with
  | t_update _ => false
  | _ => true
  end.

Definition dispatches (d : wl_display) : list trace_event :=
  List.filter is_dispatch (trace d).

(** lines 406-431 of [wl_display_connect], once the socket is there: the
    map with its sentinel in slot 0 and the display in the next slot, the
    empty lists, a new connection with interest in readability. *)
Definition wl_display_connect (script : list io_event) : wl_display :=
  let '(_, o1) := wl_map_insert_new ∅ WL_MAP_CLIENT_SIDE entry_null in
  let '(id, o2) :=
    wl_map_insert_new o1 WL_MAP_CLIENT_SIDE (entry_proxy display_proxy) in
  let proxy := {| object_interface := wl_display_interface;
                  object_implementation := Some display_listener;
                  object_id := id;
                  user_data := 0 |} in
  connection_update
    {| proxy_heap := {[ display_proxy := proxy ]};
       connection := {| conn_in := []; conn_out := [] |};
       mask := 0;
       fatal_error := false;
       objects := o2;
       global_listener_list := [];
       global_list := [];
       update := None;
       errno := 0;
       next_alloc := 1;
       user_mem := ∅;
       log := [];
       trace := [];
       socket := script |}
    WL_DISPLAY_READABLE.

End Operations.

(** ** Notions to state the facts with *)

(** What [wl_proxy_destroy] leaves in the slot of an id. *)
Definition dead_entry (id : Z) : map_entry :=
  if id <? WL_SERVER_ID_START then entry_zombie else entry_null.

(** From [d] to [d'] the display is fatal and nothing more was decoded or
    dispatched. *)
Definition stays_fatal (d d' : wl_display) : Prop :=
  fatal_error d' = true /\ dispatches d' = dispatches d.

(** ** A plain environment

    The map accepts every write, a request is laid out as its header and
    one zero word for each argument, no frame decodes, the rings hold 4096
    bytes, [malloc] always succeeds and the listeners of the application
    leave the display alone. *)
Definition plain_vmarshal (message : wl_message) (id opcode : Z)
  (args : list argument) : option (list byte) :=
  Some (encode_frame
          {| frame_object := id; frame_opcode := opcode;
             frame_body := concat (map (fun _ => bytes_of_u32 0) args) |}).

Definition plain_environment : Environment :=
  {| insert_at_ok := fun _ _ _ => true;
     vmarshal := plain_vmarshal;
     demarshal := fun _ _ _ => inl EINVAL;
     ring_capacity := 4096;
     malloc_fails := fun _ => false;
     user_handler := fun _ _ _ _ d => d;
     global_handler := fun _ _ _ _ _ d => d |}.

(** A socket that takes the twelve bytes of the [sync] request at the
    first call and delivers four bytes, half a header, at the second. *)
Definition half_header_script : list io_event :=
  [ {| io_sent := Some 12%nat; io_received := Some [] |};
    {| io_sent := Some 0%nat;
       io_received := Some [x01; x00; x00; x00] |} ].

(** States to run the model on: a display just connected; the same with a
    callback proxy (address 1, id 2); the same after that proxy was
    destroyed; the display after an [error] event; and a state whose socket
    delivers given bytes next. *)
Definition connected : wl_display := wl_display_connect half_header_script.

Definition with_callback : wl_display :=
  (@wl_proxy_create plain_environment connected wl_callback_interface).2.


Definition after_error : wl_display :=
  set_fatal_error (wl_log connected "%s@%u: error %u: %s") true.

Definition receiving (d : wl_display) (bs : list byte) : wl_display :=
  set_socket d [ {| io_sent := Some 0%nat; io_received := Some bs |} ].

Definition done_frame : frame :=
  {| frame_object := 2; frame_opcode := 0; frame_body := bytes_of_u32 7 |}.

(** * More of the client file *)

Section Registry.

Context `{Environment}.

Definition set_global_listener_list (d : wl_display)
  (v : list wl_global_listener) :=
  {| proxy_heap := proxy_heap d; connection := connection d; mask := mask d;
     fatal_error := fatal_error d; objects := objects d;
     global_listener_list := v;
     global_list := global_list d; update := update d; errno := errno d;
     next_alloc := next_alloc d; user_mem := user_mem d; log := log d;
     trace := trace d; socket := socket d |}.

(** The call of a global handler for one global. *)
Definition call_global_handler (handler : nat) (data : Z) (d : wl_display)
  (g : wl_global) : wl_display :=
  global_handler handler (global_id g) (global_interface g)
    (global_version g) data
    (record d (t_global_handler handler (global_id g) (global_interface g)
                 (global_version g) data)).

(** lines 95-115; the walk is over the list of globals as it is when the
    listener has been linked. *)
Definition wl_display_add_global_listener (d : wl_display) (handler : nat)
  (data : Z) : option wl_global_listener * wl_display :=
  match malloc d with
  | (None, d1) => (None, d1)
  | (Some _, d1) =>
      let listener := {| listener_handler := handler;
                         listener_data := data |} in
      let d2 := set_global_listener_list d1
                  (global_listener_list d1 ++ [listener]) in
      (Some listener,
       foldl (call_global_handler handler data) d2 (global_list d2))
  end.

(** lines 231-245; [strcmp] gives 0 on equal strings. *)
Fixpoint find_global (l : list wl_global) (interface : string) (version : Z)
  : Z :=
  match l with
  | [] => 0
  | g :: l' =>
      if String.eqb interface (global_interface g)
         && (version <=? global_version g)
      then global_id g
      else find_global l' interface version
  end.

Definition wl_display_get_global (d : wl_display) (interface : string)
  (version : Z) : Z :=
  find_global (global_list d) interface version.

(** lines 644-658 *)
Definition wl_display_bind (d : wl_display) (name : Z)
  (interface : wl_interface) : result (option nat * wl_display) :=
  match wl_proxy_create d interface with
  | (None, d1) => Done (None, d1)
  | (Some p, d1) =>
      '(_, d2) ← wl_proxy_marshal d1 display_proxy WL_DISPLAY_BIND
                   [arg_uint name; arg_string (interface_name interface);
                    arg_uint (interface_version interface);
                    arg_new_proxy (Some p)];
      Done (Some p, d2)
  end.

(** lines 675-679 *)
Definition wl_proxy_set_user_data (d : wl_display) (p : nat) (data : Z)
  : result wl_display :=
  match proxy_heap d !! p with
  | None => Undefined
  | Some proxy =>
      Done (set_proxy_heap d
              (<[p := {| object_interface := object_interface proxy;
                         object_implementation := object_implementation proxy;
                         object_id := object_id proxy;
                         user_data := data |}]> (proxy_heap d)))
  end.

(** lines 681-685 *)
Definition wl_proxy_get_user_data (d : wl_display) (p : nat) : result Z :=
  match proxy_heap d !! p with
  | None => Undefined
  | Some proxy => Done (user_data proxy)
  end.

(** lines 687-691 *)
Definition wl_proxy_get_id (d : wl_display) (p : nat) : result Z :=
  match proxy_heap d !! p with
  | None => Undefined
  | Some proxy => Done (object_id proxy)
  end.

End Registry.

(** ** Connecting to the socket *)

(** [errno] values of Linux, and the size of [sun_path] there, the 108 of
    the message that the function prints. *)
Definition ENOENT : Z := 2.
Definition ENAMETOOLONG : Z := 36.
Definition sun_path_size : Z := 108.

(** The two variables of the environment that the function reads. *)
Record environ := {
  XDG_RUNTIME_DIR : option string;
  WAYLAND_DISPLAY : option string
}.

(** What the kernel answers: the descriptor that [socket] returns, or -1
    with an [errno], and [None] for a [connect] that succeeds, or its
    [errno]. *)
Record kernel := {
  socket_returns : Z;
  socket_errno : Z;
  connect_fails : option Z
}.

Inductive syscall : Type :=
| sys_socket
| sys_connect (fd : Z) (path : string) (size : Z)
| sys_close (fd : Z).

(** What a call leaves behind: its value, [errno], the system calls it
    made, and what it printed. *)
Record outcome := {
  returned : Z;
  errno_after : Z;
  syscalls : list syscall;
  printed : list string
}.

(** lines 317-371; [errno0] is [errno] at entry.  [snprintf] returns the
    length of the whole path also when it does not fit.  The message is
    kept without the quotes around the path. *)
Definition connect_to_socket (env : environ) (k : kernel)
  (name : option string) (errno0 : Z) : outcome :=
  match XDG_RUNTIME_DIR env with
  | None =>
      {| returned := -1; errno_after := ENOENT; syscalls := [];
         printed := ["error: XDG_RUNTIME_DIR not set in the environment."] |}
  | Some runtime_dir =>
      let name := match name with
                  | Some n => Some n
                  | None => WAYLAND_DISPLAY env
                  end in
      let name := match name with
                  | Some n => n
                  | None => "wayland-0"
                  end in
      if socket_returns k <? 0 then
        {| returned := -1; errno_after := socket_errno k;
           syscalls := [sys_socket]; printed := [] |}
      else
        let name_size :=
          Z.of_nat (String.length runtime_dir) + 1
          + Z.of_nat (String.length name) + 1 in
        if sun_path_size <? name_size then
          {| returned := -1; errno_after := ENAMETOOLONG;
             syscalls := [sys_socket; sys_close (socket_returns k)];
             printed := ["error: socket path %s/%s plus null terminator exceeds 108 bytes"] |}
        else
          let path := (runtime_dir ++ "/" ++ name)%string in
          let call := sys_connect (socket_returns k) path (2 + name_size) in
          match connect_fails k with
          | Some e =>
              {| returned := -1; errno_after := e;
                 syscalls := [sys_socket; call;
                              sys_close (socket_returns k)];
                 printed := [] |}
          | None =>
              {| returned := 0; errno_after := errno0;
                 syscalls := [sys_socket; call]; printed := [] |}
          end
  end.

(** ** More notions to state facts with *)

(** The global handlers of the application only look: a call leaves the
    display as it is. *)
Definition quiet_global_handlers `{Environment} : Prop :=
  forall h id itf v data d, global_handler h id itf v data d = d.

(** A global answers a query for an interface and a version. *)
Definition global_matches (interface : string) (version : Z) (g : wl_global)
  : Prop :=
  global_interface g = interface /\ version <= global_version g.

(** The name of the socket: the argument, else [WAYLAND_DISPLAY], else
    "wayland-0". *)
Definition socket_name (env : environ) (name : option string) : string :=
  default (default "wayland-0" (WAYLAND_DISPLAY env)) name.


(** An environment of a user session and a kernel that grants what is
    asked. *)
Definition user_environ : environ :=
  {| XDG_RUNTIME_DIR := Some "/run/user/1000"; WAYLAND_DISPLAY := None |}.

Definition willing_kernel : kernel :=
  {| socket_returns := 3; socket_errno := 0; connect_fails := None |}.

(** An argument list without [new_id]: [create_proxies] has nothing to
    create for it. *)
Definition no_new_id (args : list argument) : Prop :=
  Forall (fun a => match a with arg_new_id _ _ => False | _ => True end) args.

(** The display when the frame [f] has arrived alone on an empty ring and
    has been taken off it and decoded. *)
Definition delivered (d : wl_display) (rest : list io_event) (f : frame)
  : wl_display :=
  record
    (set_connection (set_socket d rest)
       {| conn_in := []; conn_out := conn_out (connection d) |})
    (t_demarshal (frame_object f) (frame_opcode f)).


(** More environments: one that decodes a [global] event and a [done]
    event, and one whose marshalling fails. *)
Definition decoding_environment : Environment :=
  {| insert_at_ok := fun _ _ _ => true;
     vmarshal := plain_vmarshal;
     demarshal := fun m _ _ =>
       if String.eqb (message_name m) "global"
       then inr [arg_uint 3; arg_string "wl_compositor"; arg_uint 1]
       else inr [arg_uint 7];
     ring_capacity := 4096;
     malloc_fails := fun _ => false;
     user_handler := fun _ _ _ _ d => d;
     global_handler := fun _ _ _ _ _ d => d |}.

Definition mute_environment : Environment :=
  {| insert_at_ok := fun _ _ _ => true;
     vmarshal := fun _ _ _ _ => None;
     demarshal := fun _ _ _ => inl EINVAL;
     ring_capacity := 4096;
     malloc_fails := fun _ => false;
     user_handler := fun _ _ _ _ d => d;
     global_handler := fun _ _ _ _ _ d => d |}.

(** More states: a display with one listener of globals and one global; the
    callback proxy with a listener of the application; the display with a
    [sync] request in its out-ring. *)
Definition with_registry : wl_display :=
  match @display_handle_global plain_environment
          (@wl_display_add_global_listener plain_environment connected
             7%nat 0).2
          3 "wl_compositor" 1 with
  | Done d => d
  | _ => connected
  end.

Definition listening : wl_display :=
  match wl_proxy_add_listener with_callback 1 (user_listener 0) 5 with
  | Done (_, d) => d
  | _ => with_callback
  end.


Definition global_frame : frame :=
  {| frame_object := 1; frame_opcode := 1; frame_body := bytes_of_u32 3 |}.

End Client.

(** * Server side: [wayland/wayland-server.c] *)

Module Server.

(** ** Constants of the headers *)

Definition WL_EVENT_READABLE : Z := 1.
Definition WL_EVENT_WRITEABLE : Z := 2.
Definition WL_CONNECTION_READABLE : Z := 1.
Definition WL_CONNECTION_WRITABLE : Z := 2.

(** [errno] values of Linux. *)
Definition ENOMEM : Z := 12.
Definition EINVAL : Z := 22.

(** The events of the display that the file posts, by the names of
    wayland-server-protocol.h, and any other event by its number. *)
Inductive event_opcode : Type :=
| WL_DISPLAY_INVALID_OBJECT
| WL_DISPLAY_INVALID_METHOD
| WL_DISPLAY_NO_MEMORY
| WL_DISPLAY_GLOBAL
| WL_DISPLAY_RANGE
| WL_DISPLAY_KEY
| other_event (n : Z).

#[global] Instance event_opcode_eq_dec : EqDecision event_opcode.
Proof. solve_decision. Defined.

(** ** Data *)

Record wl_message := {
  message_name : string;
  message_signature : string
}.

Record wl_interface := {
  interface_name : string;
  interface_version : Z;
  method_count : Z;
  methods : list wl_message;
  event_count : Z;
  events : list wl_message
}.

(** The table of methods behind [object->implementation]: the one of the
    display, defined in the file, or one of the compositor's, known by a
    number. *)
Inductive implementation : Type :=
| display_interface
| user_interface (n : nat).

Record wl_object := {
  object_interface : wl_interface;
  object_implementation : option implementation;
  object_id : Z
}.

Inductive destroy_func : Type :=
| destroy_frame_listener
| user_destroy (n : nat).

Record wl_resource := {
  resource_object : wl_object;
  resource_destroy : destroy_func
}.

(** [struct wl_frame_listener]; its embedded resource has
    [destroy = destroy_frame_listener] and [object.id = 0], the rest of the
    embedded object is never written. *)
Record wl_frame_listener := {
  listener_client : nat;
  listener_key : Z
}.

(** What lives at an address: a bare object, a resource, or a frame
    listener. *)
Inductive cell : Type :=
| cell_object (o : wl_object)
| cell_resource (r : wl_resource)
| cell_frame_listener (l : wl_frame_listener).

Inductive argument : Type :=
| arg_int (v : Z)
| arg_uint (v : Z)
| arg_string (s : string)
| arg_object (p : option nat)
| arg_new_id (id : Z)
| arg_array (bs : list byte)
| arg_fd (fd : Z).

#[global] Instance argument_eq_dec : EqDecision argument.
Proof. solve_decision. Defined.

(** An event as it is handed to the connection of a client. *)
Record wl_event := {
  event_sender : Z;
  event_opcode_of : event_opcode;
  event_args : list argument
}.

#[global] Instance wl_event_eq_dec : EqDecision wl_event.
Proof. solve_decision. Defined.

Record wl_global := {
  global_object : nat;
  global_func : option nat
}.

(** What the kernel does at one call of [wl_connection_data] on the socket
    of a client. *)
Record io_event := {
  io_sent : bool;
  io_received : option (list byte)
}.

(** [struct wl_client]: the in-ring of its connection, the script of its
    socket, the list of its resources and the count of granted ids.  What
    is written to the connection is kept in the display-wide list
    [posted]. *)
Record wl_client := {
  connection_in : list byte;
  client_socket : list io_event;
  resource_list : list nat;
  id_count : Z
}.

Inductive trace_event : Type :=
| t_invoke (id opcode : Z) (client : nat)
| t_destroy (resource : nat) (client : nat)
| t_connect (func : nat) (client : nat) (object : nat).

(** [struct wl_display] with the state of the process around it: the heap
    (address 0 is the object embedded in the display), the clients, the
    events posted so far with the client each went to, and the calls made
    through function pointers. *)
Record wl_display := {
  heap : gmap nat cell;
  objects : gmap Z nat;
  frame_list : list nat;
  client_id_range : Z;
  id : Z;
  global_list : list wl_global;
  clients : gmap nat wl_client;
  next_alloc : nat;
  errno : Z;
  posted : list (nat * wl_event);
  trace : list trace_event
}.

Definition set_heap (d : wl_display) (v : gmap nat cell) :=
  {| heap := v; objects := objects d; frame_list := frame_list d;
     client_id_range := client_id_range d; id := id d;
     global_list := global_list d; clients := clients d;
     next_alloc := next_alloc d; errno := errno d; posted := posted d;
     trace := trace d |}.

Definition set_objects (d : wl_display) (v : gmap Z nat) :=
  {| heap := heap d; objects := v; frame_list := frame_list d;
     client_id_range := client_id_range d; id := id d;
     global_list := global_list d; clients := clients d;
     next_alloc := next_alloc d; errno := errno d; posted := posted d;
     trace := trace d |}.

Definition set_frame_list (d : wl_display) (v : list nat) :=
  {| heap := heap d; objects := objects d; frame_list := v;
     client_id_range := client_id_range d; id := id d;
     global_list := global_list d; clients := clients d;
     next_alloc := next_alloc d; errno := errno d; posted := posted d;
     trace := trace d |}.

Definition set_client_id_range (d : wl_display) (v : Z) :=
  {| heap := heap d; objects := objects d; frame_list := frame_list d;
     client_id_range := v; id := id d;
     global_list := global_list d; clients := clients d;
     next_alloc := next_alloc d; errno := errno d; posted := posted d;
     trace := trace d |}.

Definition set_id (d : wl_display) (v : Z) :=
  {| heap := heap d; objects := objects d; frame_list := frame_list d;
     client_id_range := client_id_range d; id := v;
     global_list := global_list d; clients := clients d;
     next_alloc := next_alloc d; errno := errno d; posted := posted d;
     trace := trace d |}.

Definition set_global_list (d : wl_display) (v : list wl_global) :=
  {| heap := heap d; objects := objects d; frame_list := frame_list d;
     client_id_range := client_id_range d; id := id d;
     global_list := v; clients := clients d;
     next_alloc := next_alloc d; errno := errno d; posted := posted d;
     trace := trace d |}.

Definition set_clients (d : wl_display) (v : gmap nat wl_client) :=
  {| heap := heap d; objects := objects d; frame_list := frame_list d;
     client_id_range := client_id_range d; id := id d;
     global_list := global_list d; clients := v;
     next_alloc := next_alloc d; errno := errno d; posted := posted d;
     trace := trace d |}.

Definition set_next_alloc (d : wl_display) (v : nat) :=
  {| heap := heap d; objects := objects d; frame_list := frame_list d;
     client_id_range := client_id_range d; id := id d;
     global_list := global_list d; clients := clients d;
     next_alloc := v; errno := errno d; posted := posted d;
     trace := trace d |}.

Definition set_errno (d : wl_display) (v : Z) :=
  {| heap := heap d; objects := objects d; frame_list := frame_list d;
     client_id_range := client_id_range d; id := id d;
     global_list := global_list d; clients := clients d;
     next_alloc := next_alloc d; errno := v; posted := posted d;
     trace := trace d |}.

Definition set_posted (d : wl_display) (v : list (nat * wl_event)) :=
  {| heap := heap d; objects := objects d; frame_list := frame_list d;
     client_id_range := client_id_range d; id := id d;
     global_list := global_list d; clients := clients d;
     next_alloc := next_alloc d; errno := errno d; posted := v;
     trace := trace d |}.

Definition set_trace (d : wl_display) (v : list trace_event) :=
  {| heap := heap d; objects := objects d; frame_list := frame_list d;
     client_id_range := client_id_range d; id := id d;
     global_list := global_list d; clients := clients d;
     next_alloc := next_alloc d; errno := errno d; posted := posted d;
     trace := v |}.

Definition record (d : wl_display) (e : trace_event) : wl_display :=
  set_trace d (trace d ++ [e]).

Definition set_connection_in (c : wl_client) (v : list byte) :=
  {| connection_in := v; client_socket := client_socket c;
     resource_list := resource_list c; id_count := id_count c |}.

Definition set_client_socket (c : wl_client) (v : list io_event) :=
  {| connection_in := connection_in c; client_socket := v;
     resource_list := resource_list c; id_count := id_count c |}.

Definition set_resource_list (c : wl_client) (v : list nat) :=
  {| connection_in := connection_in c; client_socket := client_socket c;
     resource_list := v; id_count := id_count c |}.

Definition set_id_count (c : wl_client) (v : Z) :=
  {| connection_in := connection_in c; client_socket := client_socket c;
     resource_list := resource_list c; id_count := v |}.

(** Reads a field through the setters around a display. *)
Ltac fields :=
  cbn [heap objects frame_list client_id_range id global_list clients
       next_alloc errno posted trace set_heap set_objects set_frame_list
       set_client_id_range set_id set_global_list set_clients set_next_alloc
       set_errno set_posted set_trace record] in *.

(** The object at an address, whatever it is embedded in. *)
Definition cell_object_id (c : cell) : Z :=
  match c with
  | cell_object o => object_id o
  | cell_resource r => object_id (resource_object r)
  | cell_frame_listener _ => 0
  end.

Definition cell_as_object (c : cell) : option wl_object :=
  match c with
  | cell_object o => Some o
  | cell_resource r => Some (resource_object r)
  | cell_frame_listener _ => None
  end.

Definition cell_destroy (c : cell) : option destroy_func :=
  match c with
  | cell_object _ => None
  | cell_resource r => Some (resource_destroy r)
  | cell_frame_listener _ => Some destroy_frame_listener
  end.

Definition set_object_id (o : wl_object) (v : Z) : wl_object :=
  {| object_interface := object_interface o;
     object_implementation := object_implementation o;
     object_id := v |}.

Definition cell_set_id (c : cell) (v : Z) : cell :=
  match c with
  | cell_object o => cell_object (set_object_id o v)
  | cell_resource r =>
      cell_resource {| resource_object := set_object_id (resource_object r) v;
                       resource_destroy := resource_destroy r |}
  | cell_frame_listener l => cell_frame_listener l
  end.

(** Address of the object embedded in the display. *)
Definition display_object : nat := 0%nat.

(** ** What the file takes from the rest of the library, from the build and
    from the compositor

    Whether [NDEBUG] is defined, which allocations fail, how a frame is
    decoded (connection.c is not part of the sources), and what the
    functions of the compositor do to the display. *)
Class Environment := {
  ndebug : bool;
  malloc_fails : nat -> bool;
  loop_create_ok : bool;
  hash_table_create_ok : bool;
  demarshal : wl_message -> list byte -> gmap Z nat -> Z + list argument;
  user_method : nat -> Z -> list argument -> nat -> wl_display -> wl_display;
  user_destroy_func : nat -> nat -> nat -> wl_display -> wl_display;
  connect_func : nat -> nat -> nat -> wl_display -> wl_display
}.

Section Operations.

Context `{Environment}.

(** [assert(e)]: nothing when [NDEBUG] is defined, [abort] when [e] is
    false otherwise.  The pointer arguments that are plain addresses below
    are non-null, so that the asserts and the null checks on them pass;
    where a caller does pass [NULL] the argument is an [option]. *)
Definition assert (e : bool) : result unit :=
  if ndebug || e then Done () else Aborted.

Definition malloc (d : wl_display) : option nat * wl_display :=
  if malloc_fails (next_alloc d) then (None, set_next_alloc d (S (next_alloc d)))
  else (Some (next_alloc d), set_next_alloc d (S (next_alloc d))).

Definition wrap32 (z : Z) : Z := z mod 4294967296.

(** The object table of the display, a [wl_hash_table] from ids to
    addresses. *)
Definition wl_hash_table_lookup (t : gmap Z nat) (k : Z) : option nat :=
  t !! k.

Definition wl_hash_table_insert (t : gmap Z nat) (k : Z) (v : nat)
  : gmap Z nat := <[k := v]> t.

Definition wl_hash_table_remove (t : gmap Z nat) (k : Z) : gmap Z nat :=
  delete k t.

(** lines 85-110.  Modelled from the spec: [vmarshal] and [write] of
    connection.c hand the completed frame to the out-ring of the client's
    connection. *)
Definition wl_client_post_event (d : wl_display) (client sender : nat)
  (opcode : event_opcode) (args : list argument) : result wl_display :=
  match clients d !! client, heap d !! sender ≫= cell_as_object with
  | Some _, Some o =>
      Done (set_posted d
              (posted d ++ [(client, {| event_sender := object_id o;
                                        event_opcode_of := opcode;
                                        event_args := args |})]))
  | _, _ => Undefined
  end.

(** Modelled from the spec: [consume(n)] of connection.c. *)
Definition wl_connection_consume (d : wl_display) (client : nat) (size : Z)
  : wl_display :=
  set_clients d
    (alter (fun c => set_connection_in c
                       (drop (Z.to_nat size) (connection_in c)))
       client (clients d)).

(** Modelled from the spec: [data(mask)] of connection.c returns the bytes
    buffered in the in-ring, or a negative value on a fatal I/O error; the
    outcome of the system calls is the next entry of the client's socket
    script. *)
Definition wl_connection_data (d : wl_display) (client : nat) (cmask : Z)
  : result (Z * wl_display) :=
  match clients d !! client with
  | None => Undefined
  | Some c =>
      match client_socket c with
      | [] => Timeout
      | io :: rest =>
          let c0 := set_client_socket c rest in
          let put c' := set_clients d (<[client := c']> (clients d)) in
          if negb (Z.land cmask WL_CONNECTION_WRITABLE =? 0)
             && negb (io_sent io)
          then Done (-1, put c0)
          else if Z.land cmask WL_CONNECTION_READABLE =? 0
          then Done (Z.of_nat (length (connection_in c0)), put c0)
          else match io_received io with
               | None => Done (-1, put c0)
               | Some bs =>
                   let inb := connection_in c0 ++ bs in
                   Done (Z.of_nat (length inb),
                         put (set_connection_in c0 inb))
               end
      end
  end.

(** Modelled from the spec: [demarshal] of connection.c consumes the frame
    and decodes it; a failure sets [errno] to [EINVAL] or [ENOMEM]. *)
Definition wl_connection_demarshal (d : wl_display) (client : nat) (size : Z)
  (message : wl_message) : (Z + list argument) * wl_display :=
  let frame :=
    match clients d !! client with
    | Some c => take (Z.to_nat size) (connection_in c)
    | None => []
    end in
  let d1 := wl_connection_consume d client size in
  match demarshal message frame (objects d) with
  | inl e => (inl e, set_errno d1 e)
  | inr args => (inr args, d1)
  end.

(** lines 212-219 *)
Definition wl_display_post_range (d : wl_display) (client : nat)
  : result wl_display :=
  d1 ← wl_client_post_event d client display_object WL_DISPLAY_RANGE
         [arg_uint (client_id_range d)];
  let d2 := set_client_id_range d1 (wrap32 (client_id_range d1 + 256)) in
  Done (set_clients d2
          (alter (fun c => set_id_count c (wrap32 (id_count c + 256)))
             client (clients d2))).

(** lines 257-276 *)
Definition wl_client_add_resource (d : wl_display) (client resource : nat)
  : result wl_display :=
  match clients d !! client, heap d !! resource with
  | Some c, Some r =>
      let d1 := set_clients d
                  (<[client := set_id_count c (wrap32 (id_count c - 1))]>
                     (clients d)) in
      d2 ← (if id_count c <? 64 then wl_display_post_range d1 client
            else Done d1);
      let d3 := set_objects d2
                  (wl_hash_table_insert (objects d2) (cell_object_id r)
                     resource) in
      Done (set_clients d3
              (alter (fun c => set_resource_list c
                                 (resource_list c ++ [resource]))
                 client (clients d3)))
  | _, _ => Undefined
  end.

(** lines 278-289 *)
Definition wl_client_post_no_memory (d : wl_display) (client : nat)
  : result wl_display :=
  wl_client_post_event d client display_object WL_DISPLAY_NO_MEMORY [].

(** lines 464-472 *)
Definition destroy_frame_listener_body (d : wl_display) (resource : nat)
  : wl_display :=
  set_heap
    (set_frame_list d (filter (fun a => a ≠ resource) (frame_list d)))
    (delete resource (heap d)).

(** lines 307-323; [wl_list_remove] takes the resource out of the list it
    is linked in. *)
Definition wl_resource_destroy (d : wl_display) (resource client : nat)
  : result wl_display :=
  match clients d !! client, heap d !! resource with
  | Some _, Some c =>
      match cell_destroy c with
      | None => Undefined
      | Some destroy =>
          let d1 := set_clients d
                      ((fun cl => set_resource_list cl
                                    (filter (fun a => a ≠ resource)
                                       (resource_list cl)))
                         <$> clients d) in
          let d2 := if 0 <? cell_object_id c
                    then set_objects d1
                           (wl_hash_table_remove (objects d1)
                              (cell_object_id c))
                    else d1 in
          let d3 := record d2 (t_destroy resource client) in
          match destroy with
          | destroy_frame_listener =>
              Done (destroy_frame_listener_body d3 resource)
          | user_destroy n => Done (user_destroy_func n resource client d3)
          end
      end
  | _, _ => Undefined
  end.

Fixpoint destroy_resources (l : list nat) (d : wl_display) (client : nat)
  : result wl_display :=
  match l with
  | [] => Done d
  | r :: l' =>
      d1 ← wl_resource_destroy d r client;
      destroy_resources l' d1 client
  end.

(** lines 325-343 *)
Definition wl_client_destroy (d : wl_display) (client : nat)
  : result wl_display :=
  match clients d !! client with
  | None => Undefined
  | Some c =>
      d1 ← destroy_resources (resource_list c) d client;
      Done (set_clients d1 (delete client (clients d1)))
  end.

(** lines 457-462 *)
Definition display_sync (d : wl_display) (client : nat) (key : Z)
  : result wl_display :=
  wl_client_post_event d client display_object WL_DISPLAY_KEY
    [arg_uint key; arg_uint 0].

(** lines 474-494 *)
Definition display_frame (d : wl_display) (client : nat) (key : Z)
  : result wl_display :=
  match malloc d with
  | (None, d1) => wl_client_post_no_memory d1 client
  | (Some a, d1) =>
      match clients d1 !! client with
      | None => Undefined
      | Some c =>
          let listener := {| listener_client := client;
                             listener_key := key |} in
          let d2 := set_heap d1
                      (<[a := cell_frame_listener listener]> (heap d1)) in
          let d3 := set_clients d2
                      (<[client := set_resource_list c
                                     (resource_list c ++ [a])]>
                         (clients d2)) in
          Done (set_frame_list d3 (frame_list d3 ++ [a]))
      end
  end.

(** [wl_closure_invoke] on the server: the call through
    [object->implementation[opcode]]. *)
Definition wl_closure_invoke (d : wl_display) (args : list argument)
  (object : wl_object) (opcode : Z) (client : nat) : result wl_display :=
  let d1 := record d (t_invoke (object_id object) opcode client) in
  match object_implementation object with
  | None => Undefined
  | Some display_interface =>
      match opcode, args with
      | 0, [arg_uint key] => display_sync d1 client key
      | 1, [arg_uint key] => display_frame d1 client key
      | _, _ => Undefined
      end
  | Some (user_interface n) => Done (user_method n opcode args client d1)
  end.

(** The [while (len >= sizeof p)] loop of [wl_client_connection_data],
    lines 135-183.  The opcode is unsigned, so the [int] method count is
    compared as an unsigned word. *)
Fixpoint connection_data_loop (fuel : nat) (d : wl_display) (client : nat)
  (len : Z) : result wl_display :=
  match fuel with
  | O => Timeout
  | S fuel' =>
      if len <? 8 then Done d
      else
        match clients d !! client with
        | None => Undefined
        | Some c =>
            let p := take 8 (connection_in c) in
            let p0 := u32_of_bytes (take 4 p) in
            let opcode := Z.land (u32_of_bytes (drop 4 p)) 0xffff in
            let size := Z.shiftr (u32_of_bytes (drop 4 p)) 16 in
            if len <? size then Done d
            else
              match wl_hash_table_lookup (objects d) p0 with
              | None =>
                  d1 ← wl_client_post_event d client display_object
                         WL_DISPLAY_INVALID_OBJECT [arg_uint p0];
                  connection_data_loop fuel'
                    (wl_connection_consume d1 client size) client
                    (len - size)
              | Some a =>
                  match heap d !! a ≫= cell_as_object with
                  | None => Undefined
                  | Some object =>
                      if wrap32 (method_count (object_interface object)) <=? opcode
                      then
                        d1 ← wl_client_post_event d client display_object
                               WL_DISPLAY_INVALID_METHOD
                               [arg_uint p0; arg_uint opcode];
                        connection_data_loop fuel'
                          (wl_connection_consume d1 client size) client
                          (len - size)
                      else
                        match methods (object_interface object)
                              !! Z.to_nat opcode with
                        | None => Undefined
                        | Some message =>
                            match wl_connection_demarshal d client size
                                    message with
                            | (inl e, d1) =>
                                if e =? EINVAL then
                                  d2 ← wl_client_post_event d1 client
                                         display_object
                                         WL_DISPLAY_INVALID_METHOD
                                         [arg_uint p0; arg_uint opcode];
                                  connection_data_loop fuel' d2 client
                                    (len - size)
                                else if e =? ENOMEM then
                                  d2 ← wl_client_post_no_memory d1 client;
                                  connection_data_loop fuel' d2 client
                                    (len - size)
                                else Undefined
                            | (inr args, d1) =>
                                d2 ← wl_closure_invoke d1 args object opcode
                                       client;
                                connection_data_loop fuel' d2 client
                                  (len - size)
                            end
                        end
                  end
              end
        end
  end.

(** lines 112-184 *)
Definition wl_client_connection_data (fuel : nat) (d : wl_display)
  (client : nat) (m : Z) : result wl_display :=
  let cmask :=
    Z.lor (if Z.land m WL_EVENT_READABLE =? 0 then 0
           else WL_CONNECTION_READABLE)
          (if Z.land m WL_EVENT_WRITEABLE =? 0 then 0
           else WL_CONNECTION_WRITABLE) in
  '(len, d1) ← wl_connection_data d client cmask;
  if len <? 0 then wl_client_destroy d1 client
  else connection_data_loop fuel d1 client len.

(** ** Clients, globals and the display *)

Fixpoint post_globals (l : list wl_global) (d : wl_display) (client : nat)
  : result wl_display :=
  match l with
  | [] => Done d
  | g :: l' =>
      match heap d !! global_object g ≫= cell_as_object with
      | None => Undefined
      | Some o =>
          d1 ← wl_client_post_event d client display_object WL_DISPLAY_GLOBAL
                 [arg_object (Some (global_object g));
                  arg_string (interface_name (object_interface o));
                  arg_uint (interface_version (object_interface o))];
          post_globals l' d1 client
      end
  end.

Definition call_connect_funcs (l : list wl_global) (d : wl_display)
  (client : nat) : wl_display :=
  foldl (fun d g =>
           match global_func g with
           | None => d
           | Some f =>
               connect_func f client (global_object g)
                 (record d (t_connect f client (global_object g)))
           end) d l.

(** lines 221-255; the script stands for the accepted socket. *)
Definition wl_client_create (d : wl_display) (script : list io_event)
  : result (option nat * wl_display) :=
  match malloc d with
  | (None, d1) => Done (None, d1)
  | (Some c, d1) =>
      let d2 := set_clients d1
                  (<[c := {| connection_in := []; client_socket := script;
                             resource_list := []; id_count := 0 |}]>
                     (clients d1)) in
      d3 ← wl_display_post_range d2 c;
      d4 ← post_globals (global_list d3) d3 c;
      Done (Some c, call_connect_funcs (global_list d4) d4 c)
  end.

(** lines 569-579 *)
Definition wl_display_add_object (d : wl_display) (object : option nat)
  : result wl_display :=
  _ ← assert (bool_decide (is_Some object));
  match object with
  | None => Done d
  | Some a =>
      match heap d !! a with
      | None => Undefined
      | Some c =>
          let d1 := set_heap d (<[a := cell_set_id c (id d)]> (heap d)) in
          let d2 := set_id d1 (wrap32 (id d + 1)) in
          Done (set_objects d2 (wl_hash_table_insert (objects d2) (id d) a))
      end
  end.

(** lines 581-601 *)
Definition wl_display_add_global (d : wl_display) (object : option nat)
  (func : option nat) : result (Z * wl_display) :=
  _ ← assert (bool_decide (is_Some object) && bool_decide (is_Some func));
  match object, func with
  | None, _ => Done (-1, d)
  | Some _, Some _ => Done (-1, d)
  | Some a, None =>
      match malloc d with
      | (None, d1) => Done (-1, d1)
      | (Some _, d1) =>
          Done (0, set_global_list d1
                     (global_list d1
                      ++ [ {| global_object := a; global_func := func |} ]))
      end
  end.

(** The interface of the display as the generated tables give it: the two
    requests that [display_interface] implements and the six events that
    the file posts. *)
Definition wl_display_interface : wl_interface :=
  {| interface_name := "wl_display";
     interface_version := 1;
     method_count := 2;
     methods := [ {| message_name := "sync"; message_signature := "u" |};
                  {| message_name := "frame"; message_signature := "u" |} ];
     event_count := 6;
     events :=
       [ {| message_name := "invalid_object"; message_signature := "u" |};
         {| message_name := "invalid_method"; message_signature := "uu" |};
         {| message_name := "no_memory"; message_signature := "" |};
         {| message_name := "global"; message_signature := "nsu" |};
         {| message_name := "range"; message_signature := "u" |};
         {| message_name := "key"; message_signature := "uu" |} ] |}.

(** lines 502-545 *)
Definition wl_display_create : result (option wl_display) :=
  if malloc_fails 0 then Done None
  else if negb loop_create_ok then Done None
  else if negb hash_table_create_ok then Done None
  else
    let d :=
      {| heap := {[ display_object :=
                      cell_object
                        {| object_interface := wl_display_interface;
                           object_implementation := Some display_interface;
                           object_id := 0 |} ]};
         objects := ∅;
         frame_list := [];
         client_id_range := 256;
         id := 1;
         global_list := [];
         clients := ∅;
         next_alloc := 1;
         errno := 0;
         posted := [];
         trace := [] |} in
    d1 ← wl_display_add_object d (Some display_object);
    '(r, d2) ← wl_display_add_global d1 (Some display_object) None;
    if negb (r =? 0) then Done None else Done (Some d2).

(** lines 603-617; the body unlinks only the listener it is at, so the walk
    is over the list as it was on entry. *)
Fixpoint post_frame_loop (l : list nat) (d : wl_display) (time : Z)
  : result wl_display :=
  match l with
  | [] => Done d
  | a :: l' =>
      match heap d !! a with
      | Some (cell_frame_listener listener) =>
          d1 ← wl_client_post_event d (listener_client listener)
                 display_object WL_DISPLAY_KEY
                 [arg_uint (listener_key listener); arg_uint time];
          d2 ← wl_resource_destroy d1 a (listener_client listener);
          post_frame_loop l' d2 time
      | _ => Undefined
      end
  end.

Definition wl_display_post_frame (d : wl_display) (time : Z)
  : result wl_display :=
  post_frame_loop (frame_list d) d time.

(** ** Sequences of calls *)

(** The compositor adds the resources at the addresses [rs], one after the
    other, to a client. *)
Fixpoint add_resources (d : wl_display) (client : nat) (rs : list nat)
  : result wl_display :=
  match rs with
  | [] => Done d
  | r :: rs' =>
      d1 ← wl_client_add_resource d client r;
      add_resources d1 client rs'
  end.

(** Clients send [frame(key)] requests, one after the other. *)
Fixpoint frame_requests (d : wl_display) (reqs : list (nat * Z))
  : result wl_display :=
  match reqs with
  | [] => Done d
  | (client, key) :: reqs' =>
      d1 ← display_frame d client key;
      frame_requests d1 reqs'
  end.

End Operations.

(** ** Notions to state the facts with *)

(** The frame listener at an address. *)
Definition listener_at (d : wl_display) (a : nat)
  : option wl_frame_listener :=
  match heap d !! a with
  | Some (cell_frame_listener l) => Some l
  | _ => None
  end.

Definition key_event (sender : Z) (time : Z) (l : wl_frame_listener)
  : nat * wl_event :=
  (listener_client l,
   {| event_sender := sender; event_opcode_of := WL_DISPLAY_KEY;
      event_args := [arg_uint (listener_key l); arg_uint time] |}).

Definition range_event (sender : Z) (base : Z) : wl_event :=
  {| event_sender := sender; event_opcode_of := WL_DISPLAY_RANGE;
     event_args := [arg_uint base] |}.

(** The bases of the [range] events among posted events. *)
Definition range_bases (l : list (nat * wl_event)) : list (list argument) :=
  event_args <$> filter (fun e => event_opcode_of e = WL_DISPLAY_RANGE) (l.*2).

(** The event with which the receiving loop answers a frame that it does
    not decode: [invalid_object] for an id that is not in the table,
    [invalid_method] for an opcode that the interface does not have; [None]
    for a frame that goes on to be decoded. *)
Definition rejection (d : wl_display) (sender : Z) (f : frame)
  : option wl_event :=
  match objects d !! frame_object f with
  | None =>
      Some {| event_sender := sender;
              event_opcode_of := WL_DISPLAY_INVALID_OBJECT;
              event_args := [arg_uint (frame_object f)] |}
  | Some a =>
      match heap d !! a ≫= cell_as_object with
      | None => None
      | Some o =>
          if wrap32 (method_count (object_interface o)) <=? frame_opcode f
          then Some {| event_sender := sender;
                       event_opcode_of := WL_DISPLAY_INVALID_METHOD;
                       event_args := [arg_uint (frame_object f);
                                      arg_uint (frame_opcode f)] |}
          else None
      end
  end.

(** The frame listeners at the addresses of a list, and the calls of
    their destroy function. *)
Definition listeners (d : wl_display) (l : list nat)
  : list wl_frame_listener :=
  omap (listener_at d) l.

Definition destroy_calls (d : wl_display) (l : list nat)
  : list trace_event :=
  omap (fun a => (fun li => t_destroy a (listener_client li))
                   <$> listener_at d a) l.

(** The resources on which a destroy function was called, in order. *)
Definition destroyed (t : list trace_event) : list nat :=
  omap (fun e => match e with
                 | t_destroy a _ => Some a
                 | _ => None
                 end) t.

(** A list once the addresses of [l] were unlinked from it, one after the
    other. *)
Definition unlink_all (l : list nat) (k : list nat) : list nat :=
  foldl (fun k a => filter (fun b => b ≠ a) k) k l.

(** The requests of a sequence for which [malloc] returns memory, when the
    first of them makes allocation number [n]. *)
Fixpoint granted `{Environment} (n : nat) (reqs : list (nat * Z))
  : list wl_frame_listener :=
  match reqs with
  | [] => []
  | (client, key) :: reqs' =>
      if malloc_fails n then granted (S n) reqs'
      else {| listener_client := client; listener_key := key |}
           :: granted (S n) reqs'
  end.

(** The frame list is well formed: no address twice, a frame listener with
    a live client at each address, the object of the display in place, and
    every address in use below the next one that [malloc] hands out. *)
Record frames_wf (d : wl_display) : Prop := {
  wf_nodup : NoDup (frame_list d);
  wf_listeners : forall a, a ∈ frame_list d ->
    exists l, listener_at d a = Some l /\
              is_Some (clients d !! listener_client l);
  wf_display : is_Some (heap d !! display_object ≫= cell_as_object);
  wf_fresh : forall a, is_Some (heap d !! a) -> (a < next_alloc d)%nat
}.

(** ** Environments and states to run the model on *)

(** A build with the asserts in, and one with [NDEBUG]; in both every
    allocation succeeds, no frame decodes and the compositor's functions
    leave the display alone. *)
Definition debug_environment : Environment :=
  {| ndebug := false;
     malloc_fails := fun _ => false;
     loop_create_ok := true;
     hash_table_create_ok := true;
     demarshal := fun _ _ _ => inl EINVAL;
     user_method := fun _ _ _ _ d => d;
     user_destroy_func := fun _ _ _ d => d;
     connect_func := fun _ _ _ d => d |}.

Definition release_environment : Environment :=
  {| ndebug := true;
     malloc_fails := fun _ => false;
     loop_create_ok := true;
     hash_table_create_ok := true;
     demarshal := fun _ _ _ => inl EINVAL;
     user_method := fun _ _ _ _ d => d;
     user_destroy_func := fun _ _ _ d => d;
     connect_func := fun _ _ _ d => d |}.

(** The display that [wl_display_create] returns in the release build. *)
Definition fresh_display : wl_display :=
  match @wl_display_create release_environment with
  | Done (Some d) => d
  | _ => {| heap := ∅; objects := ∅; frame_list := []; client_id_range := 0;
            id := 0; global_list := []; clients := ∅; next_alloc := 0;
            errno := 0; posted := []; trace := [] |}
  end.

(** The compositor's resources: [n] cells at the next free addresses,
    with ids from [i] on. *)
Fixpoint with_resources (d : wl_display) (n : nat) (i : Z) : wl_display :=
  match n with
  | O => d
  | S n' =>
      let r := {| resource_object :=
                    {| object_interface := wl_display_interface;
                       object_implementation := None;
                       object_id := i |};
                  resource_destroy := user_destroy 0 |} in
      with_resources
        (set_next_alloc
           (set_heap d (<[next_alloc d := cell_resource r]> (heap d)))
           (S (next_alloc d)))
        n' (i + 1)
  end.

(** A fresh display with 200 resources of the compositor at the addresses
    2 to 201 and its first client, at address 202. *)
Definition stocked_display : wl_display :=
  with_resources fresh_display 200 1000.

Definition first_client_state : wl_display :=
  match @wl_client_create release_environment stocked_display [] with
  | Done (_, d) => d
  | _ => fresh_display
  end.

Definition first_client : nat := 202%nat.

(** A fresh display with one client, at address 2, and the same with
    given bytes in the in-ring of that client. *)
Definition one_client_state : wl_display :=
  match @wl_client_create release_environment fresh_display [] with
  | Done (_, d) => d
  | _ => fresh_display
  end.

Definition with_input (d : wl_display) (client : nat) (bs : list byte)
  : wl_display :=
  set_clients d
    (alter (fun c => set_connection_in c bs) client (clients d)).


(** The [range] events posted once the first [n] resources were added to
    the first client. *)
Definition range_bases_after (n : nat) : option (list (list argument)) :=
  match add_resources first_client_state first_client (seq 2 n) with
  | Done d => Some (range_bases (posted d))
  | _ => None
  end.

(** * More of the server file *)

Section Compositor.

Context `{Environment}.

(** lines 291-305 *)
Definition wl_client_post_global (d : wl_display)
  (client object : option nat) : result wl_display :=
  _ ← assert (bool_decide (is_Some client) && bool_decide (is_Some object));
  match client, object with
  | Some c, Some a =>
      match heap d !! a ≫= cell_as_object with
      | None => Undefined
      | Some o =>
          wl_client_post_event d c display_object WL_DISPLAY_GLOBAL
            [arg_object (Some a);
             arg_string (interface_name (object_interface o));
             arg_uint (interface_version (object_interface o))]
      end
  | _, _ => Done d
  end.

(** [struct wl_compositor] by the addresses of the four objects embedded
    in it. *)
Record wl_compositor := {
  compositor_object : nat;
  argb_visual : nat;
  premultiplied_argb_visual : nat;
  rgb_visual : nat
}.

(** The two stores [object.interface = ...; object.implementation = ...]
    into the memory of the caller; the id that the memory held stays. *)
Definition write_object (d : wl_display) (a : nat) (interface : wl_interface)
  (impl : option implementation) : wl_display :=
  set_heap d
    (<[a := cell_object
              {| object_interface := interface;
                 object_implementation := impl;
                 object_id := default 0 (cell_object_id <$> heap d !! a) |}]>
       (heap d)).

(** lines 725-763.  The two interfaces are tables of the generated
    protocol code, which is not part of the sources; they are arguments
    here.  [interface] is the number of the compositor's table of
    methods. *)
Definition wl_compositor_init
  (wl_compositor_interface wl_visual_interface : wl_interface)
  (d : wl_display) (compositor : option wl_compositor)
  (interface : option nat) : result (Z * wl_display) :=
  _ ← assert (bool_decide (is_Some compositor)
              && bool_decide (is_Some interface));
  match compositor, interface with
  | Some c, Some n =>
      let d1 := write_object d (compositor_object c) wl_compositor_interface
                  (Some (user_interface n)) in
      d2 ← wl_display_add_object d1 (Some (compositor_object c));
      '(r, d3) ← wl_display_add_global d2 (Some (compositor_object c)) None;
      if negb (r =? 0) then Done (-1, d3)
      else
        let d4 := write_object d3 (argb_visual c) wl_visual_interface None in
        d5 ← wl_display_add_object d4 (Some (argb_visual c));
        '(_, d6) ← wl_display_add_global d5 (Some (argb_visual c)) None;
        let d7 := write_object d6 (premultiplied_argb_visual c)
                    wl_visual_interface None in
        d8 ← wl_display_add_object d7 (Some (premultiplied_argb_visual c));
        '(_, d9) ← wl_display_add_global d8
                     (Some (premultiplied_argb_visual c)) None;
        let d10 := write_object d9 (rgb_visual c) wl_visual_interface None in
        d11 ← wl_display_add_object d10 (Some (rgb_visual c));
        '(_, d12) ← wl_display_add_global d11 (Some (rgb_visual c)) None;
        Done (0, d12)
  | _, _ => Done (-1, d)
  end.

End Compositor.

(** ** Input devices *)

(** The two listeners embedded in an input device, by the address of the
    device. *)
Inductive focus_listener : Type :=
| pointer_focus_listener (device : nat)
| keyboard_focus_listener (device : nat).

#[global] Instance focus_listener_eq_dec : EqDecision focus_listener.
Proof. solve_decision. Defined.

(** What the file reads and writes of [struct wl_surface] and of
    [struct wl_input_device]; a focus is the address of a surface. *)
Record wl_surface := {
  surface_client : nat;
  destroy_listener_list : list focus_listener
}.

Record wl_input_device := {
  device_object : nat;
  device_compositor : option nat;
  device_x : Z;
  device_y : Z;
  pointer_focus : option nat;
  pointer_focus_time : Z;
  keyboard_focus : option nat;
  keyboard_focus_time : Z;
  keys : list byte
}.

(** The display with the input devices and the surfaces of the
    compositor. *)
Record input_state := {
  input_display : wl_display;
  devices : gmap nat wl_input_device;
  surfaces : gmap nat wl_surface
}.

Definition set_input_display (st : input_state) (d : wl_display) :=
  {| input_display := d; devices := devices st; surfaces := surfaces st |}.

(** [wl_list_remove] of a listener, from the list it is linked in. *)
Definition unlink_listener (l : focus_listener) (m : gmap nat wl_surface)
  : gmap nat wl_surface :=
  (fun s => {| surface_client := surface_client s;
               destroy_listener_list :=
                 filter (fun k => k ≠ l) (destroy_listener_list s) |}) <$> m.

(** [wl_list_insert(surface->destroy_listener_list.prev, ...)] *)
Definition link_listener (l : focus_listener) (surface : nat)
  (m : gmap nat wl_surface) : gmap nat wl_surface :=
  alter (fun s => {| surface_client := surface_client s;
                     destroy_listener_list := destroy_listener_list s ++ [l] |})
    surface m.

Section InputDevices.

Context `{Environment}.

(** The numbers of the two events, from the generated header, which is not
    part of the sources. *)
Variables WL_INPUT_DEVICE_POINTER_FOCUS WL_INPUT_DEVICE_KEYBOARD_FOCUS
  : event_opcode.

(** lines 367-384; the two focus fields are not written. *)
Definition wl_input_device_init (st : input_state) (device : option nat)
  (compositor : option nat) : result input_state :=
  _ ← assert (bool_decide (is_Some device)
              && bool_decide (is_Some compositor));
  match device, compositor with
  | Some a, Some _ =>
      match devices st !! a with
      | None => Undefined
      | Some dv =>
          Done {| input_display := input_display st;
                  devices :=
                    <[a := {| device_object := device_object dv;
                              device_compositor := compositor;
                              device_x := 100;
                              device_y := 100;
                              pointer_focus := pointer_focus dv;
                              pointer_focus_time := pointer_focus_time dv;
                              keyboard_focus := keyboard_focus dv;
                              keyboard_focus_time := keyboard_focus_time dv;
                              keys := keys dv |}]> (devices st);
                  surfaces := surfaces st |}
      end
  | _, _ => Done st
  end.

(** The part that the two focus functions share: the event for the client
    that loses the focus, unless the new surface is of the same client,
    then the event for the client that gets it. *)
Definition post_focus_events (st : input_state) (sender : nat)
  (opcode : event_opcode) (old new : option nat)
  (leave enter : list argument) : result wl_display :=
  d1 ← match old with
       | None => Done (input_display st)
       | Some o =>
           match surfaces st !! o with
           | None => Undefined
           | Some os =>
               match new with
               | None =>
                   wl_client_post_event (input_display st)
                     (surface_client os) sender opcode leave
               | Some s =>
                   match surfaces st !! s with
                   | None => Undefined
                   | Some ns =>
                       if decide (surface_client os ≠ surface_client ns)
                       then wl_client_post_event (input_display st)
                              (surface_client os) sender opcode leave
                       else Done (input_display st)
                   end
               end
           end
       end;
  match new with
  | None => Done d1
  | Some s =>
      match surfaces st !! s with
      | None => Undefined
      | Some ns =>
          wl_client_post_event d1 (surface_client ns) sender opcode enter
      end
  end.

Definition relink (l : focus_listener) (surface : option nat)
  (m : gmap nat wl_surface) : gmap nat wl_surface :=
  match surface with
  | None => unlink_listener l m
  | Some s => link_listener l s (unlink_listener l m)
  end.

(** lines 386-420 *)
Definition wl_input_device_set_pointer_focus (st : input_state)
  (device : option nat) (surface : option nat) (time x y sx sy : Z)
  : result input_state :=
  _ ← assert (bool_decide (is_Some device));
  match device with
  | None => Done st
  | Some a =>
      match devices st !! a with
      | None => Undefined
      | Some dv =>
          if decide (pointer_focus dv = surface) then Done st
          else
            d1 ← post_focus_events st (device_object dv)
                   WL_INPUT_DEVICE_POINTER_FOCUS (pointer_focus dv) surface
                   [arg_uint time; arg_object None; arg_int 0; arg_int 0;
                    arg_int 0; arg_int 0]
                   [arg_uint time; arg_object surface; arg_int x; arg_int y;
                    arg_int sx; arg_int sy];
            Done {| input_display := d1;
                    devices :=
                      <[a := {| device_object := device_object dv;
                                device_compositor := device_compositor dv;
                                device_x := device_x dv;
                                device_y := device_y dv;
                                pointer_focus := surface;
                                pointer_focus_time := time;
                                keyboard_focus := keyboard_focus dv;
                                keyboard_focus_time := keyboard_focus_time dv;
                                keys := keys dv |}]> (devices st);
                    surfaces := relink (pointer_focus_listener a) surface
                                  (surfaces st) |}
      end
  end.

(** lines 422-455 *)
Definition wl_input_device_set_keyboard_focus (st : input_state)
  (device : option nat) (surface : option nat) (time : Z)
  : result input_state :=
  _ ← assert (bool_decide (is_Some device));
  match device with
  | None => Done st
  | Some a =>
      match devices st !! a with
      | None => Undefined
      | Some dv =>
          if decide (keyboard_focus dv = surface) then Done st
          else
            d1 ← post_focus_events st (device_object dv)
                   WL_INPUT_DEVICE_KEYBOARD_FOCUS (keyboard_focus dv) surface
                   [arg_uint time; arg_object None; arg_array (keys dv)]
                   [arg_uint time; arg_object surface; arg_array (keys dv)];
            Done {| input_display := d1;
                    devices :=
                      <[a := {| device_object := device_object dv;
                                device_compositor := device_compositor dv;
                                device_x := device_x dv;
                                device_y := device_y dv;
                                pointer_focus := pointer_focus dv;
                                pointer_focus_time := pointer_focus_time dv;
                                keyboard_focus := surface;
                                keyboard_focus_time := time;
                                keys := keys dv |}]> (devices st);
                    surfaces := relink (keyboard_focus_listener a) surface
                                  (surfaces st) |}
      end
  end.

(** lines 345-354 and 356-365; [container_of] gives back the device that
    the listener is embedded in. *)
Definition lose_pointer_focus (st : input_state) (listener : focus_listener)
  (surface : nat) (time : Z) : result input_state :=
  match listener with
  | pointer_focus_listener a =>
      wl_input_device_set_pointer_focus st (Some a) None time 0 0 0 0
  | keyboard_focus_listener _ => Undefined
  end.

Definition lose_keyboard_focus (st : input_state) (listener : focus_listener)
  (surface : nat) (time : Z) : result input_state :=
  match listener with
  | keyboard_focus_listener a =>
      wl_input_device_set_keyboard_focus st (Some a) None time
  | pointer_focus_listener _ => Undefined
  end.

End InputDevices.

(** ** Listening sockets *)

(** What the kernel answers to [wl_display_add_socket]: the descriptor that
    [socket] returns, and whether [bind] and [listen] fail. *)
Record kernel := {
  socket_returns : Z;
  bind_fails : bool;
  listen_fails : bool
}.

Inductive syscall : Type :=
| sys_socket
| sys_bind (fd : Z) (path : string) (size : Z)
| sys_listen (fd : Z) (backlog : Z)
| sys_close (fd : Z).

(** [struct wl_socket] *)
Record wl_socket := {
  socket_fd : Z;
  socket_path : string
}.

(** What a call leaves behind: its value, the system calls it made, what it
    printed, the socket it linked into [socket_list] and the descriptor it
    handed to the event loop. *)
Record outcome := {
  returned : Z;
  syscalls : list syscall;
  printed : list string;
  socket_list_added : option wl_socket;
  loop_fd_added : option Z
}.

Definition sun_path_size : nat := 108.

(** [snprintf(buf, size, ...)] stores at most [size - 1] characters. *)
Definition snprintf_stored (size : nat) (s : string) : string :=
  String.substring 0 (Nat.min (size - 1) (String.length s)) s.

Section Sockets.

Context `{Environment}.

(** lines 671-723.  The test after [malloc] compares the function
    [socket], which is never null, so a failed [malloc] goes on to the
    store through the null pointer. *)
Definition wl_display_add_socket (d : wl_display) (env : Client.environ)
  (k : kernel) (name : option string) : result (outcome * wl_display) :=
  match malloc d with
  | (None, _) => Undefined
  | (Some _, d1) =>
      if socket_returns k <? 0 then
        Done ({| returned := -1; syscalls := [sys_socket]; printed := [];
                 socket_list_added := None; loop_fd_added := None |}, d1)
      else
        let runtime_dir := default "." (Client.XDG_RUNTIME_DIR env) in
        let fallback :=
          match Client.XDG_RUNTIME_DIR env with
          | None => ["XDG_RUNTIME_DIR not set, falling back to %s"]
          | Some _ => []
          end in
        let name := match name with
                    | Some n => Some n
                    | None => Client.WAYLAND_DISPLAY env
                    end in
        let name := match name with
                    | Some n => n
                    | None => "wayland-0"
                    end in
        let full := (runtime_dir ++ "/" ++ name)%string in
        let path := snprintf_stored sun_path_size full in
        let name_size := Z.of_nat (String.length full) + 1 in
        let out := fallback ++ ["using socket %s"] in
        let bind := sys_bind (socket_returns k) path (2 + name_size) in
        if bind_fails k then
          Done ({| returned := -1; syscalls := [sys_socket; bind];
                   printed := out;
                   socket_list_added := None; loop_fd_added := None |}, d1)
        else if listen_fails k then
          Done ({| returned := -1;
                   syscalls := [sys_socket; bind;
                                sys_listen (socket_returns k) 1];
                   printed := out;
                   socket_list_added := None; loop_fd_added := None |}, d1)
        else
          Done ({| returned := 0;
                   syscalls := [sys_socket; bind;
                                sys_listen (socket_returns k) 1];
                   printed := out;
                   socket_list_added :=
                     Some {| socket_fd := socket_returns k;
                             socket_path := path |};
                   loop_fd_added := Some (socket_returns k) |}, d1)
  end.

End Sockets.

(** ** More notions to state facts with *)

(** The [global] event that announces the object at an address. *)
Definition global_event (d : wl_display) (sender : Z) (a : nat)
  : option wl_event :=
  (fun o => {| event_sender := sender;
               event_opcode_of := WL_DISPLAY_GLOBAL;
               event_args :=
                 [arg_object (Some a);
                  arg_string (interface_name (object_interface o));
                  arg_uint (interface_version (object_interface o))] |})
    <$> (heap d !! a ≫= cell_as_object).

(** The globals are as [wl_display_add_global] leaves them: none has a
    connect function, and each is an object in the heap. *)
Definition globals_wf (d : wl_display) : Prop :=
  Forall (fun g => global_func g = None /\
                   is_Some (heap d !! global_object g ≫= cell_as_object))
    (global_list d).

(** The calls of connect functions in a trace. *)
Definition connect_calls (t : list trace_event) : list (nat * nat * nat) :=
  omap (fun e => match e with
                 | t_connect f c o => Some (f, c, o)
                 | _ => None
                 end) t.

(** The destroy functions of the compositor leave the display alone. *)
Definition quiet_destroy `{Environment} : Prop :=
  forall n r c d, user_destroy_func n r c d = d.

(** A cell that can be in the resource list of a client: a frame listener,
    or a resource of the compositor with a destroy function of its own. *)
Definition plain_resource (c : cell) : Prop :=
  match c with
  | cell_frame_listener _ => True
  | cell_resource r => resource_destroy r ≠ destroy_frame_listener
  | cell_object _ => False
  end.

#[global] Instance destroy_func_eq_dec : EqDecision destroy_func.
Proof. solve_decision. Defined.

#[global] Instance plain_resource_dec c : Decision (plain_resource c).
Proof. destruct c; cbn; apply _. Defined.

(** The resources of a client are in the heap, each once. *)
Definition resources_wf (d : wl_display) (c : wl_client) : Prop :=
  NoDup (resource_list c) /\
  Forall (fun a => from_option plain_resource False (heap d !! a))
    (resource_list c).

(** A frame listener is a resource of the client that asked for it and of
    no other, as [display_frame] links it. *)
Definition listener_owned (d : wl_display) (a : nat) (li : wl_frame_listener)
  : Prop :=
  (a ∈ frame_list d ->
   from_option (fun cl => a ∈ resource_list cl) False
     (clients d !! listener_client li)) /\
  map_Forall (fun c cl => a ∈ resource_list cl -> c = listener_client li)
    (clients d).

Definition listeners_owned (d : wl_display) : Prop :=
  map_Forall (fun a c => match c with
                         | cell_frame_listener li => listener_owned d a li
                         | _ => True
                         end) (heap d).

(** A display with two clients, at the addresses 2 and 3, after the
    requests [frame(10)] of the first, [frame(20)] of the second and
    [frame(11)] of the first; the socket of the first client then fails. *)
Definition two_clients_state : wl_display :=
  match (d1 ← @wl_client_create release_environment fresh_display
                [ {| io_sent := true; io_received := None |} ];
         d2 ← @wl_client_create release_environment d1.2 [];
         @frame_requests release_environment d2.2
           [(2%nat, 10); (3%nat, 20); (2%nat, 11)]) with
  | Done d => d
  | _ => fresh_display
  end.

#[global] Instance from_option_dec {A} (P : A -> Prop)
  `{forall x, Decision (P x)} (Q : Prop) `{Decision Q} (o : option A)
  : Decision (from_option P Q o).
Proof. destruct o; cbn; apply _. Defined.

#[global] Instance listener_owned_dec d a li : Decision (listener_owned d a li).
Proof. unfold listener_owned. apply _. Defined.

#[global] Instance listeners_owned_dec d : Decision (listeners_owned d).
Proof.
  unfold listeners_owned. apply map_Forall_dec. intros a []; apply _.
Defined.

(** ** More to run the model on *)

(** An environment whose decoder reads the key 42 out of every frame. *)
Definition decoding_environment : Environment :=
  {| ndebug := true;
     malloc_fails := fun _ => false;
     loop_create_ok := true;
     hash_table_create_ok := true;
     demarshal := fun _ _ _ => inr [arg_uint 42];
     user_method := fun _ _ _ _ d => d;
     user_destroy_func := fun _ _ _ d => d;
     connect_func := fun _ _ _ d => d |}.

(** An interface without requests and events, for objects whose tables are
    not part of the sources. *)
Definition bare_interface (name : string) : wl_interface :=
  {| interface_name := name; interface_version := 1;
     method_count := 0; methods := []; event_count := 0; events := [] |}.

(** The fresh display with its object registered as a global a second
    time. *)
Definition with_second_global : wl_display :=
  match @wl_display_add_global release_environment fresh_display
          (Some display_object) None with
  | Done (_, d) => d
  | _ => fresh_display
  end.

(** A display whose client has a given script for its socket. *)
Definition with_script (d : wl_display) (client : nat)
  (script : list io_event) : wl_display :=
  set_clients d
    (alter (fun c => set_client_socket c script) client (clients d)).

Definition sync_frame : frame :=
  {| frame_object := 1; frame_opcode := 0; frame_body := bytes_of_u32 42 |}.

(** The display with two clients, an input device at the address 21 whose
    object is at the address 20, and a surface of each client, at the
    addresses 30 and 31; the pointer is on the first surface. *)
Definition input_example : input_state :=
  {| input_display :=
       write_object two_clients_state 20 (bare_interface "wl_input_device")
         None;
     devices :=
       {[ 21%nat := {| device_object := 20;
                       device_compositor := None;
                       device_x := 100;
                       device_y := 100;
                       pointer_focus := Some 30%nat;
                       pointer_focus_time := 0;
                       keyboard_focus := None;
                       keyboard_focus_time := 0;
                       keys := [] |} ]};
     surfaces :=
       {[ 30%nat := {| surface_client := 2;
                       destroy_listener_list :=
                         [pointer_focus_listener 21] |};
          31%nat := {| surface_client := 3;
                       destroy_listener_list := [] |} ]} |}.

(** An environment without [XDG_RUNTIME_DIR] and a kernel that grants
    what the server asks. *)
Definition bare_environ : Client.environ :=
  {| Client.XDG_RUNTIME_DIR := None; Client.WAYLAND_DISPLAY := None |}.

Definition willing_kernel : kernel :=
  {| socket_returns := 4; bind_fails := false; listen_fails := false |}.

End Server.

(** * Facts about the wire format *)

Lemma byte_of_Z_value z : Z.of_N (Byte.to_N (byte_of_Z z)) = z mod 256.
Proof.
  unfold byte_of_Z.
  destruct (Byte.of_N (Z.to_N (z mod 256))) as [b|] eqn:E.
  - apply Byte.to_of_N in E. rewrite E. rewrite Z2N.id; [done|].
    apply Z.mod_pos_bound. lia.
  - apply Byte.of_N_None_iff in E.
    pose proof (Z.mod_pos_bound z 256 ltac:(lia)). lia.
Qed.

Lemma u32_of_bytes_of_u32 w rest :
  0 <= w < 4294967296 -> u32_of_bytes (bytes_of_u32 w ++ rest) = w.
Proof.
  intros Hw. unfold u32_of_bytes, bytes_of_u32. cbn [app u32_of_bytes_aux].
  rewrite !byte_of_Z_value.
  destruct rest; Z.div_mod_to_equations; lia.
Qed.

Lemma header_word_opcode size opcode :
  0 <= size -> 0 <= opcode < 65536 ->
  Z.land (Z.lor (Z.shiftl size 16) opcode) 0xffff = opcode.
Proof.
  intros Hs Ho. change 0xffff with (Z.ones 16).
  rewrite Z.land_lor_distr_l, !Z.land_ones by lia.
  rewrite Z.shiftl_mul_pow2 by lia.
  rewrite Z.mod_mul by lia. rewrite Z.lor_0_l.
  apply Z.mod_small. lia.
Qed.

Lemma header_word_size size opcode :
  0 <= size -> 0 <= opcode < 65536 ->
  Z.shiftr (Z.lor (Z.shiftl size 16) opcode) 16 = size.
Proof.
  intros Hs Ho.
  rewrite Z.shiftr_lor, Z.shiftr_shiftl_l by lia.
  rewrite Z.sub_diag, Z.shiftl_0_r.
  rewrite (Z.shiftr_div_pow2 opcode) by lia.
  rewrite Z.div_small by lia. apply Z.lor_0_r.
Qed.

Lemma header_word_value size opcode :
  0 <= size -> 0 <= opcode < 65536 ->
  Z.lor (Z.shiftl size 16) opcode = size * 65536 + opcode.
Proof.
  intros Hs Ho.
  pose proof (header_word_size size opcode Hs Ho) as H1.
  pose proof (header_word_opcode size opcode Hs Ho) as H2.
  change 0xffff with (Z.ones 16) in H2.
  rewrite Z.land_ones in H2 by lia.
  rewrite Z.shiftr_div_pow2 in H1 by lia.
  change (2 ^ 16) with 65536 in *.
  set (w := Z.lor (Z.shiftl size 16) opcode) in *.
  Z.div_mod_to_equations. lia.
Qed.

Lemma frame_size_pos f : 8 <= frame_size f.
Proof. unfold frame_size. lia. Qed.

Lemma length_encode_frame f :
  Z.of_nat (length (encode_frame f)) = frame_size f.
Proof.
  unfold encode_frame, frame_header, bytes_of_u32, frame_size.
  rewrite !length_app. cbn [length]. lia.
Qed.

(** The three fields that the receiving loops read from the first eight
    bytes of the ring. *)
Lemma peek_frame_header id opcode size rest :
  0 <= id < 4294967296 -> 0 <= opcode < 65536 -> 0 <= size < 65536 ->
  let p := take 8 (frame_header id opcode size ++ rest) in
  u32_of_bytes (take 4 p) = id /\
  Z.land (u32_of_bytes (drop 4 p)) 0xffff = opcode /\
  Z.shiftr (u32_of_bytes (drop 4 p)) 16 = size.
Proof.
  intros Hid Hop Hsz.
  rewrite (take_app_length' (frame_header _ _ _)) by reflexivity.
  unfold frame_header.
  rewrite (take_app_length' (bytes_of_u32 _)) by reflexivity.
  rewrite (drop_app_length' (bytes_of_u32 _)) by reflexivity.
  rewrite <- (app_nil_r (bytes_of_u32 id)).
  rewrite <- (app_nil_r (bytes_of_u32 (Z.lor _ _))).
  rewrite header_word_value by lia.
  rewrite !u32_of_bytes_of_u32 by lia.
  rewrite <- header_word_value by lia.
  split; [done|]. split.
  - apply header_word_opcode; lia.
  - apply header_word_size; lia.
Qed.

Lemma peek_header f rest :
  frame_ok f ->
  let p := take 8 (encode_frame f ++ rest) in
  u32_of_bytes (take 4 p) = frame_object f /\
  Z.land (u32_of_bytes (drop 4 p)) 0xffff = frame_opcode f /\
  Z.shiftr (u32_of_bytes (drop 4 p)) 16 = frame_size f.
Proof.
  intros (Hid & Hop & Hsz). pose proof (frame_size_pos f) as Hpos.
  unfold encode_frame. rewrite <- app_assoc.
  apply peek_frame_header; lia.
Qed.

Lemma encode_frames_cons f fs :
  encode_frames (f :: fs) = encode_frame f ++ encode_frames fs.
Proof. reflexivity. Qed.

Lemma drop_encode_frame f rest :
  drop (Z.to_nat (frame_size f)) (encode_frame f ++ rest) = rest.
Proof.
  rewrite <- length_encode_frame, Nat2Z.id. apply drop_app_length.
Qed.

(** * Facts about the client *)

Module ClientFacts.

Import Client.

Section Facts.

Context `{Environment}.

(** ** The fatal flag *)

Lemma display_handle_error_fatal d object code message d1 :
  display_handle_error d object code message = Done d1 ->
  fatal_error d1 = true /\ trace d1 = trace d /\ objects d1 = objects d.
Proof.
  unfold display_handle_error.
  destruct (object ≫= _); [|discriminate].
  intros [= <-]. done.
Qed.

Lemma wl_display_iterate_fatal fuel d m :
  fatal_error d = true ->
  wl_display_iterate fuel d m =
  Done (-1, set_errno
              (wl_log d "Fatal error on wl_display %p: Call wl_display_destroy() and create a replacement display")
              EPROTO).
Proof. intros Hf. unfold wl_display_iterate. by rewrite Hf. Qed.

Lemma iterate_calls_fatal fuel masks : forall d,
  fatal_error d = true ->
  exists d2,
    iterate_calls fuel d masks
    = Done (replicate (length masks) (-1, EPROTO), d2) /\
    fatal_error d2 = true /\ trace d2 = trace d /\
    connection d2 = connection d /\ socket d2 = socket d /\
    objects d2 = objects d /\ proxy_heap d2 = proxy_heap d.
Proof.
  induction masks as [|m ms IH]; intros d Hf.
  - exists d. done.
  - cbn [iterate_calls]. rewrite wl_display_iterate_fatal by done.
    cbn [mbind result_bind].
    set (d1 := set_errno _ _).
    destruct (IH d1) as (d2 & -> & ? & ? & ? & ? & ? & ?); [done|].
    exists d2. done.
Qed.

(** No function that an application can call clears the flag, and while it
    is set none of them decodes or dispatches. *)
Lemma stays_fatal_trans d1 d2 d3 :
  stays_fatal d1 d2 -> stays_fatal d2 d3 -> stays_fatal d1 d3.
Proof. intros [? ?] [? ?]. split; [done|congruence]. Qed.

Lemma connection_update_stays d m :
  fatal_error d = true -> stays_fatal d (connection_update d m).
Proof.
  intros Hf. unfold connection_update, stays_fatal, dispatches.
  cbn [update set_mask]. destruct (update d); cbn; [|done].
  rewrite List.filter_app. cbn. by rewrite app_nil_r.
Qed.

Lemma wl_proxy_create_stays d interface :
  fatal_error d = true -> stays_fatal d (wl_proxy_create d interface).2.
Proof.
  intros Hf. unfold wl_proxy_create, malloc.
  by destruct (malloc_fails (next_alloc d)).
Qed.

Lemma wl_proxy_destroy_stays d p r d' :
  fatal_error d = true -> wl_proxy_destroy d p = Done (r, d') ->
  stays_fatal d d'.
Proof.
  intros Hf. unfold wl_proxy_destroy.
  destruct (proxy_heap d !! p); [|discriminate].
  destruct (if _ <? _ then _ else _) as [ret objs].
  destruct (ret =? 0); intros [= <- <-]; done.
Qed.

Lemma wl_proxy_add_listener_stays d p l data r d' :
  fatal_error d = true -> wl_proxy_add_listener d p l data = Done (r, d') ->
  stays_fatal d d'.
Proof.
  intros Hf. unfold wl_proxy_add_listener.
  destruct (proxy_heap d !! p) as [proxy|]; [|discriminate].
  destruct (object_implementation proxy); intros [= <- <-]; done.
Qed.

Lemma wl_connection_write_stays d bs :
  fatal_error d = true -> stays_fatal d (wl_connection_write d bs).2.
Proof.
  intros Hf. unfold wl_connection_write.
  destruct (_ <? _)%nat; [done|].
  destruct (conn_out (connection d)); [|done].
  destruct bs; [done|]. cbn [snd].
  eapply stays_fatal_trans; [|by apply connection_update_stays]. done.
Qed.

Lemma wl_proxy_marshal_stays d p opcode args r d' :
  fatal_error d = true -> wl_proxy_marshal d p opcode args = Done (r, d') ->
  stays_fatal d d'.
Proof.
  intros Hf. unfold wl_proxy_marshal.
  destruct (proxy_heap d !! p) as [proxy|]; [|discriminate].
  destruct (methods _ !! _) as [message|]; [|discriminate].
  destruct (vmarshal _ _ _ _) as [bs|]; [|intros [= <- <-]; done].
  pose proof (wl_connection_write_stays d bs Hf) as Hw.
  destruct (wl_connection_write d bs) as [ret d1].
  destruct (ret =? 0); intros [= <- <-]; [done|].
  destruct Hw. done.
Qed.

Lemma wl_display_sync_stays d r d' :
  fatal_error d = true -> wl_display_sync d = Done (r, d') ->
  stays_fatal d d'.
Proof.
  intros Hf. unfold wl_display_sync.
  pose proof (wl_proxy_create_stays d wl_callback_interface Hf) as Hc.
  destruct (wl_proxy_create d wl_callback_interface) as [[p|] d1];
    [|intros [= <- <-]; done].
  destruct (wl_proxy_marshal d1 _ _ _) as [[ret d2]| | |] eqn:Hm;
    try discriminate.
  intros [= <- <-]. eapply stays_fatal_trans; [exact Hc|].
  eapply wl_proxy_marshal_stays; [|exact Hm]. by destruct Hc.
Qed.

Lemma wl_display_iterate_stays fuel d m :
  fatal_error d = true ->
  exists d', wl_display_iterate fuel d m = Done (-1, d') /\
             errno d' = EPROTO /\ stays_fatal d d'.
Proof.
  intros Hf. rewrite wl_display_iterate_fatal by done. eexists. done.
Qed.

Lemma wl_display_flush_stays fuel d r d' :
  fatal_error d = true -> wl_display_flush fuel d = Done (r, d') ->
  r = -1 /\ stays_fatal d d'.
Proof.
  intros Hf. unfold wl_display_flush. generalize fuel at 1. intros n.
  destruct n as [|n]; cbn [wl_display_flush_loop];
    destruct (Z.land (mask d) WL_DISPLAY_WRITABLE =? 0); try discriminate.
  rewrite wl_display_iterate_fatal by done. cbn [mbind result_bind Z.eqb].
  intros [= <- <-]. done.
Qed.

Lemma wl_display_roundtrip_stays fuel d r d' :
  fatal_error d = true -> wl_display_roundtrip fuel d = Done (r, d') ->
  stays_fatal d d'.
Proof.
  intros Hf. unfold wl_display_roundtrip.
  set (d0 := set_user_mem _ _).
  assert (H0 : stays_fatal d d0) by done.
  destruct (wl_display_sync d0) as [[cb d1]| | |] eqn:Hs; try discriminate.
  pose proof (wl_display_sync_stays d0 cb d1 (proj1 H0) Hs) as H1.
  cbn [mbind result_bind]. destruct cb as [cb|];
    [|intros [= <- <-]; destruct H1; done].
  set (d2 := set_user_mem d1 _).
  destruct (wl_proxy_add_listener d2 cb sync_listener _)
    as [[ret d3]| | |] eqn:Ha; try discriminate.
  assert (H3 : stays_fatal d d3).
  { eapply stays_fatal_trans; [exact H1|].
    eapply (wl_proxy_add_listener_stays d2); [|exact Ha]. by destruct H1. }
  cbn [mbind result_bind].
  destruct (negb (ret =? 0)); [intros [= <- <-]; destruct H3; done|].
  destruct (wl_display_flush fuel d3) as [[ret' d4]| | |] eqn:Hfl;
    try discriminate.
  destruct (wl_display_flush_stays fuel d3 ret' d4 (proj1 H3) Hfl)
    as [-> H4].
  cbn [mbind result_bind negb Z.eqb]. intros [= <- <-].
  destruct H3, H4. split; [done|]. unfold dispatches in *. cbn. congruence.
Qed.

Lemma run_call_stays fuel d c r d' :
  fatal_error d = true -> run_call fuel d c = Done (r, d') ->
  stays_fatal d d' /\
  (forall m, c = call_iterate m -> r = -1 /\ errno d' = EPROTO).
Proof.
  intros Hf Hrun. destruct c; cbn [run_call] in Hrun;
    (split; [|try discriminate]).
  - destruct (wl_display_iterate_stays fuel d m Hf) as (d1 & H1 & _ & ?).
    rewrite H1 in Hrun. by injection Hrun as <- <-.
  - intros ? _.
    destruct (wl_display_iterate_stays fuel d m Hf) as (d1 & H1 & ? & _).
    rewrite H1 in Hrun. by injection Hrun as <- <-.
  - by apply (wl_display_flush_stays fuel d r d').
  - by apply (wl_display_roundtrip_stays fuel d r d').
  - destruct (wl_display_sync d) as [[cb d1]| | |] eqn:Hs; try discriminate.
    injection Hrun as <- <-. by apply (wl_display_sync_stays d cb).
  - injection Hrun as <- <-. by apply wl_proxy_create_stays.
  - by apply (wl_proxy_destroy_stays d p r).
  - by apply (wl_proxy_add_listener_stays d p l data r).
  - by apply (wl_proxy_marshal_stays d p opcode args r).
Qed.

(** Whatever the application calls once the display is fatal, each call of
    [wl_display_iterate] among the calls returned -1 and left [EPROTO], the
    display is still fatal, and nothing was decoded or dispatched. *)
Lemma run_calls_fatal fuel cs : forall d rs d',
  fatal_error d = true ->
  run_calls fuel d cs = Done (rs, d') ->
  Forall (fun r => r = (-1, EPROTO)) rs /\ stays_fatal d d'.
Proof.
  induction cs as [|c cs IH]; intros d rs d' Hf Hrun.
  - injection Hrun as <- <-. done.
  - cbn [run_calls] in Hrun.
    destruct (run_call fuel d c) as [[r d1]| | |] eqn:Hc; try discriminate.
    destruct (run_call_stays fuel d c r d1 Hf Hc) as [H1 Hit].
    cbn [mbind result_bind] in Hrun.
    destruct (run_calls fuel d1 cs) as [[rs1 d2]| | |] eqn:Hcs;
      try discriminate.
    destruct (IH d1 rs1 d2 (proj1 H1) Hcs) as [Hrs H2].
    cbn [mbind result_bind] in Hrun.
    assert (Hst : stays_fatal d d2) by (by eapply stays_fatal_trans).
    destruct c; injection Hrun as <- <-; try done.
    split; [|done]. constructor; [|done].
    destruct (Hit m eq_refl) as [-> ->]. done.
Qed.

(** C1.  Once [display_handle_error] has run, every later call of
    [wl_display_iterate], whatever its mask, returns -1 with [errno] set to
    [EPROTO]; nothing is decoded or dispatched, the rings, the socket and
    the object map stay as they were, and the display stays fatal.  The
    same holds for the calls of [wl_display_iterate] among any other calls
    that the application makes. *)
Theorem iterate_after_error d object code message d1 fuel masks :
  display_handle_error d object code message = Done d1 ->
  (exists d2,
     iterate_calls fuel d1 masks
     = Done (replicate (length masks) (-1, EPROTO), d2) /\
     fatal_error d2 = true /\ trace d2 = trace d1 /\
     connection d2 = connection d1 /\ socket d2 = socket d1 /\
     objects d2 = objects d1 /\ proxy_heap d2 = proxy_heap d1) /\
  (forall cs rs d3,
     run_calls fuel d1 cs = Done (rs, d3) ->
     Forall (fun r => r = (-1, EPROTO)) rs /\
     fatal_error d3 = true /\ dispatches d3 = dispatches d1).
Proof.
  intros Herr. apply display_handle_error_fatal in Herr as (Hf & _).
  split; [by apply iterate_calls_fatal|].
  intros cs rs d3 Hrun. by apply (run_calls_fatal fuel cs d1 rs d3).
Qed.

(** An [error] frame for the display reaches [display_handle_error] through
    [handle_event]. *)
Lemma create_proxies_plain d o code message :
  create_proxies d [arg_object o; arg_uint code; arg_string message]
  = (Some [arg_object o; arg_uint code; arg_string message], d).
Proof. reflexivity. Qed.

Lemma handle_event_error d id p proxy size q code message :
  wl_map_lookup (objects d) id = entry_proxy p ->
  proxy_heap d !! p = Some proxy ->
  object_implementation proxy = Some display_listener ->
  object_interface proxy = wl_display_interface ->
  demarshal {| message_name := "error"; message_signature := "ous" |}
    (take (Z.to_nat size) (conn_in (connection d))) (objects d)
  = inr [arg_object (Some q); arg_uint code; arg_string message] ->
  is_Some (proxy_heap d !! q) ->
  exists d1, handle_event d id 0 size = Done (0, d1) /\ fatal_error d1 = true.
Proof.
  intros Hl Hp Himpl Hitf Hdem [qq Hq].
  unfold handle_event. rewrite Hl, Hp, Himpl, Hitf.
  change (events wl_display_interface !! Z.to_nat 0)
    with (Some {| message_name := "error"; message_signature := "ous" |}).
  unfold wl_connection_demarshal. rewrite Hdem.
  cbn [closure_args]. rewrite create_proxies_plain.
  unfold wl_closure_invoke, display_handle_error.
  cbn [mbind option_bind proxy_heap record set_trace wl_connection_consume
       set_connection].
  rewrite Hq. cbn. eexists. split; [reflexivity|]. reflexivity.
Qed.

(** ** Unsolicited flags *)

(** C10.  A call whose mask shares no bit with the mask of the display,
    with no fatal error pending, returns -1 with [errno] set to [EINVAL];
    the socket script is not advanced and both rings, the object map and
    the trace are as before. *)
Theorem wl_display_iterate_unsolicited fuel d m :
  fatal_error d = false ->
  Z.land m (mask d) = 0 ->
  exists d',
    wl_display_iterate fuel d m = Done (-1, d') /\
    errno d' = EINVAL /\ socket d' = socket d /\
    connection d' = connection d /\ objects d' = objects d /\
    trace d' = trace d /\
    log d' = log d ++ ["wl_display_iterate called with unsolicited flags"].
Proof.
  intros Hf Hm. unfold wl_display_iterate. rewrite Hf, Hm.
  cbn [Z.eqb]. eexists. split; [reflexivity|]. done.
Qed.

(** ** [delete_id] *)

Lemma invoke_delete_id d target id name data :
  wl_closure_invoke d [arg_uint name] target id display_listener 3 data
  = Done (display_handle_delete_id
            (record d (t_invoke id 3 display_listener [arg_uint name])) name).
Proof. reflexivity. Qed.

(** C5.  [display_handle_delete_id] removes the slot when it holds the
    zombie and then logs nothing; when the slot holds a proxy it logs
    "server sent delete_id for live object" and leaves the map alone; the
    map changes exactly when the slot held the zombie. *)
Theorem display_handle_delete_id_spec d id :
  (wl_map_lookup (objects d) id = entry_zombie ->
   objects (display_handle_delete_id d id) = delete id (objects d) /\
   objects (display_handle_delete_id d id) !! id = None /\
   log (display_handle_delete_id d id) = log d) /\
  (forall p, wl_map_lookup (objects d) id = entry_proxy p ->
   objects (display_handle_delete_id d id) = objects d /\
   log (display_handle_delete_id d id)
   = log d ++ ["server sent delete_id for live object"]) /\
  (objects (display_handle_delete_id d id) <> objects d <->
   wl_map_lookup (objects d) id = entry_zombie).
Proof.
  unfold display_handle_delete_id.
  destruct (decide (wl_map_lookup (objects d) id = entry_zombie)) as [Hz|Hz].
  - cbn [objects set_objects log]. unfold wl_map_remove.
    split; [intros _; split; [done|split; [apply lookup_delete_eq|done]]|].
    split; [intros p Hp; congruence|].
    split; [done|]. intros _ Heq.
    unfold wl_map_lookup in Hz.
    destruct (objects d !! id) as [e|] eqn:E; [|discriminate].
    assert (delete id (objects d) !! id = Some e) by (by rewrite Heq).
    by rewrite lookup_delete_eq in *.
  - cbn [objects wl_log set_log log].
    split; [done|]. split; [done|].
    split; [done|]. intros Hz'. done.
Qed.

(** ** [wl_proxy_destroy] *)

(** C4.  When the map accepts the write, [wl_proxy_destroy] returns 0 and
    the slot of the proxy holds the zombie if the id is below
    [WL_SERVER_ID_START] and null otherwise; every other slot is as
    before, and the proxy is freed. *)
Theorem wl_proxy_destroy_slot d p proxy :
  proxy_heap d !! p = Some proxy ->
  insert_at_ok (objects d) (object_id proxy) (dead_entry (object_id proxy))
  = true ->
  exists d',
    wl_proxy_destroy d p = Done (0, d') /\
    objects d' !! object_id proxy = Some (dead_entry (object_id proxy)) /\
    wl_map_lookup (objects d') (object_id proxy)
    = dead_entry (object_id proxy) /\
    (forall j, j <> object_id proxy -> objects d' !! j = objects d !! j) /\
    proxy_heap d' = delete p (proxy_heap d) /\
    trace d' = trace d /\ connection d' = connection d.
Proof.
  intros Hp Hok. unfold wl_proxy_destroy. rewrite Hp.
  unfold dead_entry in *. unfold wl_map_insert_at.
  destruct (object_id proxy <? WL_SERVER_ID_START); rewrite Hok;
    cbn [Z.eqb]; eexists; (split; [reflexivity|]);
    cbn [objects free set_proxy_heap set_objects proxy_heap trace connection];
    unfold wl_map_lookup; rewrite lookup_insert_eq;
    (repeat split; try done); intros j Hj; by rewrite lookup_insert_ne.
Qed.

(** When the map refuses the write, the call reports it and changes neither
    the map nor the heap. *)
Lemma wl_proxy_destroy_refused d p proxy :
  proxy_heap d !! p = Some proxy ->
  insert_at_ok (objects d) (object_id proxy) (dead_entry (object_id proxy))
  = false ->
  exists d',
    wl_proxy_destroy d p = Done (-1, d') /\
    objects d' = objects d /\ proxy_heap d' = proxy_heap d /\
    log d' = log d ++ ["Could not destroy proxy %u"].
Proof.
  intros Hp Hok. unfold wl_proxy_destroy. rewrite Hp.
  unfold dead_entry in *. unfold wl_map_insert_at.
  destruct (object_id proxy <? WL_SERVER_ID_START); rewrite Hok;
    cbn [Z.eqb]; eexists; (split; [reflexivity|]); done.
Qed.

(** ** Frames for a destroyed proxy *)


Lemma consume_consume d a b :
  0 <= a -> 0 <= b ->
  wl_connection_consume (wl_connection_consume d a) b
  = wl_connection_consume d (a + b).
Proof.
  intros Ha Hb. unfold wl_connection_consume, set_connection. cbn.
  rewrite drop_drop, Z2Nat.inj_add by lia. done.
Qed.

Lemma length_encode_frames_nonneg fs :
  0 <= Z.of_nat (length (encode_frames fs)).
Proof. lia. Qed.



Lemma land_readable_nonzero x :
  Z.land WL_DISPLAY_READABLE x <> 0 -> Z.land WL_DISPLAY_READABLE x = 1.
Proof.
  assert (Hbit : Z.land WL_DISPLAY_READABLE x = x mod 2).
  { rewrite Z.land_comm. apply (Z.land_ones x 1). lia. }
  rewrite Hbit. intros. Z.div_mod_to_equations. lia.
Qed.

(** What [wl_connection_data] does for the mask [READABLE] on an empty
    in-ring when the socket delivers [bs]. *)
Lemma wl_connection_data_receive d io rest bs :
  conn_in (connection d) = [] ->
  socket d = io :: rest ->
  io_received io = Some bs ->
  wl_connection_data d 1
  = Done (Z.of_nat (length bs),
          set_connection (set_socket d rest)
            {| conn_in := bs; conn_out := conn_out (connection d) |}).
Proof.
  intros Hin Hsock Hrecv. unfold wl_connection_data. rewrite Hsock.
  change (Z.land 1 WL_DISPLAY_WRITABLE =? 0) with true.
  change (Z.land 1 WL_DISPLAY_READABLE =? 0) with false.
  cbv iota. rewrite Hrecv.
  cbn [connection set_socket conn_in]. by rewrite Hin.
Qed.

(** What [wl_connection_data] does for the mask [READABLE]: the bytes that
    the socket delivers are appended to the in-ring, and the call returns
    the number of bytes now buffered. *)
Lemma wl_connection_data_appends d io rest bs :
  socket d = io :: rest ->
  io_received io = Some bs ->
  wl_connection_data d 1
  = Done (Z.of_nat (length (conn_in (connection d) ++ bs)),
          set_connection (set_socket d rest)
            {| conn_in := conn_in (connection d) ++ bs;
               conn_out := conn_out (connection d) |}).
Proof.
  intros Hsock Hrecv. unfold wl_connection_data. rewrite Hsock.
  change (Z.land 1 WL_DISPLAY_WRITABLE =? 0) with true.
  change (Z.land 1 WL_DISPLAY_READABLE =? 0) with false.
  cbv iota. by rewrite Hrecv.
Qed.

(** With fewer bytes than a header left, the loop of [wl_display_iterate]
    ends and returns their count. *)
Lemma iterate_loop_tail fuel d len :
  0 <= len < 8 -> iterate_loop (S fuel) d len = Done (len, d).
Proof.
  intros Hlen. cbn [iterate_loop].
  destruct (Z.gtb_spec len 0); [|done].
  by rewrite (proj2 (Z.ltb_lt len 8)) by lia.
Qed.




(** ** The roundtrip *)

(** A call that receives fewer bytes than a header returns their count. *)
Lemma wl_display_iterate_partial fuel d io rest bs :
  fatal_error d = false ->
  Z.land WL_DISPLAY_READABLE (mask d) <> 0 ->
  conn_in (connection d) = [] ->
  socket d = io :: rest ->
  io_received io = Some bs ->
  (0 < length bs < 8)%nat ->
  wl_display_iterate (S fuel) d WL_DISPLAY_READABLE
  = Done (Z.of_nat (length bs),
          set_connection (set_socket d rest)
            {| conn_in := bs; conn_out := conn_out (connection d) |}).
Proof.
  intros Hfatal Hmask Hin Hsock Hrecv Hlen.
  unfold wl_display_iterate.
  rewrite Hfatal, (land_readable_nonzero _ Hmask). cbn [Z.eqb].
  rewrite (wl_connection_data_receive d io rest _ Hin Hsock Hrecv).
  cbn [mbind result_bind iterate_loop].
  rewrite (proj2 (Z.ltb_ge (Z.of_nat (length bs)) 0)) by lia.
  rewrite (proj2 (Z.gtb_gt (Z.of_nat (length bs)) 0)) by lia.
  by rewrite (proj2 (Z.ltb_lt (Z.of_nat (length bs)) 8)) by lia.
Qed.

(** The waiting loop of [wl_display_roundtrip] ends as soon as a call of
    [wl_display_iterate] returns anything but 0, with [done] still 0. *)
Lemma roundtrip_loop_stops n fuel d done r d1 :
  user_mem d !! done = Some 0 ->
  wl_display_iterate fuel d WL_DISPLAY_READABLE = Done (r, d1) ->
  r <> 0 ->
  user_mem d1 !! done = Some 0 ->
  roundtrip_loop (S n) fuel d done 0 = Done (r, d1).
Proof.
  intros Hdone Hit Hr Hdone1.
  cbn [roundtrip_loop]. rewrite Hdone, Hit.
  cbn [Z.eqb andb mbind result_bind].
  destruct n; cbn [roundtrip_loop]; rewrite Hdone1;
    rewrite (proj2 (Z.eqb_neq r 0) Hr); by rewrite andb_false_r.
Qed.

End Facts.

(** ** The model at work *)

(** C3.  On a display just connected, with a socket that takes the [sync]
    request and then delivers four bytes, [wl_display_roundtrip] returns 4:
    the first positive return of [wl_display_iterate] ends the waiting loop.
    The callback has not fired: nothing was dispatched, its proxy is still
    in slot 2 with [sync_listener] installed, and the four bytes are still
    in the ring. *)
Theorem roundtrip_returns_before_callback :
  exists d,
    @wl_display_roundtrip plain_environment 10 connected = Done (4, d) /\
    trace d = [] /\
    wl_map_lookup (objects d) 2 = entry_proxy 2 /\
    object_implementation <$> proxy_heap d !! 2%nat
    = Some (Some sync_listener) /\
    conn_in (connection d) = [x01; x00; x00; x00].
Proof.
  eexists. split; [vm_compute; reflexivity|].
  repeat split; vm_compute; reflexivity.
Qed.

Lemma iterate_after_error_witness :
  (exists d2,
     @iterate_calls plain_environment 5 after_error
       [WL_DISPLAY_READABLE; WL_DISPLAY_WRITABLE; 3]
     = Done (replicate 3 (-1, EPROTO), d2) /\
     fatal_error d2 = true /\ trace d2 = trace after_error /\
     connection d2 = connection after_error /\
     socket d2 = socket after_error /\
     objects d2 = objects after_error /\
     proxy_heap d2 = proxy_heap after_error) /\
  (forall cs rs d3,
     @run_calls plain_environment 5 after_error cs = Done (rs, d3) ->
     Forall (fun r => r = (-1, EPROTO)) rs /\
     fatal_error d3 = true /\ dispatches d3 = dispatches after_error).
Proof.
  apply (iterate_after_error (H := plain_environment) connected
           (Some display_proxy) 42 "boom" after_error 5
           [WL_DISPLAY_READABLE; WL_DISPLAY_WRITABLE; 3]).
  reflexivity.
Defined.

Lemma wl_display_iterate_unsolicited_witness :
  exists d',
    @wl_display_iterate plain_environment 5 connected WL_DISPLAY_WRITABLE
    = Done (-1, d') /\
    errno d' = EINVAL /\ socket d' = socket connected /\
    connection d' = connection connected /\ objects d' = objects connected /\
    trace d' = trace connected /\
    log d' = log connected
             ++ ["wl_display_iterate called with unsolicited flags"].
Proof.
  apply (wl_display_iterate_unsolicited (H := plain_environment) 5 connected
           WL_DISPLAY_WRITABLE); reflexivity.
Defined.

Lemma wl_proxy_destroy_slot_witness :
  exists d',
    @wl_proxy_destroy plain_environment with_callback 1 = Done (0, d') /\
    objects d' !! 2 = Some entry_zombie /\
    wl_map_lookup (objects d') 2 = entry_zombie /\
    (forall j, j <> 2 -> objects d' !! j = objects with_callback !! j) /\
    proxy_heap d' = delete 1%nat (proxy_heap with_callback) /\
    trace d' = trace with_callback /\
    connection d' = connection with_callback.
Proof.
  apply (wl_proxy_destroy_slot (H := plain_environment) with_callback 1
           {| object_interface := wl_callback_interface;
              object_implementation := None;
              object_id := 2;
              user_data := 0 |}); reflexivity.
Defined.



End ClientFacts.

(** * Facts about the server *)

Module ServerFacts.

Import Server.

Section Facts.

Context `{Environment}.

(** ** [wl_display_add_global] *)

(** C2.  With the asserts compiled in, a call with a null [func] on a
    display and an object that are not null does not return: the assert
    at the head of the function demands [func != NULL] and aborts the
    process, so no entry is appended and no 0 is returned. *)
Theorem wl_display_add_global_null_func_aborts d object :
  ndebug = false ->
  wl_display_add_global d (Some object) None = Aborted.
Proof.
  intros Hn. unfold wl_display_add_global, assert. by rewrite Hn.
Qed.

(** With [NDEBUG] the same call gets past the check under the assert,
    which turns away a [func] that is not null, and appends the entry. *)
Lemma wl_display_add_global_null_func_release d object :
  ndebug = true ->
  malloc_fails (next_alloc d) = false ->
  exists d',
    wl_display_add_global d (Some object) None = Done (0, d') /\
    global_list d'
    = global_list d ++ [ {| global_object := object; global_func := None |} ].
Proof.
  intros Hn Hm. unfold wl_display_add_global, assert, malloc.
  rewrite Hn, Hm. cbn. eexists. done.
Qed.

(** A [func] that is not null is turned away in either build. *)
Lemma wl_display_add_global_func_rejected d object func :
  wl_display_add_global d (Some object) (Some func) = Done (-1, d).
Proof.
  unfold wl_display_add_global, assert. cbn. by rewrite orb_true_r.
Qed.

(** [wl_display_create] itself makes the call with a null [func]. *)
Lemma wl_display_create_aborts :
  ndebug = false ->
  malloc_fails 0 = false -> loop_create_ok = true ->
  hash_table_create_ok = true ->
  wl_display_create = Aborted.
Proof.
  intros Hn Hm Hl Hh. unfold wl_display_create. rewrite Hm, Hl, Hh.
  cbn [negb]. unfold wl_display_add_object, assert.
  rewrite orb_true_r. cbn [mbind result_bind heap].
  rewrite lookup_singleton_eq. cbn [mbind result_bind].
  unfold wl_display_add_global, assert. by rewrite Hn.
Qed.

(** With [NDEBUG], and memory at hand, [wl_display_create] returns a
    display whose first grant will be [range(256)], with its own object
    under id 1, itself as the only global, no client, nothing posted and a
    well-formed, empty frame list. *)
Lemma wl_display_create_release :
  ndebug = true ->
  malloc_fails 0 = false -> malloc_fails 1 = false ->
  loop_create_ok = true -> hash_table_create_ok = true ->
  exists d,
    wl_display_create = Done (Some d) /\
    client_id_range d = 256 /\ id d = 2 /\
    objects d = {[ 1 := display_object ]} /\
    global_list d
    = [ {| global_object := display_object; global_func := None |} ] /\
    clients d = ∅ /\ posted d = [] /\ frame_list d = [] /\
    frames_wf d.
Proof.
  intros Hn Hm0 Hm1 Hl Hh. unfold wl_display_create.
  rewrite Hm0, Hl, Hh. cbn [negb].
  unfold wl_display_add_object, wl_display_add_global, assert, malloc.
  rewrite Hn. cbn [orb mbind result_bind heap].
  rewrite lookup_singleton_eq. cbn [mbind result_bind]. fields.
  rewrite Hm1. cbn [mbind result_bind Z.eqb negb].
  eexists. split; [reflexivity|]. fields.
  do 7 (split; [done|]).
  constructor; fields.
  - constructor.
  - intros a Ha. by apply elem_of_nil in Ha.
  - rewrite lookup_insert_eq. cbn. eauto.
  - intros a [c Hc]. destruct (decide (a = display_object)) as [->|];
      [unfold display_object; lia|].
    rewrite lookup_insert_ne, lookup_singleton_ne in Hc by done. done.
Qed.

(** ** Posting events *)

Lemma wl_client_post_event_ok d client sender c o opcode args :
  clients d !! client = Some c ->
  heap d !! sender ≫= cell_as_object = Some o ->
  wl_client_post_event d client sender opcode args
  = Done (set_posted d
            (posted d ++ [(client, {| event_sender := object_id o;
                                      event_opcode_of := opcode;
                                      event_args := args |})])).
Proof. intros Hc Ho. unfold wl_client_post_event. by rewrite Hc, Ho. Qed.

Lemma wl_display_post_range_ok d client c disp :
  clients d !! client = Some c ->
  heap d !! display_object ≫= cell_as_object = Some disp ->
  wl_display_post_range d client
  = Done (set_clients
            (set_client_id_range
               (set_posted d
                  (posted d
                   ++ [(client,
                        range_event (object_id disp) (client_id_range d))]))
               (wrap32 (client_id_range d + 256)))
            (<[client := set_id_count c (wrap32 (id_count c + 256))]>
               (clients d))).
Proof.
  intros Hc Ho. unfold wl_display_post_range.
  rewrite (wl_client_post_event_ok d client display_object c disp) by done.
  cbn [mbind result_bind clients set_posted set_client_id_range
       client_id_range].
  do 2 f_equal. apply map_eq. intros j.
  rewrite lookup_alter, lookup_insert.
  destruct (decide (client = j)) as [<-|]; [by rewrite Hc|done].
Qed.

(** ** Granting ids *)

Lemma wl_client_add_resource_plenty d client c r :
  clients d !! client = Some c ->
  is_Some (heap d !! r) ->
  64 <= id_count c < 4294967296 ->
  exists d',
    wl_client_add_resource d client r = Done d' /\
    posted d' = posted d /\ heap d' = heap d /\
    client_id_range d' = client_id_range d /\
    exists c', clients d' !! client = Some c' /\
               id_count c' = id_count c - 1.
Proof.
  intros Hc [cell Hr] Hcount. unfold wl_client_add_resource.
  rewrite Hc, Hr. rewrite (proj2 (Z.ltb_ge (id_count c) 64)) by lia.
  cbn [mbind result_bind]. eexists. split; [reflexivity|].
  cbn [posted heap client_id_range clients set_clients set_objects].
  repeat split; try done.
  rewrite lookup_alter_eq, lookup_insert_eq. cbn [fmap option_fmap option_map].
  eexists. split; [reflexivity|].
  cbn [id_count set_resource_list set_id_count]. unfold wrap32.
  apply Z.mod_small. lia.
Qed.

Lemma wl_client_add_resource_low d client c r disp :
  clients d !! client = Some c ->
  is_Some (heap d !! r) ->
  heap d !! display_object ≫= cell_as_object = Some disp ->
  id_count c < 64 ->
  exists d',
    wl_client_add_resource d client r = Done d' /\
    posted d'
    = posted d
      ++ [(client, range_event (object_id disp) (client_id_range d))] /\
    heap d' = heap d /\
    client_id_range d' = wrap32 (client_id_range d + 256) /\
    exists c', clients d' !! client = Some c' /\
               id_count c' = wrap32 (wrap32 (id_count c - 1) + 256).
Proof.
  intros Hc [cell Hr] Hd Hcount. unfold wl_client_add_resource.
  rewrite Hc, Hr. rewrite (proj2 (Z.ltb_lt (id_count c) 64)) by lia.
  erewrite (wl_display_post_range_ok _ client _ disp);
    [|cbn [clients set_clients]; apply lookup_insert_eq|done].
  cbn [mbind result_bind]. eexists. split; [reflexivity|].
  cbn [posted heap client_id_range clients set_clients set_objects
       set_client_id_range set_posted].
  repeat split; try done.
  rewrite lookup_alter_eq, lookup_insert_eq. cbn [fmap option_fmap option_map].
  eexists. split; [reflexivity|]. done.
Qed.

Lemma add_resources_app rs1 rs2 : forall d client,
  add_resources d client (rs1 ++ rs2)
  = d1 ← add_resources d client rs1; add_resources d1 client rs2.
Proof.
  induction rs1 as [|r rs1 IH]; intros d client; [done|].
  cbn [app add_resources].
  destruct (wl_client_add_resource d client r); cbn [mbind result_bind];
    [apply IH|done..].
Qed.

Lemma add_resources_plenty rs : forall d client c,
  clients d !! client = Some c ->
  Forall (fun r => is_Some (heap d !! r)) rs ->
  63 + Z.of_nat (length rs) <= id_count c < 4294967296 ->
  exists d',
    add_resources d client rs = Done d' /\
    posted d' = posted d /\ heap d' = heap d /\
    client_id_range d' = client_id_range d /\
    exists c', clients d' !! client = Some c' /\
               id_count c' = id_count c - Z.of_nat (length rs).
Proof.
  induction rs as [|r rs IH]; intros d client c Hc Hrs Hcount.
  - exists d. repeat split; try done. exists c. split; [done|].
    cbn [length]. lia.
  - apply Forall_cons in Hrs as [Hr Hrs]. cbn [length] in Hcount.
    destruct (wl_client_add_resource_plenty d client c r Hc Hr)
      as (d1 & Hadd & Hp1 & Hh1 & Hr1 & c1 & Hc1 & Hn1); [lia|].
    cbn [add_resources]. rewrite Hadd. cbn [mbind result_bind].
    destruct (IH d1 client c1 Hc1) as (d2 & Hadd2 & Hp2 & Hh2 & Hr2 & c2 & Hc2 & Hn2).
    + by rewrite Hh1.
    + lia.
    + exists d2. rewrite Hadd2. repeat split; try congruence.
      exists c2. split; [done|]. cbn [length]. lia.
Qed.

Lemma add_resources_total rs : forall d client c disp,
  clients d !! client = Some c ->
  heap d !! display_object ≫= cell_as_object = Some disp ->
  Forall (fun r => is_Some (heap d !! r)) rs ->
  exists d', add_resources d client rs = Done d'.
Proof.
  induction rs as [|r rs IH]; intros d client c disp Hc Hd Hrs.
  - by exists d.
  - apply Forall_cons in Hrs as [Hr Hrs]. cbn [add_resources].
    destruct (decide (id_count c < 64)) as [Hlow|Hhigh].
    + destruct (wl_client_add_resource_low d client c r disp)
        as (d1 & -> & _ & Hh & _ & c1 & Hc1 & _); [done..|].
      cbn [mbind result_bind]. apply (IH d1 client c1 disp);
        [done|by rewrite Hh|by rewrite Hh].
    + unfold wl_client_add_resource. destruct Hr as [cell Hr].
      rewrite Hc, Hr. rewrite (proj2 (Z.ltb_ge (id_count c) 64)) by lia.
      cbn [mbind result_bind].
      eapply (IH _ client _ disp).
      * cbn [clients set_clients set_objects].
        rewrite lookup_alter_eq, lookup_insert_eq. reflexivity.
      * done.
      * done.
Qed.

Lemma post_globals_ok l : forall d client c disp,
  clients d !! client = Some c ->
  heap d !! display_object ≫= cell_as_object = Some disp ->
  Forall (fun g => is_Some (heap d !! global_object g ≫= cell_as_object)) l ->
  exists d' globals,
    post_globals l d client = Done d' /\
    posted d' = posted d ++ globals /\
    Forall (fun e => e.1 = client /\
                     event_opcode_of e.2 = WL_DISPLAY_GLOBAL) globals /\
    heap d' = heap d /\ clients d' = clients d /\
    client_id_range d' = client_id_range d /\
    global_list d' = global_list d /\ next_alloc d' = next_alloc d /\
    trace d' = trace d /\ frame_list d' = frame_list d.
Proof.
  induction l as [|g l IH]; intros d client c disp Hc Hd Hl.
  - exists d, []. rewrite app_nil_r. done.
  - apply Forall_cons in Hl as [[o Ho] Hl]. cbn [post_globals]. rewrite Ho.
    rewrite (wl_client_post_event_ok d client display_object c disp) by done.
    cbn [mbind result_bind]. set (d1 := set_posted d _).
    destruct (IH d1 client c disp)
      as (d' & globals & -> & Hp & Hg & Hh & Hcl & Hr & Hgl & Hn & Ht & Hfl);
      [done..|].
    eexists d', (_ :: globals). split; [done|].
    subst d1. cbn [posted set_posted] in Hp. rewrite Hp, <- app_assoc.
    split; [done|]. split; [by constructor|]. done.
Qed.

Lemma call_connect_funcs_none l : forall d client,
  Forall (fun g => global_func g = None) l ->
  call_connect_funcs l d client = d.
Proof.
  induction l as [|g l IH]; intros d client Hl; [done|].
  apply Forall_cons in Hl as [Hg Hl]. unfold call_connect_funcs in *.
  cbn [foldl]. rewrite Hg. by apply IH.
Qed.

(** A new client leaves the frame list well formed. *)
Lemma wl_client_create_wf d script :
  frames_wf d ->
  malloc_fails (next_alloc d) = false ->
  Forall (fun g => global_func g = None /\
                   is_Some (heap d !! global_object g ≫= cell_as_object))
    (global_list d) ->
  exists d1,
    wl_client_create d script = Done (Some (next_alloc d), d1) /\
    frames_wf d1 /\ frame_list d1 = frame_list d /\
    is_Some (clients d1 !! next_alloc d) /\
    (forall c, is_Some (clients d !! c) -> is_Some (clients d1 !! c)).
Proof.
  intros Hwf Hm Hgl. destruct (wf_display d Hwf) as [disp Hd].
  unfold wl_client_create, malloc. rewrite Hm.
  set (c := next_alloc d).
  set (cl := {| connection_in := []; client_socket := script;
                resource_list := []; id_count := 0 |}).
  set (d0 := set_clients _ _).
  rewrite (wl_display_post_range_ok d0 c cl disp)
    by (try apply lookup_insert_eq; done).
  cbn [mbind result_bind]. set (d3 := set_clients _ _).
  destruct (post_globals_ok (global_list d3) d3 c
              (set_id_count cl (wrap32 (id_count cl + 256))) disp)
    as (d4 & globals & Hpost & Hp4 & Hg4 & Hh4 & Hcl4 & Hr4 & Hgl4 & Hn4 & Ht4
        & Hfl4).
  { apply lookup_insert_eq. }
  { done. }
  { eapply Forall_impl; [exact Hgl|]. by intros g [_ ?]. }
  rewrite Hpost. cbn [mbind result_bind].
  rewrite call_connect_funcs_none
    by (rewrite Hgl4; eapply Forall_impl; [exact Hgl|]; by intros g [? _]).
  assert (Hlive : forall c0, is_Some (clients d !! c0) ->
                             is_Some (clients d4 !! c0)).
  { intros c0 [x Hx]. rewrite Hcl4. subst d3 d0. fields.
    rewrite !lookup_insert. repeat case_decide; eauto. }
  exists d4. split; [done|].
  split; [|split; [by rewrite Hfl4|split; [|done]]].
  - constructor.
    + rewrite Hfl4. apply (wf_nodup d Hwf).
    + rewrite Hfl4. intros a Ha.
      destruct (wf_listeners d Hwf a Ha) as (li & Hli & Hc).
      exists li. unfold listener_at in *. rewrite Hh4. split; [done|].
      by apply Hlive.
    + rewrite Hh4. eauto.
    + rewrite Hh4, Hn4. subst d3 d0. fields. intros a Ha.
      pose proof (wf_fresh d Hwf a Ha). lia.
  - rewrite Hcl4. subst d3. fields. rewrite lookup_insert_eq. eauto.
Qed.

(** C8, as the code has it.  A new client is first sent
    [range(client_id_range)], the base that the display stands at (256
    after [wl_display_create]), followed only by [global] events.  Each
    [wl_client_add_resource] takes one from the counter of the client, and
    the call that finds the counter below 64 before taking from it posts the
    next [range], 256 above the one before: with the 256 ids of the first
    grant no [range] is posted during the first 193 calls, and the 194th
    posts it. *)
Theorem range_grants d script disp rs :
  malloc_fails (next_alloc d) = false ->
  heap d !! display_object ≫= cell_as_object = Some disp ->
  Forall (fun g => global_func g = None /\
                   is_Some (heap d !! global_object g ≫= cell_as_object))
    (global_list d) ->
  Forall (fun r => is_Some (heap d !! r)) rs ->
  exists d1 globals,
    wl_client_create d script = Done (Some (next_alloc d), d1) /\
    posted d1
    = posted d
      ++ (next_alloc d, range_event (object_id disp) (client_id_range d))
         :: globals /\
    Forall (fun e => event_opcode_of e.2 = WL_DISPLAY_GLOBAL) globals /\
    id_count <$> clients d1 !! next_alloc d = Some 256 /\
    exists d2,
      add_resources d1 (next_alloc d) rs = Done d2 /\
      ((length rs <= 193)%nat ->
       posted d2 = posted d1 /\
       id_count <$> clients d2 !! next_alloc d
       = Some (256 - Z.of_nat (length rs))) /\
      (length rs = 194%nat ->
       posted d2
       = posted d1
         ++ [(next_alloc d,
              range_event (object_id disp)
                (wrap32 (client_id_range d + 256)))]).
Proof.
  intros Hm Hd Hgl Hrs. unfold wl_client_create, malloc. rewrite Hm.
  set (c := next_alloc d).
  set (cl := {| connection_in := []; client_socket := script;
                resource_list := []; id_count := 0 |}).
  set (d0 := set_clients _ _).
  assert (Hc0 : clients d0 !! c = Some cl) by apply lookup_insert_eq.
  rewrite (wl_display_post_range_ok d0 c cl disp) by done.
  cbn [mbind result_bind]. set (d3 := set_clients _ _).
  destruct (post_globals_ok (global_list d3) d3 c
              (set_id_count cl (wrap32 (id_count cl + 256))) disp)
    as (d4 & globals & Hpost & Hp4 & Hg4 & Hh4 & Hcl4 & Hr4 & Hgl4 & Hn4 & Ht4
        & _).
  { apply lookup_insert_eq. }
  { done. }
  { eapply Forall_impl; [exact Hgl|]. by intros g [_ ?]. }
  rewrite Hpost. cbn [mbind result_bind].
  rewrite call_connect_funcs_none
    by (rewrite Hgl4; eapply Forall_impl; [exact Hgl|]; by intros g [? _]).
  assert (Hc4 : clients d4 !! c
                = Some (set_id_count cl (wrap32 (id_count cl + 256))))
    by (rewrite Hcl4; apply lookup_insert_eq).
  change (wrap32 (id_count cl + 256)) with 256 in *.
  exists d4, globals. split; [done|].
  split; [rewrite Hp4; cbn; by rewrite <- app_assoc|].
  split; [eapply Forall_impl; [exact Hg4|]; by intros e [_ ?]|].
  split; [by rewrite Hc4|].
  assert (Hrs4 : Forall (fun r => is_Some (heap d4 !! r)) rs)
    by (by rewrite Hh4).
  destruct (decide (length rs <= 193)%nat) as [Hle|Hgt].
  - destruct (add_resources_plenty rs d4 c _ Hc4 Hrs4)
      as (d5 & Hadd & Hp5 & _ & _ & c5 & Hc5 & Hn5).
    { cbn [id_count set_id_count]. lia. }
    exists d5. split; [done|]. split; [|lia].
    intros _. split; [done|]. rewrite Hc5. cbn. rewrite Hn5. done.
  - destruct (decide (length rs = 194%nat)) as [Heq|Hne].
    + rewrite <- (take_drop 193 rs) in Hrs4 |- *.
      apply Forall_app in Hrs4 as [Hrs1 Hrs2].
      destruct (drop 193 rs) as [|r [|? ?]] eqn:Hdrop;
        [apply (f_equal length) in Hdrop; rewrite length_drop in Hdrop;
         cbn in Hdrop; lia| |
         apply (f_equal length) in Hdrop; rewrite length_drop in Hdrop;
         cbn in Hdrop; lia].
      apply Forall_cons in Hrs2 as [Hr _].
      destruct (add_resources_plenty (take 193 rs) d4 c _ Hc4 Hrs1)
        as (d5 & Hadd & Hp5 & Hh5 & Hr5 & c5 & Hc5 & Hn5).
      { rewrite length_take. cbn [id_count set_id_count]. lia. }
      rewrite length_take in Hn5. cbn [id_count set_id_count] in Hn5.
      destruct (wl_client_add_resource_low d5 c c5 r disp)
        as (d6 & Hadd6 & Hp6 & _).
      { done. }
      { by rewrite Hh5. }
      { by rewrite Hh5, Hh4. }
      { lia. }
      exists d6. rewrite add_resources_app, Hadd.
      cbn [mbind result_bind add_resources]. rewrite Hadd6.
      cbn [mbind result_bind]. split; [done|].
      split; [rewrite !length_app, length_take; cbn [length]; lia|].
      intros _. rewrite Hp6, Hp5, Hr5, Hr4. done.
    + destruct (add_resources_total rs d4 c _ disp Hc4) as [d5 Hadd];
        [by rewrite Hh4|done|].
      exists d5. split; [done|]. split; intros; lia.
Qed.

(** ** Frames that are not decoded *)

Lemma wl_connection_consume_clients d client c size tl :
  clients d !! client = Some c ->
  drop (Z.to_nat size) (connection_in c) = tl ->
  clients (wl_connection_consume d client size)
  = <[client := set_connection_in c tl]> (clients d).
Proof.
  intros Hc Htl. unfold wl_connection_consume. cbn [clients set_clients].
  apply map_eq. intros j. rewrite lookup_alter, lookup_insert.
  destruct (decide (client = j)) as [<-|]; [|done].
  by rewrite Hc, <- Htl.
Qed.

(** The loop on a ring that starts with frames it does not decode. *)
Lemma connection_data_loop_rejects fs evs fuel d client c disp rest len :
  clients d !! client = Some c ->
  heap d !! display_object ≫= cell_as_object = Some disp ->
  connection_in c = encode_frames fs ++ rest ->
  Forall2 (fun f e => frame_ok f /\
                      rejection d (object_id disp) f = Some e) fs evs ->
  Z.of_nat (length (encode_frames fs)) <= len ->
  exists d',
    connection_data_loop (length fs + fuel) d client len
    = connection_data_loop fuel d' client
        (len - Z.of_nat (length (encode_frames fs))) /\
    posted d' = posted d ++ map (pair client) evs /\
    trace d' = trace d /\
    clients d' = <[client := set_connection_in c rest]> (clients d) /\
    heap d' = heap d /\ objects d' = objects d /\
    frame_list d' = frame_list d.
Proof.
  intros Hc Hd Hin Hfs Hlen.
  enough (Hgen : forall d0 c0 len fuel,
    objects d0 = objects d -> heap d0 = heap d ->
    clients d0 !! client = Some c0 ->
    connection_in c0 = encode_frames fs ++ rest ->
    Z.of_nat (length (encode_frames fs)) <= len ->
    exists d',
      connection_data_loop (length fs + fuel) d0 client len
      = connection_data_loop fuel d' client
          (len - Z.of_nat (length (encode_frames fs))) /\
      posted d' = posted d0 ++ map (pair client) evs /\
      trace d' = trace d0 /\
      clients d' = <[client := set_connection_in c0 rest]> (clients d0) /\
      heap d' = heap d0 /\ objects d' = objects d0 /\
      frame_list d' = frame_list d0)
    by (by apply Hgen).
  clear Hc Hin Hlen len fuel c.
  induction Hfs as [|f e fs evs [Hok Hrej] Hfs IH];
    intros d0 c len fuel Hobjs Hheap Hc Hin Hlen.
  - exists d0. cbn [length encode_frames map concat Nat.add].
    rewrite Z.sub_0_r, app_nil_r. repeat split; try done.
    cbn in Hin. rewrite <- Hin. destruct c. cbn. by rewrite insert_id.
  - rewrite encode_frames_cons in *. rewrite length_app in Hlen.
    pose proof (length_encode_frame f) as Hsz.
    pose proof (frame_size_pos f) as Hpos.
    cbn [length Nat.add connection_data_loop].
    rewrite Hc, Hin, <- app_assoc.
    destruct (peek_header f (encode_frames fs ++ rest) Hok)
      as (-> & -> & ->).
    rewrite (proj2 (Z.ltb_ge len 8)) by lia.
    rewrite (proj2 (Z.ltb_ge len (frame_size f))) by lia.
    set (d1 := wl_connection_consume
                 (set_posted d0 (posted d0 ++ [(client, e)])) client
                 (frame_size f)).
    assert (Hc1 : clients d1
                  = <[client := set_connection_in c (encode_frames fs ++ rest)]>
                      (clients d0)).
    { apply (wl_connection_consume_clients
               (set_posted d0 (posted d0 ++ [(client, e)])) client c);
        [done|].
      rewrite Hin, <- app_assoc. apply drop_encode_frame. }
    destruct (IH d1 (set_connection_in c (encode_frames fs ++ rest))
                (len - frame_size f) fuel)
      as (d' & Hloop & Hp & Ht & Hcl & Hh & Ho & Hf).
    + done.
    + done.
    + rewrite Hc1. apply lookup_insert_eq.
    + done.
    + lia.
    + exists d'. split.
      * rewrite length_app, Nat2Z.inj_add, Hsz.
        replace (len - (frame_size f
                        + Z.of_nat (length (encode_frames fs))))
          with (len - frame_size f - Z.of_nat (length (encode_frames fs)))
          by lia.
        rewrite <- Hloop. subst d1.
        assert (Hpost : forall op args,
          wl_client_post_event d0 client display_object op args
          = Done (set_posted d0
                    (posted d0
                     ++ [(client, {| event_sender := object_id disp;
                                     event_opcode_of := op;
                                     event_args := args |})])))
          by (intros; apply (wl_client_post_event_ok d0 client _ c);
              [done|by rewrite Hheap]).
        unfold rejection, wl_hash_table_lookup in *.
        rewrite Hobjs, Hheap.
        destruct (objects d !! frame_object f) as [a|].
        -- destruct (heap d !! a ≫= cell_as_object) as [o|]; [|done].
           destruct (wrap32 (method_count (object_interface o)) <=? frame_opcode f);
             [|done].
           injection Hrej as <-. by rewrite Hpost.
        -- injection Hrej as <-. by rewrite Hpost.
      * rewrite Hp, Ht, Hcl, Hh, Ho, Hf, Hc1. subst d1.
        cbn [posted heap objects trace frame_list wl_connection_consume
             set_clients set_posted map].
        rewrite <- app_assoc, insert_insert_eq. done.
Qed.

(** [wl_client_connection_data] on a readable socket: what was received is
    appended to the ring and the loop runs on the length of the ring. *)
Lemma wl_client_connection_data_receive fuel d client c io script bs :
  clients d !! client = Some c ->
  client_socket c = io :: script ->
  io_received io = Some bs ->
  wl_client_connection_data fuel d client WL_EVENT_READABLE
  = connection_data_loop fuel
      (set_clients d
         (<[client := set_connection_in (set_client_socket c script)
                        (connection_in c ++ bs)]> (clients d)))
      client (Z.of_nat (length (connection_in c ++ bs))).
Proof.
  intros Hc Hs Hr. unfold wl_client_connection_data, wl_connection_data.
  rewrite Hc, Hs.
  change (Z.land WL_EVENT_READABLE WL_EVENT_READABLE =? 0) with false.
  change (Z.land WL_EVENT_READABLE WL_EVENT_WRITEABLE =? 0) with true.
  cbv iota.
  change (Z.lor WL_CONNECTION_READABLE 0) with 1.
  change (Z.land 1 WL_CONNECTION_WRITABLE =? 0) with true.
  change (Z.land 1 WL_CONNECTION_READABLE =? 0) with false.
  cbn [negb andb]. rewrite Hr. cbn [mbind result_bind connection_in
                                    set_client_socket].
  by rewrite (proj2 (Z.ltb_ge _ 0)) by lia.
Qed.




(** When the ring holds nothing but such frames, the loop ends. *)
Lemma rejected_frames_only fs evs fuel d client c disp :
  clients d !! client = Some c ->
  heap d !! display_object ≫= cell_as_object = Some disp ->
  connection_in c = encode_frames fs ->
  Forall2 (fun f e => frame_ok f /\
                      rejection d (object_id disp) f = Some e) fs evs ->
  exists d',
    connection_data_loop (length fs + S fuel) d client
      (Z.of_nat (length (encode_frames fs))) = Done d' /\
    posted d' = posted d ++ map (pair client) evs /\
    trace d' = trace d /\
    clients d' = <[client := set_connection_in c []]> (clients d).
Proof.
  intros Hc Hd Hin Hfs.
  destruct (connection_data_loop_rejects fs evs (S fuel) d client c disp []
              (Z.of_nat (length (encode_frames fs))))
    as (d' & Hloop & Hp & Ht & Hcl & _); [done|done|by rewrite app_nil_r|
                                          done|lia|].
  exists d'. rewrite Hloop, Z.sub_diag. done.
Qed.

(** ** The frame list *)

Lemma elem_of_unlink_all l : forall k x,
  x ∈ unlink_all l k <-> x ∈ k /\ x ∉ l.
Proof.
  unfold unlink_all. induction l as [|a l IH]; intros k x; cbn [foldl].
  - split; [intros ?; split; [done|apply not_elem_of_nil]|by intros [? _]].
  - rewrite IH, list_elem_of_filter, not_elem_of_cons. tauto.
Qed.

Lemma unlink_all_self l : unlink_all l l = [].
Proof.
  destruct (unlink_all l l) as [|x k] eqn:E; [done|].
  assert (Hx : x ∈ unlink_all l l) by (rewrite E; left).
  apply elem_of_unlink_all in Hx. tauto.
Qed.

Lemma omap_ext_elem {A B} (f g : A -> option B) (l : list A) :
  (forall x, x ∈ l -> f x = g x) -> omap f l = omap g l.
Proof.
  induction l as [|x l IH]; intros Hfg; [done|]. csimpl.
  rewrite (Hfg x) by left.
  rewrite IH; [done|]. intros y Hy. apply Hfg. by right.
Qed.

(** The walk of [wl_display_post_frame] over addresses that hold frame
    listeners of live clients: for each, in order, the [key] event is
    posted to its client and the listener is destroyed. *)
Lemma post_frame_loop_ok l : forall d disp time,
  NoDup l ->
  (forall a, a ∈ l ->
     exists li, listener_at d a = Some li /\
                is_Some (clients d !! listener_client li)) ->
  heap d !! display_object ≫= cell_as_object = Some disp ->
  exists d',
    post_frame_loop l d time = Done d' /\
    posted d'
    = posted d ++ map (key_event (object_id disp) time) (listeners d l) /\
    length (listeners d l) = length l /\
    trace d' = trace d ++ destroy_calls d l /\
    frame_list d' = unlink_all l (frame_list d) /\
    heap d' = foldl (fun m a => delete a m) (heap d) l /\
    clients d'
    = (fun cl => set_resource_list cl (unlink_all l (resource_list cl)))
        <$> clients d /\
    objects d' = objects d /\ next_alloc d' = next_alloc d.
Proof.
  induction l as [|a l IH]; intros d disp time Hnd Hl Hd.
  - exists d. cbn. rewrite !app_nil_r. repeat split; try done.
    symmetry. rewrite <- (map_fmap_id (clients d)) at 2.
    apply map_fmap_ext. intros ? [] ?. done.
  - apply NoDup_cons in Hnd as [Ha Hnd].
    destruct (Hl a) as (li & Hli & [cl Hcl]); [left|].
    assert (Hcell : heap d !! a = Some (cell_frame_listener li)).
    { unfold listener_at in Hli.
      destruct (heap d !! a) as [[]|]; congruence. }
    assert (Hne : a ≠ display_object).
    { intros ->. rewrite Hcell in Hd. discriminate. }
    cbn [post_frame_loop]. rewrite Hcell.
    rewrite (wl_client_post_event_ok d _ display_object cl disp) by done.
    cbn [mbind result_bind]. unfold wl_resource_destroy.
    cbn [clients heap set_posted]. rewrite Hcl, Hcell.
    cbn [cell_destroy cell_object_id Z.ltb Z.compare].
    set (d4 := destroy_frame_listener_body _ _).
    destruct (IH d4 disp time Hnd) as
      (d' & Hloop & Hp & Hlen & Ht & Hf & Hh & Hcs & Ho & Hn).
    + intros b Hb. destruct (Hl b) as (lb & Hlb & Hclb); [by right|].
      exists lb. split.
      * unfold listener_at in *. subst d4.
        cbn [heap destroy_frame_listener_body set_heap].
        rewrite lookup_delete_ne; [done|]. intros ->. done.
      * subst d4. cbn [clients destroy_frame_listener_body set_heap
                       set_frame_list record set_trace set_clients].
        rewrite lookup_fmap. destruct Hclb as [? ->]. done.
    + subst d4. cbn [heap destroy_frame_listener_body set_heap].
      by rewrite lookup_delete_ne.
    + assert (Hsame : forall b, b ∈ l ->
                listener_at d4 b = listener_at d b).
      { intros b Hb. unfold listener_at. subst d4.
        cbn [heap destroy_frame_listener_body set_heap].
        rewrite lookup_delete_ne; [done|]. intros ->. done. }
      exists d'. split; [done|].
      unfold listeners, destroy_calls in *. csimpl. rewrite Hli. csimpl.
      rewrite <- (omap_ext_elem (listener_at d4) (listener_at d) l) by done.
      rewrite <- (omap_ext_elem
                    (fun a0 => (fun li0 => t_destroy a0 (listener_client li0))
                                 <$> listener_at d4 a0)
                    (fun a0 => (fun li0 => t_destroy a0 (listener_client li0))
                                 <$> listener_at d a0) l)
        by (intros b Hb; by rewrite Hsame).
      rewrite Hp, Hlen, Ht, Hf, Hh, Hcs, Ho, Hn. subst d4.
      cbn [posted trace frame_list heap clients objects next_alloc
           destroy_frame_listener_body set_heap set_frame_list record
           set_trace set_clients set_posted map foldl].
      rewrite <- !app_assoc. repeat split; try done.
      rewrite <- map_fmap_compose. apply map_fmap_ext.
      intros ? [] ?. done.
Qed.

Lemma frames_wf_listener_in_heap d a :
  frames_wf d -> a ∈ frame_list d -> (a < next_alloc d)%nat.
Proof.
  intros Hwf Ha. destruct (wf_listeners d Hwf a Ha) as (li & Hli & _).
  apply (wf_fresh d Hwf). unfold listener_at in Hli.
  destruct (heap d !! a); [done|discriminate].
Qed.

(** A [frame] request that gets its memory appends one listener, for the
    client and the key of the request, at the tail of the frame list. *)
Lemma display_frame_granted d client key cl :
  frames_wf d ->
  clients d !! client = Some cl ->
  malloc_fails (next_alloc d) = false ->
  exists d',
    display_frame d client key = Done d' /\
    frames_wf d' /\
    frame_list d' = frame_list d ++ [next_alloc d] /\
    listeners d' (frame_list d')
    = listeners d (frame_list d)
      ++ [ {| listener_client := client; listener_key := key |} ] /\
    posted d' = posted d /\ trace d' = trace d /\
    next_alloc d' = S (next_alloc d) /\
    heap d' !! display_object = heap d !! display_object /\
    (forall c, is_Some (clients d' !! c) <-> is_Some (clients d !! c)).
Proof.
  intros Hwf Hcl Hm. unfold display_frame, malloc. rewrite Hm.
  cbn [clients set_next_alloc]. rewrite Hcl.
  set (a := next_alloc d).
  assert (Hfresh : heap d !! a = None).
  { destruct (heap d !! a) eqn:E; [|done].
    pose proof (wf_fresh d Hwf a ltac:(by rewrite E)). lia. }
  assert (Hold : forall b, b ∈ frame_list d -> b ≠ a).
  { intros b Hb. pose proof (frames_wf_listener_in_heap d b Hwf Hb). lia. }
  assert (Hdisp : display_object ≠ a).
  { intros Heq. destruct (wf_display d Hwf) as [o Ho].
    rewrite Heq, Hfresh in Ho. discriminate. }
  assert (Hlive : forall c, is_Some
            (<[client := set_resource_list cl (resource_list cl ++ [a])]>
               (clients d) !! c) <-> is_Some (clients d !! c)).
  { intros c. rewrite lookup_insert. destruct (decide (client = c)) as [<-|];
      [|done]. rewrite Hcl. split; eauto. }
  eexists. split; [reflexivity|].
  cbn [frame_list posted trace next_alloc heap clients set_frame_list
       set_clients set_heap set_next_alloc].
  split; [|split; [done|split; [|split; [done|split; [done|split;
    [done|split; [by rewrite lookup_insert_ne|done]]]]]]].
  - constructor.
    + fields. apply NoDup_app. split; [apply (wf_nodup d Hwf)|].
      split; [|apply NoDup_singleton].
      intros b Hb Hba. apply list_elem_of_singleton in Hba. by apply (Hold b).
    + fields. intros b Hb. apply elem_of_app in Hb as [Hb|Hb].
      * destruct (wf_listeners d Hwf b Hb) as (li & Hli & Hc).
        exists li. split; [|by apply Hlive].
        unfold listener_at in *. fields.
        by rewrite lookup_insert_ne by (symmetry; by apply Hold).
      * apply list_elem_of_singleton in Hb as ->.
        exists {| listener_client := client; listener_key := key |}.
        split.
        -- unfold listener_at. fields. by rewrite lookup_insert_eq.
        -- cbn [listener_client]. fields. apply Hlive. by rewrite Hcl.
    + fields. rewrite lookup_insert_ne by done. apply (wf_display d Hwf).
    + fields. intros b Hb.
      destruct (decide (b = a)) as [->|Hne]; [subst a; lia|].
      rewrite lookup_insert_ne in Hb by done.
      pose proof (wf_fresh d Hwf b Hb). subst a. lia.
  - unfold listeners. rewrite omap_app. f_equal.
    + apply omap_ext_elem. intros b Hb. unfold listener_at. fields.
      rewrite lookup_insert_ne; [done|]. symmetry. by apply Hold.
    + csimpl. unfold listener_at. fields. by rewrite lookup_insert_eq.
Qed.

(** A [frame] request that gets no memory is answered with [no_memory] and
    leaves the frame list alone. *)
Lemma display_frame_refused d client key cl :
  frames_wf d ->
  clients d !! client = Some cl ->
  malloc_fails (next_alloc d) = true ->
  exists d',
    display_frame d client key = Done d' /\
    frames_wf d' /\
    frame_list d' = frame_list d /\
    listeners d' (frame_list d') = listeners d (frame_list d) /\
    trace d' = trace d /\
    next_alloc d' = S (next_alloc d) /\
    heap d' !! display_object = heap d !! display_object /\
    (forall c, is_Some (clients d' !! c) <-> is_Some (clients d !! c)).
Proof.
  intros Hwf Hcl Hm. unfold display_frame, malloc. rewrite Hm.
  destruct (wf_display d Hwf) as [disp Hd].
  unfold wl_client_post_no_memory.
  rewrite (wl_client_post_event_ok _ client display_object cl disp) by done.
  eexists. split; [reflexivity|].
  split; [|done].
  constructor; cbn; [apply (wf_nodup d Hwf)|apply (wf_listeners d Hwf)|
                     apply (wf_display d Hwf)|].
  intros b Hb. pose proof (wf_fresh d Hwf b Hb). lia.
Qed.

Lemma frame_requests_ok reqs : forall d,
  frames_wf d ->
  Forall (fun r => is_Some (clients d !! r.1)) reqs ->
  exists d1,
    frame_requests d reqs = Done d1 /\
    frames_wf d1 /\
    listeners d1 (frame_list d1)
    = listeners d (frame_list d) ++ granted (next_alloc d) reqs /\
    trace d1 = trace d /\
    heap d1 !! display_object = heap d !! display_object.
Proof.
  induction reqs as [|[client key] reqs IH]; intros d Hwf Hreqs.
  - exists d. cbn. by rewrite app_nil_r.
  - apply Forall_cons in Hreqs as [[cl Hcl] Hreqs]. cbn [fst] in Hcl.
    cbn [frame_requests granted].
    destruct (malloc_fails (next_alloc d)) eqn:Hm.
    + destruct (display_frame_refused d client key cl Hwf Hcl Hm)
        as (d' & -> & Hwf' & _ & Hls & Ht & Hn & Hd & Hlive).
      cbn [mbind result_bind].
      destruct (IH d' Hwf') as (d1 & -> & Hwf1 & Hls1 & Ht1 & Hd1).
      { eapply Forall_impl; [exact Hreqs|]. intros r Hr. by apply Hlive. }
      exists d1. rewrite Hls1, Hls, Hn, Ht1, Hd1. done.
    + destruct (display_frame_granted d client key cl Hwf Hcl Hm)
        as (d' & -> & Hwf' & _ & Hls & _ & Ht & Hn & Hd & Hlive).
      cbn [mbind result_bind].
      destruct (IH d' Hwf') as (d1 & -> & Hwf1 & Hls1 & Ht1 & Hd1).
      { eapply Forall_impl; [exact Hreqs|]. intros r Hr. by apply Hlive. }
      exists d1. rewrite Hls1, Hls, Hn, Ht1, Hd1, <- app_assoc. done.
Qed.

Lemma destroyed_app t1 t2 : destroyed (t1 ++ t2) = destroyed t1 ++ destroyed t2.
Proof. apply omap_app. Qed.

Lemma destroyed_destroy_calls d l :
  (forall a, a ∈ l -> is_Some (listener_at d a)) ->
  destroyed (destroy_calls d l) = l.
Proof.
  unfold destroyed, destroy_calls.
  induction l as [|a l IH]; intros Hl; [done|]. csimpl.
  destruct (Hl a) as [li ->]; [left|]. csimpl.
  rewrite IH; [done|]. intros b Hb. apply Hl. by right.
Qed.

(** C9.  From a display whose frame list is well formed, after any
    sequence of [frame(key)] requests of live clients,
    [wl_display_post_frame(time)] posts [key(key, time)] from the display
    object to the client of each listener, in the order of the frame list,
    first the listeners that were there and then those of the requests in
    the order they came (a request that got no memory registers nothing).
    It calls the destroy function once on each listener, empties the frame
    list, takes each listener out of the resource list of every client and
    frees it; a second [wl_display_post_frame] then does nothing. *)
Theorem frame_listeners_fire_once d reqs time time' :
  frames_wf d ->
  Forall (fun r => is_Some (clients d !! r.1)) reqs ->
  exists d1 d2 disp,
    heap d !! display_object ≫= cell_as_object = Some disp /\
    frame_requests d reqs = Done d1 /\
    wl_display_post_frame d1 time = Done d2 /\
    posted d2
    = posted d1
      ++ map (key_event (object_id disp) time)
           (listeners d (frame_list d) ++ granted (next_alloc d) reqs) /\
    destroyed (trace d2) = destroyed (trace d) ++ frame_list d1 /\
    NoDup (frame_list d1) /\
    length (frame_list d1)
    = length (listeners d (frame_list d) ++ granted (next_alloc d) reqs) /\
    frame_list d2 = [] /\
    (forall a c cl, a ∈ frame_list d1 -> clients d2 !! c = Some cl ->
                    a ∉ resource_list cl) /\
    (forall a, a ∈ frame_list d1 -> heap d2 !! a = None) /\
    wl_display_post_frame d2 time' = Done d2.
Proof.
  intros Hwf Hreqs.
  destruct (frame_requests_ok reqs d Hwf Hreqs)
    as (d1 & Hreq & Hwf1 & Hls & Ht1 & Hd1).
  destruct (wf_display d Hwf) as [disp Hd].
  destruct (post_frame_loop_ok (frame_list d1) d1 disp time)
    as (d2 & Hloop & Hp & Hlen & Ht & Hf & Hh & Hcs & _).
  { apply (wf_nodup d1 Hwf1). }
  { apply (wf_listeners d1 Hwf1). }
  { by rewrite Hd1. }
  exists d1, d2, disp. split; [done|]. split; [done|]. split; [done|].
  split; [by rewrite Hp, Hls|].
  split.
  { rewrite Ht, destroyed_app, Ht1, destroyed_destroy_calls; [done|].
    intros a Ha. destruct (wf_listeners d1 Hwf1 a Ha) as (li & -> & _).
    done. }
  split; [apply (wf_nodup d1 Hwf1)|].
  split; [by rewrite <- Hlen, Hls|].
  split; [rewrite Hf; apply unlink_all_self|].
  split.
  { intros a c cl Ha Hc Hin. rewrite Hcs, lookup_fmap in Hc.
    destruct (clients d1 !! c) as [cl1|]; [|discriminate].
    injection Hc as <-. cbn [resource_list set_resource_list] in Hin.
    apply elem_of_unlink_all in Hin. tauto. }
  split.
  { intros a Ha. rewrite Hh. clear -Ha.
    generalize (heap d1). induction (frame_list d1) as [|b l IH];
      intros m; [by apply elem_of_nil in Ha|].
    cbn [foldl]. destruct (decide (a ∈ l)) as [Hl|Hl]; [by apply IH|].
    apply elem_of_cons in Ha as [->|?]; [|done].
    clear IH. revert m. induction l as [|c l IH]; intros m;
      [apply lookup_delete_eq|].
    cbn [foldl]. rewrite delete_delete. apply IH.
    rewrite not_elem_of_cons in Hl. tauto. }
  unfold wl_display_post_frame. rewrite Hf, unlink_all_self. done.
Qed.

End Facts.

Lemma wl_display_add_global_null_func_aborts_witness :
  @wl_display_add_global debug_environment fresh_display
    (Some display_object) None = Aborted.
Proof.
  apply (wl_display_add_global_null_func_aborts (H := debug_environment)
           fresh_display display_object).
  reflexivity.
Defined.

(** The first client of a fresh display: after 192 and after 193 resources
    the only [range] event posted is the first grant, [range(256)];
    [range(512)] is there after the 194th. *)
Lemma range_not_posted_at_resource_192 :
  range_bases_after 192 = Some [[arg_uint 256]] /\
  range_bases_after 193 = Some [[arg_uint 256]] /\
  range_bases_after 194 = Some [[arg_uint 256]; [arg_uint 512]].
Proof. vm_compute. done. Qed.

Lemma range_grants_witness :
  exists d1 globals,
    @wl_client_create release_environment stocked_display []
    = Done (Some (next_alloc stocked_display), d1) /\
    posted d1
    = posted stocked_display
      ++ (next_alloc stocked_display,
          range_event 1 (client_id_range stocked_display))
         :: globals /\
    Forall (fun e => event_opcode_of e.2 = WL_DISPLAY_GLOBAL) globals /\
    id_count <$> clients d1 !! next_alloc stocked_display = Some 256 /\
    exists d2,
      add_resources d1 (next_alloc stocked_display) (seq 2 194) = Done d2 /\
      ((length (seq 2 194) <= 193)%nat ->
       posted d2 = posted d1 /\
       id_count <$> clients d2 !! next_alloc stocked_display
       = Some (256 - Z.of_nat (length (seq 2 194)))) /\
      (length (seq 2 194) = 194%nat ->
       posted d2
       = posted d1
         ++ [(next_alloc stocked_display,
              range_event 1
                (wrap32 (client_id_range stocked_display + 256)))]).
Proof.
  apply (range_grants (H := release_environment) stocked_display []
           {| object_interface := wl_display_interface;
              object_implementation := Some display_interface;
              object_id := 1 |}
           (seq 2 194)).
  - reflexivity.
  - vm_compute. reflexivity.
  - apply (bool_decide_unpack _). vm_compute. exact I.
  - apply (bool_decide_unpack _). vm_compute. exact I.
Defined.

Section Runs.

#[local] Existing Instance release_environment.



Lemma one_client_state_wf : frames_wf one_client_state.
Proof.
  constructor.
  - vm_compute. constructor.
  - intros a Ha. vm_compute in Ha. by apply elem_of_nil in Ha.
  - vm_compute. eauto.
  - intros a [c Hc].
    assert (Hall : map_Forall (fun a _ => (a < 3)%nat) (heap one_client_state))
      by (apply (bool_decide_unpack _); vm_compute; exact I).
    apply (Hall a c Hc).
Qed.

Lemma frame_listeners_fire_once_witness :
  exists d1 d2 disp,
    heap one_client_state !! display_object ≫= cell_as_object = Some disp /\
    @frame_requests release_environment one_client_state
      [(2%nat, 10); (2%nat, 11)] = Done d1 /\
    wl_display_post_frame d1 5 = Done d2 /\
    posted d2
    = posted d1
      ++ map (key_event (object_id disp) 5)
           (listeners one_client_state (frame_list one_client_state)
            ++ @granted release_environment (next_alloc one_client_state)
                 [(2%nat, 10); (2%nat, 11)]) /\
    destroyed (trace d2)
    = destroyed (trace one_client_state) ++ frame_list d1 /\
    NoDup (frame_list d1) /\
    length (frame_list d1)
    = length (listeners one_client_state (frame_list one_client_state)
              ++ @granted release_environment (next_alloc one_client_state)
                   [(2%nat, 10); (2%nat, 11)]) /\
    frame_list d2 = [] /\
    (forall a c cl, a ∈ frame_list d1 -> clients d2 !! c = Some cl ->
                    a ∉ resource_list cl) /\
    (forall a, a ∈ frame_list d1 -> heap d2 !! a = None) /\
    wl_display_post_frame d2 6 = Done d2.
Proof.
  apply (frame_listeners_fire_once (H := release_environment)
           one_client_state [(2%nat, 10); (2%nat, 11)] 5 6).
  - exact one_client_state_wf.
  - repeat constructor; vm_compute; eauto.
Defined.

(** What the two requests and the frame come to on that display. *)
Example frame_listeners_run :
  (d1 ← @frame_requests release_environment one_client_state
          [(2%nat, 10); (2%nat, 11)];
   d2 ← wl_display_post_frame d1 5;
   Done (drop 2 (posted d2), frame_list d1, frame_list d2, trace d2))
  = Done ([ (2%nat, {| event_sender := 1; event_opcode_of := WL_DISPLAY_KEY;
                       event_args := [arg_uint 10; arg_uint 5] |});
            (2%nat, {| event_sender := 1; event_opcode_of := WL_DISPLAY_KEY;
                       event_args := [arg_uint 11; arg_uint 5] |}) ],
          [3; 4]%nat, [], [t_destroy 3 2; t_destroy 4 2]).
Proof. vm_compute. reflexivity. Qed.

End Runs.

End ServerFacts.

(** * More facts about the client *)

Module ClientMore.

Import Client.

(** ** Connecting *)

(** X1.  [connect_to_socket] leaks no descriptor: when it returns 0 it has
    made one [connect] on the descriptor that [socket] returned, the kernel
    accepted it, and the descriptor is still open; in every other case it
    returns -1, and if [socket] had returned a descriptor the last thing it
    did was to close it. *)
Theorem connect_to_socket_closes_on_failure env k name errno0 :
  (returned (connect_to_socket env k name errno0) = 0 /\
   connect_fails k = None /\
   errno_after (connect_to_socket env k name errno0) = errno0 /\
   (sys_close (socket_returns k)
    ∉ syscalls (connect_to_socket env k name errno0)) /\
   exists path size,
     syscalls (connect_to_socket env k name errno0)
     = [sys_socket; sys_connect (socket_returns k) path size]) \/
  (returned (connect_to_socket env k name errno0) = -1 /\
   (sys_socket ∈ syscalls (connect_to_socket env k name errno0) ->
    0 <= socket_returns k ->
    last (syscalls (connect_to_socket env k name errno0))
    = Some (sys_close (socket_returns k)))).
Proof.
  unfold connect_to_socket.
  destruct (XDG_RUNTIME_DIR env) as [dir|];
    [|right; split; [done|]; intros Hin; by apply elem_of_nil in Hin].
  destruct (socket_returns k <? 0) eqn:Hs;
    [right; split; [done|]; intros _ ?; lia|].
  destruct (sun_path_size <? _); [right; done|].
  destruct (connect_fails k); [right; done|].
  left. cbn. repeat split; [|eauto].
  rewrite !elem_of_cons. intros [?|[?|Hnil]]; [done..|].
  by apply elem_of_nil in Hnil.
Qed.

(** X2.  With the runtime directory set and a descriptor at hand,
    [connect_to_socket] tries to connect exactly when the directory, a
    slash, the socket name and the final zero fit the 108 bytes of
    [sun_path], and then to that path; a longer path gives -1 with
    [ENAMETOOLONG] and no [connect].  The name is the argument, else
    [WAYLAND_DISPLAY], else "wayland-0". *)
Theorem connect_to_socket_path_limit env k name errno0 dir :
  XDG_RUNTIME_DIR env = Some dir ->
  0 <= socket_returns k ->
  (Z.of_nat (String.length dir) + Z.of_nat (String.length (socket_name env name))
   + 2 <= 108 ->
   exists rest,
     syscalls (connect_to_socket env k name errno0)
     = sys_socket
       :: sys_connect (socket_returns k)
            (dir ++ "/" ++ socket_name env name)%string
            (4 + Z.of_nat (String.length dir)
             + Z.of_nat (String.length (socket_name env name)))
       :: rest) /\
  (108 < Z.of_nat (String.length dir)
         + Z.of_nat (String.length (socket_name env name)) + 2 ->
   returned (connect_to_socket env k name errno0) = -1 /\
   errno_after (connect_to_socket env k name errno0) = ENAMETOOLONG /\
   syscalls (connect_to_socket env k name errno0)
   = [sys_socket; sys_close (socket_returns k)]).
Proof.
  intros Hdir Hs. unfold connect_to_socket. rewrite Hdir.
  rewrite (proj2 (Z.ltb_ge (socket_returns k) 0)) by lia.
  assert (Hname : match match name with
                        | Some n => Some n
                        | None => WAYLAND_DISPLAY env
                        end with
                  | Some n => n
                  | None => "wayland-0"
                  end = socket_name env name).
  { unfold socket_name. destruct name; [done|].
    by destruct (WAYLAND_DISPLAY env). }
  rewrite Hname. unfold sun_path_size. split; intros Hlen.
  - match goal with
    | |- context [108 <? ?x] => destruct (Z.ltb_spec 108 x); [lia|]
    end.
    assert (Hsize : forall a b, 2 + (a + 1 + b + 1) = 4 + a + b)
      by (intros; lia).
    destruct (connect_fails k); cbn [syscalls]; rewrite Hsize; eauto.
  - match goal with
    | |- context [108 <? ?x] => destruct (Z.ltb_spec 108 x); [done|lia]
    end.
Qed.

Lemma connect_to_socket_path_limit_witness :
  (Z.of_nat (String.length "/run/user/1000")
   + Z.of_nat (String.length (socket_name user_environ None)) + 2 <= 108 ->
   exists rest,
     syscalls (connect_to_socket user_environ willing_kernel None 0)
     = sys_socket
       :: sys_connect (socket_returns willing_kernel)
            ("/run/user/1000" ++ "/" ++ socket_name user_environ None)%string
            (4 + Z.of_nat (String.length "/run/user/1000")
             + Z.of_nat (String.length (socket_name user_environ None)))
       :: rest) /\
  (108 < Z.of_nat (String.length "/run/user/1000")
         + Z.of_nat (String.length (socket_name user_environ None)) + 2 ->
   returned (connect_to_socket user_environ willing_kernel None 0) = -1 /\
   errno_after (connect_to_socket user_environ willing_kernel None 0)
   = ENAMETOOLONG /\
   syscalls (connect_to_socket user_environ willing_kernel None 0)
   = [sys_socket; sys_close (socket_returns willing_kernel)]).
Proof.
  apply (connect_to_socket_path_limit user_environ willing_kernel None 0
           "/run/user/1000").
  - reflexivity.
  - cbn [socket_returns willing_kernel]. lia.
Defined.

Section Registry.

Context `{Environment}.

(** ** The registry of globals *)

Lemma find_global_match l interface version :
  (exists g, g ∈ l /\ global_matches interface version g) ->
  forall k, find_global (l ++ k) interface version
            = find_global l interface version.
Proof.
  induction l as [|g l IH]; intros (g' & Hin & Hm) k.
  - by apply elem_of_nil in Hin.
  - cbn [app find_global].
    destruct (String.eqb interface (global_interface g)
              && (version <=? global_version g)) eqn:E; [done|].
    apply IH. exists g'. split; [|done].
    apply elem_of_cons in Hin as [->|?]; [|done].
    destruct Hm as [Hi Hv]. apply andb_false_iff in E as [E|E].
    + apply String.eqb_neq in E. congruence.
    + lia.
Qed.

Lemma find_global_no_match l interface version :
  (forall g, g ∈ l -> ~ global_matches interface version g) ->
  forall k, find_global (l ++ k) interface version
            = find_global k interface version.
Proof.
  induction l as [|g l IH]; intros Hno k; [done|].
  cbn [app find_global].
  destruct (String.eqb interface (global_interface g)
            && (version <=? global_version g)) eqn:E.
  - exfalso. apply (Hno g); [left|]. apply andb_true_iff in E as [E1 E2].
    apply String.eqb_eq in E1. split; [done|lia].
  - apply IH. intros g' Hg'. apply Hno. by right.
Qed.

Lemma notify_quiet d id interface version :
  quiet_global_handlers ->
  notify_global_listeners d id interface version
  = set_trace d
      (trace d
       ++ map (fun l => t_global_handler (listener_handler l) id interface
                          version (listener_data l))
            (global_listener_list d)).
Proof.
  intros Hq. unfold notify_global_listeners.
  generalize (global_listener_list d). intros ls. revert d.
  induction ls as [|l ls IH]; intros d.
  - cbn. rewrite app_nil_r. by destruct d.
  - cbn [foldl map]. rewrite Hq, IH. unfold record, set_trace. cbn.
    by rewrite <- app_assoc.
Qed.

Lemma replay_quiet handler data gs : forall d,
  quiet_global_handlers ->
  foldl (call_global_handler handler data) d gs
  = set_trace d
      (trace d
       ++ map (fun g => t_global_handler handler (global_id g)
                          (global_interface g) (global_version g) data) gs).
Proof.
  induction gs as [|g gs IH]; intros d Hq.
  - cbn. rewrite app_nil_r. by destruct d.
  - cbn [foldl map]. unfold call_global_handler at 2. rewrite Hq, IH by done.
    unfold record, set_trace. cbn. by rewrite <- app_assoc.
Qed.

(** X3.  A global that the server announces is appended to the registry.
    A query that an earlier global answers still gets that global, and a
    query for the new interface at a version up to the announced one, which
    no earlier global answers, gets the new id: [wl_display_get_global]
    returns the first match in the order of announcement. *)
Theorem global_then_get_global d id interface version :
  quiet_global_handlers ->
  malloc_fails (next_alloc d) = false ->
  exists d1,
    display_handle_global d id interface version = Done d1 /\
    global_list d1
    = global_list d
      ++ [ {| global_id := id; global_interface := interface;
              global_version := version |} ] /\
    (forall i v, (exists g, g ∈ global_list d /\ global_matches i v g) ->
                 wl_display_get_global d1 i v = wl_display_get_global d i v) /\
    (forall v, v <= version ->
               (forall g, g ∈ global_list d ->
                          ~ global_matches interface v g) ->
               wl_display_get_global d1 interface v = id).
Proof.
  intros Hq Hm. unfold display_handle_global, malloc. rewrite Hm.
  rewrite notify_quiet by done. eexists. split; [reflexivity|].
  cbn [global_list set_trace set_global_list set_next_alloc].
  split; [done|]. unfold wl_display_get_global.
  cbn [global_list set_trace set_global_list set_next_alloc]. split.
  - intros i v Hex. by apply find_global_match.
  - intros v Hv Hno. rewrite find_global_no_match by done.
    cbn [find_global global_interface global_version global_id].
    rewrite String.eqb_refl. by rewrite (proj2 (Z.leb_le v version)) by lia.
Qed.

(** X4.  A new global listener is linked at the tail of the listeners and
    is called at once for every global announced so far, in the order of
    their announcement; the registry is as before. *)
Theorem add_global_listener_replays d handler data :
  quiet_global_handlers ->
  malloc_fails (next_alloc d) = false ->
  exists d1,
    wl_display_add_global_listener d handler data
    = (Some {| listener_handler := handler; listener_data := data |}, d1) /\
    global_listener_list d1
    = global_listener_list d
      ++ [ {| listener_handler := handler; listener_data := data |} ] /\
    trace d1
    = trace d
      ++ map (fun g => t_global_handler handler (global_id g)
                         (global_interface g) (global_version g) data)
           (global_list d) /\
    global_list d1 = global_list d.
Proof.
  intros Hq Hm. unfold wl_display_add_global_listener, malloc. rewrite Hm.
  rewrite replay_quiet by done. eexists. split; [reflexivity|]. done.
Qed.

(** X5.  When a global is announced every listener is called for it once,
    in the order in which the listeners were added. *)
Theorem global_notifies_in_order d id interface version :
  quiet_global_handlers ->
  malloc_fails (next_alloc d) = false ->
  exists d1,
    display_handle_global d id interface version = Done d1 /\
    trace d1
    = trace d
      ++ map (fun l => t_global_handler (listener_handler l) id interface
                         version (listener_data l))
           (global_listener_list d) /\
    global_listener_list d1 = global_listener_list d.
Proof.
  intros Hq Hm. unfold display_handle_global, malloc. rewrite Hm.
  rewrite notify_quiet by done. eexists. split; [reflexivity|]. done.
Qed.

Lemma remove_global_absent l id :
  (forall g, g ∈ l -> global_id g <> id) -> remove_global l id = l.
Proof.
  induction l as [|g l IH]; intros Hno; [done|]. cbn [remove_global].
  rewrite (proj2 (Z.eqb_neq (global_id g) id)) by (apply Hno; left).
  rewrite IH; [done|]. intros g' Hg'. apply Hno. by right.
Qed.

Lemma remove_global_last l g :
  (forall g', g' ∈ l -> global_id g' <> global_id g) ->
  remove_global (l ++ [g]) (global_id g) = l.
Proof.
  induction l as [|g0 l IH]; intros Hno.
  - cbn. by rewrite Z.eqb_refl.
  - cbn [app remove_global].
    rewrite (proj2 (Z.eqb_neq (global_id g0) (global_id g)))
      by (apply Hno; left).
    rewrite IH; [done|]. intros g' Hg'. apply Hno. by right.
Qed.

(** X6.  [global_remove] for an id that no global of the registry has
    changes nothing, and announcing a global under such an id and removing
    it again gives the registry back as it was. *)
Theorem global_remove_round_trip d id interface version :
  quiet_global_handlers ->
  malloc_fails (next_alloc d) = false ->
  (forall g, g ∈ global_list d -> global_id g <> id) ->
  global_list (display_handle_global_remove d id) = global_list d /\
  exists d1,
    display_handle_global d id interface version = Done d1 /\
    global_list (display_handle_global_remove d1 id) = global_list d.
Proof.
  intros Hq Hm Hno. split.
  - unfold display_handle_global_remove. cbn [global_list set_global_list].
    by apply remove_global_absent.
  - unfold display_handle_global, malloc. rewrite Hm.
    rewrite notify_quiet by done. eexists. split; [reflexivity|].
    unfold display_handle_global_remove.
    cbn [global_list set_global_list set_trace set_next_alloc].
    apply (remove_global_last (global_list d)
             {| global_id := id; global_interface := interface;
                global_version := version |}). done.
Qed.

End Registry.

Section Dispatch.

Context `{Environment}.

(** ** Frames that nobody listens to *)

Lemma handle_event_mute d id p proxy opcode size :
  wl_map_lookup (objects d) id = entry_proxy p ->
  proxy_heap d !! p = Some proxy ->
  object_implementation proxy = None ->
  handle_event d id opcode size = Done (0, wl_connection_consume d size).
Proof. intros Hl Hp Hi. unfold handle_event. by rewrite Hl, Hp, Hi. Qed.

Lemma consume_nothing d : wl_connection_consume d 0 = d.
Proof.
  unfold wl_connection_consume, set_connection. cbn.
  by destruct d as [? [] ? ? ? ? ? ? ? ? ? ? ? ?].
Qed.

Lemma iterate_loop_skips id p proxy fs : forall fuel d rest len,
  wl_map_lookup (objects d) id = entry_proxy p ->
  proxy_heap d !! p = Some proxy ->
  object_implementation proxy = None ->
  Forall (fun f => frame_object f = id /\ frame_ok f) fs ->
  conn_in (connection d) = encode_frames fs ++ rest ->
  Z.of_nat (length (encode_frames fs)) <= len ->
  iterate_loop (length fs + fuel) d len
  = iterate_loop fuel
      (wl_connection_consume d (Z.of_nat (length (encode_frames fs))))
      (len - Z.of_nat (length (encode_frames fs))).
Proof.
  induction fs as [|f fs IH]; intros fuel d rest len Hl Hp Hi Hfs Hin Hlen.
  - cbn [length encode_frames map concat Nat.add]. rewrite Z.sub_0_r.
    by rewrite consume_nothing.
  - apply Forall_cons in Hfs as [[Hid Hok] Hfs].
    rewrite encode_frames_cons in *. rewrite length_app in Hlen.
    pose proof (length_encode_frame f) as Hsz.
    pose proof (frame_size_pos f) as Hpos.
    cbn [length Nat.add iterate_loop].
    unfold wl_connection_copy. rewrite Hin, <- app_assoc.
    destruct (peek_header f (encode_frames fs ++ rest) Hok)
      as (-> & -> & ->).
    replace (len >? 0) with true by lia.
    replace (len <? 8) with false by lia.
    replace (len <? frame_size f) with false by lia.
    rewrite Hid, (handle_event_mute _ _ p proxy) by done.
    cbn [mbind result_bind Z.eqb].
    rewrite (IH fuel _ rest).
    + rewrite ClientFacts.consume_consume by lia.
      rewrite length_app. f_equal; [f_equal|]; lia.
    + done.
    + done.
    + done.
    + done.
    + unfold wl_connection_consume. cbn [connection set_connection conn_in].
      rewrite Hin, <- app_assoc. apply drop_encode_frame.
    + lia.
Qed.

(** X7.  Events for a proxy that has no listener are taken off the wire
    and dropped.  A call of [wl_display_iterate] appends what the socket
    delivers to the ring, and when the ring then holds frames for that
    proxy, each with a size field that counts its header and its body,
    followed by less than a header, the call consumes all of these frames,
    leaves what follows them in the ring and returns its length; nothing
    was decoded or dispatched, and the map, the heap and the log are as
    before. *)
Theorem events_without_listener_dropped d id p proxy fs tail io rest bs fuel :
  wl_map_lookup (objects d) id = entry_proxy p ->
  proxy_heap d !! p = Some proxy ->
  object_implementation proxy = None ->
  Forall (fun f => frame_object f = id /\ frame_ok f) fs ->
  fatal_error d = false ->
  Z.land WL_DISPLAY_READABLE (mask d) <> 0 ->
  socket d = io :: rest ->
  io_received io = Some bs ->
  conn_in (connection d) ++ bs = encode_frames fs ++ tail ->
  (length tail < 8)%nat ->
  (length fs < fuel)%nat ->
  exists d1,
    wl_display_iterate fuel d WL_DISPLAY_READABLE
    = Done (Z.of_nat (length tail), d1) /\
    conn_in (connection d1) = tail /\
    socket d1 = rest /\
    conn_out (connection d1) = conn_out (connection d) /\
    trace d1 = trace d /\
    objects d1 = objects d /\ proxy_heap d1 = proxy_heap d /\
    log d1 = log d.
Proof.
  intros Hl Hp Hi Hfs Hfatal Hmask Hsock Hrecv Hring Htail Hfuel.
  unfold wl_display_iterate.
  rewrite Hfatal, (ClientFacts.land_readable_nonzero _ Hmask). cbn [Z.eqb].
  rewrite (ClientFacts.wl_connection_data_appends d io rest bs Hsock Hrecv),
    Hring.
  cbn [mbind result_bind].
  rewrite (proj2 (Z.ltb_ge (Z.of_nat (length (encode_frames fs ++ tail))) 0))
    by lia.
  replace fuel with (length fs + S (fuel - length fs - 1))%nat by lia.
  erewrite (iterate_loop_skips id p proxy fs _ _ tail).
  - rewrite length_app, Nat2Z.inj_add.
    replace (Z.of_nat (length (encode_frames fs)) + Z.of_nat (length tail)
             - Z.of_nat (length (encode_frames fs)))
      with (Z.of_nat (length tail)) by lia.
    rewrite ClientFacts.iterate_loop_tail by lia.
    eexists. split; [reflexivity|].
    cbn [wl_connection_consume set_connection connection conn_in conn_out
         set_socket socket trace objects proxy_heap log].
    rewrite Nat2Z.id, drop_app_length. done.
  - done.
  - done.
  - done.
  - done.
  - reflexivity.
  - rewrite length_app. lia.
Qed.

(** ** A frame that arrives in two pieces *)

Lemma iterate_loop_short fuel d len f k :
  frame_ok f ->
  conn_in (connection d) = take k (encode_frame f) ->
  len = Z.of_nat k ->
  0 < len < frame_size f ->
  iterate_loop (S fuel) d len = Done (len, d).
Proof.
  intros Hok Hin -> Hlen. cbn [iterate_loop].
  rewrite (proj2 (Z.gtb_gt (Z.of_nat k) 0)) by lia.
  destruct (Z.ltb_spec (Z.of_nat k) 8) as [|H8]; [done|].
  unfold wl_connection_copy. rewrite Hin, take_take.
  replace (8 `min` k)%nat with 8%nat by lia.
  pose proof (peek_header f [] Hok) as Hpeek. rewrite app_nil_r in Hpeek.
  destruct Hpeek as (-> & -> & ->).
  by rewrite (proj2 (Z.ltb_lt (Z.of_nat k) (frame_size f))) by lia.
Qed.

(** X8.  A frame that the socket delivers in two pieces.  The call that
    receives the first piece returns the number of bytes now buffered and
    leaves them in the ring: nothing is decoded or dispatched and the map
    is as before.  The call that receives the rest then does exactly what
    one call does that receives the whole frame at once. *)
Theorem split_frame_is_reassembled d f k io1 io2 rest fuel :
  frame_ok f ->
  (0 < k)%nat -> Z.of_nat k < frame_size f ->
  fatal_error d = false ->
  Z.land WL_DISPLAY_READABLE (mask d) <> 0 ->
  conn_in (connection d) = [] ->
  socket d = io1 :: io2 :: rest ->
  io_received io1 = Some (take k (encode_frame f)) ->
  io_received io2 = Some (drop k (encode_frame f)) ->
  exists d1,
    wl_display_iterate (S fuel) d WL_DISPLAY_READABLE
    = Done (Z.of_nat k, d1) /\
    conn_in (connection d1) = take k (encode_frame f) /\
    trace d1 = trace d /\ objects d1 = objects d /\
    proxy_heap d1 = proxy_heap d /\ log d1 = log d /\
    wl_display_iterate (S fuel) d1 WL_DISPLAY_READABLE
    = wl_display_iterate (S fuel)
        (set_socket d
           ({| io_sent := io_sent io2;
               io_received := Some (encode_frame f) |} :: rest))
        WL_DISPLAY_READABLE.
Proof.
  intros Hok Hk Hsize Hfatal Hmask Hin Hsock Hr1 Hr2.
  pose proof (length_encode_frame f) as Hlen.
  assert (Htake : length (take k (encode_frame f)) = k).
  { rewrite length_take. lia. }
  eexists. split; [|split; [|split; [|split; [|split; [|split]]]]].
  - unfold wl_display_iterate.
    rewrite Hfatal, (ClientFacts.land_readable_nonzero _ Hmask).
    cbn [Z.eqb].
    rewrite (ClientFacts.wl_connection_data_appends d io1 (io2 :: rest) _ Hsock Hr1).
    rewrite Hin, app_nil_l, Htake. cbn [mbind result_bind].
    rewrite (proj2 (Z.ltb_ge (Z.of_nat k) 0)) by lia.
    apply (iterate_loop_short fuel _ _ f k); [done|done|done|lia].
  - done.
  - done.
  - done.
  - done.
  - done.
  - unfold wl_display_iterate.
    cbn [fatal_error mask set_connection set_socket].
    rewrite Hfatal, (ClientFacts.land_readable_nonzero _ Hmask).
    cbn [Z.eqb].
    erewrite (ClientFacts.wl_connection_data_appends _ io2 rest); [|done|done].
    erewrite (ClientFacts.wl_connection_data_appends _ _ rest); [|done|done].
    cbn [connection set_connection set_socket conn_in conn_out].
    by rewrite Hin, app_nil_l, take_drop.
Qed.

(** ** A frame that is dispatched *)

Lemma create_proxies_no_new_id args : forall d,
  no_new_id args -> create_proxies d args = (Some args, d).
Proof.
  induction args as [|a args IH]; intros d Hn; [done|].
  apply Forall_cons in Hn as [Ha Hn].
  destruct a; cbn [create_proxies]; try done; by rewrite IH.
Qed.

(** What [wl_display_iterate] does with one whole frame for a proxy that
    has a listener, when the frame decodes to arguments without
    [new_id]: the listener is called on the display with the frame taken
    off the ring, and its result is the result of the call. *)
Lemma wl_display_iterate_one_frame d f p proxy implementation message args
  io rest fuel d4 :
  frame_ok f ->
  fatal_error d = false ->
  Z.land WL_DISPLAY_READABLE (mask d) <> 0 ->
  conn_in (connection d) = [] ->
  socket d = io :: rest ->
  io_received io = Some (encode_frame f) ->
  wl_map_lookup (objects d) (frame_object f) = entry_proxy p ->
  proxy_heap d !! p = Some proxy ->
  object_implementation proxy = Some implementation ->
  events (object_interface proxy) !! Z.to_nat (frame_opcode f)
  = Some message ->
  demarshal message (encode_frame f) (objects d) = inr args ->
  no_new_id args ->
  wl_closure_invoke (delivered d rest f) args p (frame_object f)
    implementation (frame_opcode f) (user_data proxy) = Done d4 ->
  wl_display_iterate (S (S fuel)) d WL_DISPLAY_READABLE = Done (0, d4).
Proof.
  intros Hok Hfatal Hmask Hin Hsock Hrecv Hl Hp Hi Hev Hdem Hn Hinv.
  pose proof (length_encode_frame f) as Hlen.
  pose proof (frame_size_pos f) as Hpos.
  unfold wl_display_iterate.
  rewrite Hfatal, (ClientFacts.land_readable_nonzero _ Hmask). cbn [Z.eqb].
  rewrite (ClientFacts.wl_connection_data_receive d io rest _ Hin Hsock Hrecv).
  cbn [mbind result_bind].
  rewrite (proj2 (Z.ltb_ge (Z.of_nat (length (encode_frame f))) 0)) by lia.
  cbn [iterate_loop]. unfold wl_connection_copy.
  cbn [connection set_connection conn_in].
  pose proof (peek_header f [] Hok) as Hpeek. rewrite app_nil_r in Hpeek.
  destruct Hpeek as (-> & -> & ->).
  rewrite (proj2 (Z.gtb_gt _ 0)) by lia.
  rewrite (proj2 (Z.ltb_ge _ 8)) by lia.
  rewrite (proj2 (Z.ltb_ge _ (frame_size f))) by lia.
  unfold handle_event. cbn [objects set_connection set_socket proxy_heap].
  rewrite Hl, Hp, Hi, Hev. unfold wl_connection_demarshal.
  cbn [connection set_connection conn_in objects set_socket].
  assert (Hwhole : Z.to_nat (frame_size f) = length (encode_frame f)) by lia.
  rewrite Hwhole, firstn_all, Hdem.
  rewrite create_proxies_no_new_id by done.
  unfold wl_connection_consume.
  cbn [connection set_connection conn_in conn_out set_socket].
  rewrite Hwhole, drop_all.
  unfold delivered in Hinv. cbn [mbind result_bind closure_args].
  change (set_connection
            (set_connection (set_socket d rest)
               {| conn_in := encode_frame f;
                  conn_out := conn_out (connection d) |})
            {| conn_in := []; conn_out := conn_out (connection d) |})
    with (set_connection (set_socket d rest)
            {| conn_in := []; conn_out := conn_out (connection d) |}).
  rewrite Hinv. cbn [mbind result_bind Z.eqb].
  rewrite Hlen, Z.sub_diag. done.
Qed.

(** X13.  An event for a proxy with a listener of the application: the
    frame is taken off the ring, decoded once against the signature of
    the event, and the handler is called once with the decoded arguments
    and the [user_data] of the proxy; the call returns 0. *)
Theorem event_reaches_listener d f p proxy n message args io rest fuel :
  frame_ok f ->
  fatal_error d = false ->
  Z.land WL_DISPLAY_READABLE (mask d) <> 0 ->
  conn_in (connection d) = [] ->
  socket d = io :: rest ->
  io_received io = Some (encode_frame f) ->
  wl_map_lookup (objects d) (frame_object f) = entry_proxy p ->
  proxy_heap d !! p = Some proxy ->
  object_implementation proxy = Some (user_listener n) ->
  events (object_interface proxy) !! Z.to_nat (frame_opcode f)
  = Some message ->
  demarshal message (encode_frame f) (objects d) = inr args ->
  no_new_id args ->
  (forall d', user_handler n (frame_opcode f) args (user_data proxy) d' = d') ->
  exists d1,
    wl_display_iterate (S (S fuel)) d WL_DISPLAY_READABLE = Done (0, d1) /\
    trace d1
    = trace d ++ [t_demarshal (frame_object f) (frame_opcode f);
                  t_invoke (frame_object f) (frame_opcode f)
                    (user_listener n) args] /\
    conn_in (connection d1) = [] /\
    objects d1 = objects d /\ proxy_heap d1 = proxy_heap d.
Proof.
  intros Hok Hfatal Hmask Hin Hsock Hrecv Hl Hp Hi Hev Hdem Hn Hquiet.
  exists (record (delivered d rest f)
            (t_invoke (frame_object f) (frame_opcode f) (user_listener n)
               args)).
  split.
  - apply (wl_display_iterate_one_frame d f p proxy (user_listener n)
             message args io rest); try done.
    cbn [wl_closure_invoke]. by rewrite Hquiet.
  - unfold delivered, record. cbn. by rewrite <- app_assoc.
Qed.

(** X14.  A [global] event on the wire ends in the registry: after the
    call of [wl_display_iterate] that receives it, the announced global is
    the last of the list, and [wl_display_get_global] answers with its id a
    query for its interface that no earlier global answers. *)
Theorem global_event_registers d f p proxy name interface version io rest
  fuel :
  frame_ok f -> frame_opcode f = 1 ->
  fatal_error d = false ->
  Z.land WL_DISPLAY_READABLE (mask d) <> 0 ->
  conn_in (connection d) = [] ->
  socket d = io :: rest ->
  io_received io = Some (encode_frame f) ->
  wl_map_lookup (objects d) (frame_object f) = entry_proxy p ->
  proxy_heap d !! p = Some proxy ->
  object_implementation proxy = Some display_listener ->
  object_interface proxy = wl_display_interface ->
  demarshal {| message_name := "global"; message_signature := "usu" |}
    (encode_frame f) (objects d)
  = inr [arg_uint name; arg_string interface; arg_uint version] ->
  quiet_global_handlers ->
  malloc_fails (next_alloc d) = false ->
  exists d1,
    wl_display_iterate (S (S fuel)) d WL_DISPLAY_READABLE = Done (0, d1) /\
    global_list d1
    = global_list d
      ++ [ {| global_id := name; global_interface := interface;
              global_version := version |} ] /\
    ((forall g, g ∈ global_list d -> ~ global_matches interface version g) ->
     wl_display_get_global d1 interface version = name).
Proof.
  intros Hok Hop Hfatal Hmask Hin Hsock Hrecv Hl Hp Hi Hitf Hdem Hq Hm.
  eexists. split; [|split].
  - eapply (wl_display_iterate_one_frame d f p proxy display_listener
              {| message_name := "global"; message_signature := "usu" |});
      try done.
    + by rewrite Hitf, Hop.
    + repeat constructor.
    + rewrite Hop. cbn [wl_closure_invoke].
      unfold display_handle_global, malloc.
      cbn [next_alloc record set_trace delivered set_connection set_socket].
      rewrite Hm. rewrite notify_quiet by done. reflexivity.
  - done.
  - intros Hno. unfold wl_display_get_global.
    cbn [global_list set_trace set_global_list set_next_alloc record
         delivered set_connection set_socket].
    rewrite find_global_no_match by done.
    cbn [find_global global_interface global_version global_id].
    rewrite String.eqb_refl. by rewrite Z.leb_refl.
Qed.

End Dispatch.

Section Requests.

Context `{Environment}.

(** ** Flushing *)





(** ** Requests that cannot be queued *)

Lemma wl_proxy_create_ok d interface :
  malloc_fails (next_alloc d) = false ->
  exists id,
    wl_proxy_create d interface
    = (Some (next_alloc d),
       set_objects
         (set_proxy_heap (set_next_alloc d (S (next_alloc d)))
            (<[next_alloc d := {| object_interface := interface;
                                  object_implementation := None;
                                  object_id := id;
                                  user_data := 0 |}]> (proxy_heap d)))
         (<[id := entry_proxy (next_alloc d)]> (objects d))).
Proof.
  intros Hm. unfold wl_proxy_create, malloc. rewrite Hm.
  unfold wl_map_insert_new. cbn [objects set_next_alloc proxy_heap].
  eexists. reflexivity.
Qed.

Lemma wl_connection_write_cases d bs :
  wl_connection_write d bs = (-1, d) \/
  exists d1,
    wl_connection_write d bs = (0, d1) /\
    objects d1 = objects d /\ proxy_heap d1 = proxy_heap d /\
    next_alloc d1 = next_alloc d /\ user_mem d1 = user_mem d /\
    fatal_error d1 = fatal_error d /\
    conn_out (connection d1) = conn_out (connection d) ++ bs /\
    log d1 = log d.
Proof.
  unfold wl_connection_write. destruct (_ <? _)%nat; [by left|right].
  destruct (conn_out (connection d)) as [|o out];
    [destruct bs as [|b bs]|]; try (eexists; split; [reflexivity|done]).
  unfold connection_update. cbn [update set_mask set_connection].
  destruct (update d); eexists; (split; [reflexivity|done]).
Qed.

Lemma wl_proxy_marshal_cases d p proxy opcode message args :
  proxy_heap d !! p = Some proxy ->
  methods (object_interface proxy) !! Z.to_nat opcode = Some message ->
  exists r d1,
    wl_proxy_marshal d p opcode args = Done (r, d1) /\
    objects d1 = objects d /\ proxy_heap d1 = proxy_heap d /\
    next_alloc d1 = next_alloc d /\ user_mem d1 = user_mem d /\
    fatal_error d1 = fatal_error d /\
    ((exists bs, vmarshal message (object_id proxy) opcode args = Some bs /\
                 r = 0 /\
                 conn_out (connection d1) = conn_out (connection d) ++ bs /\
                 log d1 = log d) \/
     (r = -1 /\ connection d1 = connection d /\ mask d1 = mask d /\
      exists line, log d1 = log d ++ [line])).
Proof.
  intros Hp Hm. unfold wl_proxy_marshal. rewrite Hp, Hm.
  destruct (vmarshal message (object_id proxy) opcode args) as [bs|] eqn:Hv.
  - destruct (wl_connection_write_cases d bs)
      as [->|(d1 & -> & Ho & Hh & Hn & Hu & Hf & Hout & Hlog)].
    + cbn [Z.eqb]. do 2 eexists. split; [reflexivity|].
      repeat (split; [done|]). right. repeat (split; [done|]).
      by eexists.
    + cbn [Z.eqb]. do 2 eexists. split; [reflexivity|].
      repeat (split; [done|]). left. by exists bs.
  - do 2 eexists. split; [reflexivity|].
    repeat (split; [done|]). right. repeat (split; [done|]). by eexists.
Qed.

(** X11.  [wl_display_bind] returns the new proxy whether or not the
    [bind] request could be queued.  When the allocation succeeds the
    result is a proxy of the interface, without listener, registered in the
    map under its id; either the request is at the end of the out-ring, or
    the out-ring is as before and a line was logged. *)
Theorem wl_display_bind_hides_send_failure d dp name interface :
  proxy_heap d !! display_proxy = Some dp ->
  object_interface dp = wl_display_interface ->
  malloc_fails (next_alloc d) = false ->
  (0 < next_alloc d)%nat ->
  exists d1 proxy,
    wl_display_bind d name interface = Done (Some (next_alloc d), d1) /\
    proxy_heap d1 !! next_alloc d = Some proxy /\
    object_interface proxy = interface /\
    object_implementation proxy = None /\
    wl_map_lookup (objects d1) (object_id proxy)
    = entry_proxy (next_alloc d) /\
    ((exists bs,
        conn_out (connection d1) = conn_out (connection d) ++ bs /\
        log d1 = log d) \/
     (conn_out (connection d1) = conn_out (connection d) /\
      exists line, log d1 = log d ++ [line])).
Proof.
  intros Hdp Hitf Hm Hpos. unfold wl_display_bind.
  destruct (wl_proxy_create_ok d interface Hm) as (id & ->).
  set (d0 := set_objects _ _).
  assert (Hdp0 : proxy_heap d0 !! display_proxy = Some dp).
  { subst d0. cbn [proxy_heap set_objects set_proxy_heap].
    rewrite lookup_insert_ne; [done|]. unfold display_proxy. lia. }
  destruct (wl_proxy_marshal_cases d0 display_proxy dp WL_DISPLAY_BIND
              {| message_name := "bind"; message_signature := "usun" |}
              [arg_uint name; arg_string (interface_name interface);
               arg_uint (interface_version interface);
               arg_new_proxy (Some (next_alloc d))] Hdp0)
    as (r & d1 & -> & Hobj & Hheap & _ & _ & _ & Hcases).
  { by rewrite Hitf. }
  cbn [mbind result_bind]. eexists d1, _. split; [reflexivity|].
  rewrite Hheap, Hobj. subst d0.
  cbn [proxy_heap objects set_objects set_proxy_heap].
  rewrite lookup_insert_eq. split; [reflexivity|].
  cbn [object_interface object_implementation object_id].
  unfold wl_map_lookup. rewrite lookup_insert_eq.
  repeat (split; [done|]).
  destruct Hcases as [(bs & _ & _ & Hout & Hlog)|(_ & Hconn & _ & Hlog)].
  - left. by exists bs.
  - right. by rewrite Hconn.
Qed.

(** X10.  [wl_display_roundtrip] when the [sync] request cannot be
    marshalled and no output is pending: [wl_display_sync] returns the
    callback all the same, [wl_display_flush] does not enter its loop, and
    the function tests and returns the [ret] that [wl_display_flush] never
    assigned. *)
Theorem wl_display_roundtrip_unsent_sync d dp fuel :
  proxy_heap d !! display_proxy = Some dp ->
  object_interface dp = wl_display_interface ->
  malloc_fails (S (next_alloc d)) = false ->
  vmarshal {| message_name := "sync"; message_signature := "n" |}
    (object_id dp) WL_DISPLAY_SYNC [arg_new_proxy (Some (S (next_alloc d)))]
  = None ->
  Z.land (mask d) WL_DISPLAY_WRITABLE = 0 ->
  wl_display_roundtrip fuel d = Undefined.
Proof.
  intros Hdp Hitf Hm Hv Hmask. unfold wl_display_roundtrip, wl_display_sync.
  set (d0 := set_user_mem _ _).
  destruct (wl_proxy_create_ok d0 wl_callback_interface Hm) as (id & ->).
  set (d1 := set_objects _ _).
  assert (Hdp1 : proxy_heap d1 !! display_proxy = Some dp).
  { subst d1 d0. cbn [proxy_heap set_objects set_proxy_heap set_user_mem
                      set_next_alloc next_alloc].
    rewrite lookup_insert_ne; [done|]. unfold display_proxy. lia. }
  unfold wl_proxy_marshal. rewrite Hdp1, Hitf.
  change (methods wl_display_interface !! Z.to_nat WL_DISPLAY_SYNC)
    with (Some {| message_name := "sync"; message_signature := "n" |}).
  cbv iota beta.
  change (next_alloc d0) with (S (next_alloc d)). rewrite Hv.
  cbn [mbind result_bind]. unfold wl_proxy_add_listener.
  cbn [proxy_heap set_user_mem wl_log set_log].
  subst d1. cbn [proxy_heap set_objects set_proxy_heap].
  change (next_alloc d0) with (S (next_alloc d)).
  rewrite lookup_insert_eq. cbn [object_implementation mbind result_bind].
  cbn [Z.eqb negb]. unfold wl_display_flush.
  destruct fuel; cbn [wl_display_flush_loop mask set_proxy_heap set_user_mem
                      set_log set_objects set_next_alloc];
    subst d0;
    cbn [mask wl_log set_log set_objects set_proxy_heap set_user_mem
         set_next_alloc];
    by rewrite Hmask.
Qed.

(** ** The listener and the user data of a proxy *)

(** X12.  A proxy takes one listener.  [wl_proxy_add_listener] stores the
    listener and replaces the user data that [wl_proxy_set_user_data] had
    stored; a second call returns -1, logs, and changes neither; a later
    [wl_proxy_set_user_data] replaces the user data and keeps the listener;
    the id of the proxy is the same throughout. *)
Theorem proxy_listener_and_user_data d p proxy l1 l2 a b c e :
  proxy_heap d !! p = Some proxy ->
  object_implementation proxy = None ->
  exists d1 d2 d3 d4,
    wl_proxy_set_user_data d p a = Done d1 /\
    wl_proxy_get_user_data d1 p = Done a /\
    wl_proxy_add_listener d1 p l1 b = Done (0, d2) /\
    wl_proxy_get_user_data d2 p = Done b /\
    wl_proxy_add_listener d2 p l2 c = Done (-1, d3) /\
    log d3 = log d ++ ["proxy already has listener"] /\
    proxy_heap d3 = proxy_heap d2 /\
    wl_proxy_set_user_data d3 p e = Done d4 /\
    proxy_heap d4 !! p
    = Some {| object_interface := object_interface proxy;
              object_implementation := Some l1;
              object_id := object_id proxy;
              user_data := e |} /\
    wl_proxy_get_id d4 p = wl_proxy_get_id d p.
Proof.
  intros Hp Hi.
  unfold wl_proxy_set_user_data, wl_proxy_get_user_data,
    wl_proxy_add_listener, wl_proxy_get_id.
  rewrite Hp. do 4 eexists.
  split; [reflexivity|].
  cbn [proxy_heap set_proxy_heap]. rewrite lookup_insert_eq.
  split; [reflexivity|].
  cbn [object_implementation]. rewrite Hi.
  split; [reflexivity|].
  cbn [proxy_heap set_proxy_heap]. rewrite lookup_insert_eq.
  split; [reflexivity|].
  cbn [object_implementation].
  split; [reflexivity|].
  split; [reflexivity|].
  split; [reflexivity|].
  cbn [proxy_heap set_proxy_heap wl_log set_log]. rewrite lookup_insert_eq.
  split; [reflexivity|].
  cbn [proxy_heap set_proxy_heap]. rewrite lookup_insert_eq.
  done.
Qed.

End Requests.

(** ** The model at work *)

Lemma global_then_get_global_witness :
  exists d1,
    @display_handle_global plain_environment with_registry 5 "wl_shm" 1
    = Done d1 /\
    wl_display_get_global d1 "wl_compositor" 1 = 3 /\
    wl_display_get_global d1 "wl_shm" 1 = 5.
Proof.
  destruct (global_then_get_global (H := plain_environment) with_registry 5
              "wl_shm" 1) as (d1 & Hrun & _ & Hold & Hnew).
  - intros h id itf v data d. reflexivity.
  - reflexivity.
  - exists d1. split; [exact Hrun|]. split.
    + rewrite Hold; [reflexivity|].
      exists {| global_id := 3; global_interface := "wl_compositor";
                global_version := 1 |}.
      split; [left|]. split; [reflexivity|].
      cbn. lia.
    + apply Hnew; [lia|]. apply Forall_forall.
      apply (bool_decide_unpack _). vm_compute. exact I.
Defined.

Lemma add_global_listener_replays_witness :
  exists d1,
    @wl_display_add_global_listener plain_environment with_registry 9%nat 4
    = (Some {| listener_handler := 9%nat; listener_data := 4 |}, d1) /\
    global_listener_list d1
    = global_listener_list with_registry
      ++ [ {| listener_handler := 9%nat; listener_data := 4 |} ] /\
    trace d1
    = trace with_registry
      ++ map (fun g => t_global_handler 9%nat (global_id g)
                         (global_interface g) (global_version g) 4)
           (global_list with_registry) /\
    global_list d1 = global_list with_registry.
Proof.
  apply (add_global_listener_replays (H := plain_environment) with_registry
           9%nat 4).
  - intros h id itf v data d. reflexivity.
  - reflexivity.
Defined.

Lemma global_notifies_in_order_witness :
  exists d1,
    @display_handle_global plain_environment with_registry 5 "wl_shm" 1
    = Done d1 /\
    trace d1
    = trace with_registry
      ++ map (fun l => t_global_handler (listener_handler l) 5 "wl_shm" 1
                         (listener_data l))
           (global_listener_list with_registry) /\
    global_listener_list d1 = global_listener_list with_registry.
Proof.
  apply (global_notifies_in_order (H := plain_environment) with_registry 5
           "wl_shm" 1).
  - intros h id itf v data d. reflexivity.
  - reflexivity.
Defined.

Lemma global_remove_round_trip_witness :
  global_list (display_handle_global_remove with_registry 5)
  = global_list with_registry /\
  exists d1,
    @display_handle_global plain_environment with_registry 5 "wl_shm" 1
    = Done d1 /\
    global_list (display_handle_global_remove d1 5)
    = global_list with_registry.
Proof.
  apply (global_remove_round_trip (H := plain_environment) with_registry 5
           "wl_shm" 1).
  - intros h id itf v data d. reflexivity.
  - reflexivity.
  - apply Forall_forall. apply (bool_decide_unpack _). vm_compute. exact I.
Defined.

Lemma events_without_listener_dropped_witness :
  exists d1,
    @wl_display_iterate plain_environment 5
      (receiving with_callback
         (encode_frames [done_frame; done_frame] ++ [x02; x00; x00]))
      WL_DISPLAY_READABLE = Done (3, d1) /\
    conn_in (connection d1) = [x02; x00; x00] /\
    socket d1 = [] /\
    conn_out (connection d1) = conn_out (connection with_callback) /\
    trace d1 = [] /\
    objects d1 = objects with_callback /\
    proxy_heap d1 = proxy_heap with_callback /\ log d1 = [].
Proof.
  apply (events_without_listener_dropped (H := plain_environment)
           (receiving with_callback
              (encode_frames [done_frame; done_frame] ++ [x02; x00; x00]))
           2 1%nat
           {| object_interface := wl_callback_interface;
              object_implementation := None;
              object_id := 2;
              user_data := 0 |}
           [done_frame; done_frame] [x02; x00; x00]
           {| io_sent := Some 0%nat;
              io_received :=
                Some (encode_frames [done_frame; done_frame]
                      ++ [x02; x00; x00]) |}
           []
           (encode_frames [done_frame; done_frame] ++ [x02; x00; x00]) 5);
    try reflexivity.
  - apply (bool_decide_unpack _). vm_compute. exact I.
  - vm_compute. discriminate.
  - cbn. lia.
  - cbn. lia.
Defined.

Lemma split_frame_is_reassembled_witness :
  exists d1,
    @wl_display_iterate plain_environment 3
      (set_socket connected
         [ {| io_sent := None;
              io_received := Some (take 10 (encode_frame done_frame)) |};
           {| io_sent := None;
              io_received := Some (drop 10 (encode_frame done_frame)) |} ])
      WL_DISPLAY_READABLE = Done (10, d1) /\
    conn_in (connection d1) = take 10 (encode_frame done_frame) /\
    trace d1 = [] /\
    @wl_display_iterate plain_environment 3 d1 WL_DISPLAY_READABLE
    = @wl_display_iterate plain_environment 3
        (receiving connected (encode_frame done_frame)) WL_DISPLAY_READABLE.
Proof.
  destruct (split_frame_is_reassembled (H := plain_environment)
              (set_socket connected
                 [ {| io_sent := None;
                      io_received :=
                        Some (take 10 (encode_frame done_frame)) |};
                   {| io_sent := None;
                      io_received :=
                        Some (drop 10 (encode_frame done_frame)) |} ])
              done_frame 10
              {| io_sent := None;
                 io_received := Some (take 10 (encode_frame done_frame)) |}
              {| io_sent := None;
                 io_received := Some (drop 10 (encode_frame done_frame)) |}
              [] 2)
    as (d1 & Hrun & Hin & Htrace & _ & _ & _ & Hnext); try reflexivity.
  - apply (bool_decide_unpack _). vm_compute. exact I.
  - lia.
  - vm_compute. discriminate.
  - exists d1. split; [exact Hrun|]. split; [exact Hin|].
    split; [exact Htrace|]. rewrite Hnext. vm_compute. reflexivity.
Defined.


Lemma wl_display_roundtrip_unsent_sync_witness :
  @wl_display_roundtrip mute_environment 5 connected = Undefined.
Proof.
  apply (wl_display_roundtrip_unsent_sync (H := mute_environment) connected
           {| object_interface := wl_display_interface;
              object_implementation := Some display_listener;
              object_id := 1;
              user_data := 0 |} 5); reflexivity.
Defined.

Lemma wl_display_bind_hides_send_failure_witness :
  exists d1,
    @wl_display_bind mute_environment connected 3 wl_callback_interface
    = Done (Some 1%nat, d1) /\
    wl_map_lookup (objects d1) 2 = entry_proxy 1 /\
    conn_out (connection d1) = [] /\
    log d1 = ["Error marshalling request"].
Proof.
  destruct (wl_display_bind_hides_send_failure (H := mute_environment)
              connected
              {| object_interface := wl_display_interface;
                 object_implementation := Some display_listener;
                 object_id := 1;
                 user_data := 0 |} 3 wl_callback_interface)
    as (d1 & proxy & Hrun & _); try reflexivity.
  - vm_compute. lia.
  - exists d1. split; [exact Hrun|].
    vm_compute in Hrun. injection Hrun as <-. vm_compute. done.
Defined.

Lemma proxy_listener_and_user_data_witness :
  exists d1 d2 d3 d4,
    wl_proxy_set_user_data with_callback 1 11 = Done d1 /\
    wl_proxy_get_user_data d1 1 = Done 11 /\
    wl_proxy_add_listener d1 1 (user_listener 0) 12 = Done (0, d2) /\
    wl_proxy_get_user_data d2 1 = Done 12 /\
    wl_proxy_add_listener d2 1 (user_listener 1) 13 = Done (-1, d3) /\
    log d3 = log with_callback ++ ["proxy already has listener"] /\
    proxy_heap d3 = proxy_heap d2 /\
    wl_proxy_set_user_data d3 1 14 = Done d4 /\
    proxy_heap d4 !! 1%nat
    = Some {| object_interface := wl_callback_interface;
              object_implementation := Some (user_listener 0);
              object_id := 2;
              user_data := 14 |} /\
    wl_proxy_get_id d4 1 = wl_proxy_get_id with_callback 1.
Proof.
  apply (proxy_listener_and_user_data with_callback 1
           {| object_interface := wl_callback_interface;
              object_implementation := None;
              object_id := 2;
              user_data := 0 |}
           (user_listener 0) (user_listener 1) 11 12 13 14); reflexivity.
Defined.

Lemma event_reaches_listener_witness :
  exists d1,
    @wl_display_iterate decoding_environment 2
      (receiving listening (encode_frame done_frame)) WL_DISPLAY_READABLE
    = Done (0, d1) /\
    trace d1
    = [t_demarshal 2 0; t_invoke 2 0 (user_listener 0) [arg_uint 7]] /\
    conn_in (connection d1) = [] /\
    objects d1 = objects listening /\ proxy_heap d1 = proxy_heap listening.
Proof.
  apply (event_reaches_listener (H := decoding_environment)
           (receiving listening (encode_frame done_frame)) done_frame 1%nat
           {| object_interface := wl_callback_interface;
              object_implementation := Some (user_listener 0);
              object_id := 2;
              user_data := 5 |}
           0%nat {| message_name := "done"; message_signature := "u" |}
           [arg_uint 7]
           {| io_sent := Some 0%nat;
              io_received := Some (encode_frame done_frame) |} [] 0);
    try reflexivity.
  - apply (bool_decide_unpack _). vm_compute. exact I.
  - vm_compute. discriminate.
  - repeat constructor.
Defined.

Lemma global_event_registers_witness :
  exists d1,
    @wl_display_iterate decoding_environment 2
      (receiving connected (encode_frame global_frame)) WL_DISPLAY_READABLE
    = Done (0, d1) /\
    global_list d1
    = [ {| global_id := 3; global_interface := "wl_compositor";
           global_version := 1 |} ] /\
    wl_display_get_global d1 "wl_compositor" 1 = 3.
Proof.
  destruct (global_event_registers (H := decoding_environment)
              (receiving connected (encode_frame global_frame)) global_frame
              0%nat
              {| object_interface := wl_display_interface;
                 object_implementation := Some display_listener;
                 object_id := 1;
                 user_data := 0 |}
              3 "wl_compositor" 1
              {| io_sent := Some 0%nat;
                 io_received := Some (encode_frame global_frame) |} [] 0)
    as (d1 & Hrun & Hlist & Hget); try reflexivity.
  - apply (bool_decide_unpack _). vm_compute. exact I.
  - vm_compute. discriminate.
  - intros h id itf v data d. reflexivity.
  - exists d1. split; [exact Hrun|]. split; [exact Hlist|].
    apply Hget. intros g Hg. by apply elem_of_nil in Hg.
Defined.

End ClientMore.

(** * More facts about the server *)

Module ServerMore.

Import Server.

Section Globals.

Context `{Environment}.

(** ** [wl_compositor_init] *)

Lemma wrap32_small z : 0 <= z < 4294967296 -> wrap32 z = z.
Proof. intros Hz. unfold wrap32. by apply Z.mod_small. Qed.

(** The three steps that [wl_compositor_init] takes for each of its
    objects, in the release build: the object gets the next id and is put
    in the table; it joins the globals when [malloc] returns memory. *)
Lemma register_release d a interface impl :
  ndebug = true ->
  0 <= id d -> id d + 1 < 4294967296 ->
  exists d1,
    (d2 ← wl_display_add_object (write_object d a interface impl) (Some a);
     wl_display_add_global d2 (Some a) None)
    = Done (if malloc_fails (next_alloc d) then -1 else 0, d1) /\
    heap d1
    = <[a := cell_object {| object_interface := interface;
                            object_implementation := impl;
                            object_id := id d |}]> (heap d) /\
    objects d1 = <[id d := a]> (objects d) /\
    id d1 = id d + 1 /\ next_alloc d1 = S (next_alloc d) /\
    global_list d1
    = global_list d
      ++ (if malloc_fails (next_alloc d) then []
          else [ {| global_object := a; global_func := None |} ]) /\
    posted d1 = posted d /\ clients d1 = clients d /\ trace d1 = trace d.
Proof.
  intros Hn Hlo Hhi.
  unfold wl_display_add_object, wl_display_add_global, assert, write_object.
  rewrite Hn. cbn [orb mbind result_bind heap set_heap].
  rewrite lookup_insert_eq. cbn [mbind result_bind]. unfold malloc.
  cbn [next_alloc set_objects set_id set_heap cell_set_id set_object_id
       object_interface object_implementation id heap objects].
  rewrite insert_insert_eq, wrap32_small by lia.
  destruct (malloc_fails (next_alloc d)); eexists;
    (split; [reflexivity|]); cbn; rewrite ?app_nil_r; done.
Qed.

(** X15.  [wl_compositor_init] in the release build, when the global of
    the compositor gets its memory: the call returns 0; the compositor and
    its three visuals get four consecutive ids in the order compositor,
    argb, premultiplied argb, rgb, and are in the table under them; the
    compositor joins the globals, and so does each visual whose [malloc]
    returned memory, a visual whose [malloc] failed is left out without a
    sign to the caller. *)
Theorem wl_compositor_init_release citf vitf d c n :
  ndebug = true ->
  0 <= id d -> id d + 4 < 4294967296 ->
  malloc_fails (next_alloc d) = false ->
  NoDup [compositor_object c; argb_visual c; premultiplied_argb_visual c;
         rgb_visual c] ->
  exists d1,
    wl_compositor_init citf vitf d (Some c) (Some n) = Done (0, d1) /\
    id d1 = id d + 4 /\
    objects d1
    = <[id d + 3 := rgb_visual c]>
        (<[id d + 2 := premultiplied_argb_visual c]>
           (<[id d + 1 := argb_visual c]>
              (<[id d := compositor_object c]> (objects d)))) /\
    heap d1 !! compositor_object c
    = Some (cell_object {| object_interface := citf;
                           object_implementation := Some (user_interface n);
                           object_id := id d |}) /\
    heap d1 !! argb_visual c
    = Some (cell_object {| object_interface := vitf;
                           object_implementation := None;
                           object_id := id d + 1 |}) /\
    heap d1 !! premultiplied_argb_visual c
    = Some (cell_object {| object_interface := vitf;
                           object_implementation := None;
                           object_id := id d + 2 |}) /\
    heap d1 !! rgb_visual c
    = Some (cell_object {| object_interface := vitf;
                           object_implementation := None;
                           object_id := id d + 3 |}) /\
    global_list d1
    = global_list d
      ++ {| global_object := compositor_object c; global_func := None |}
      :: omap (fun '(i, a) =>
                 if malloc_fails (next_alloc d + i) then None
                 else Some {| global_object := a; global_func := None |})
           [(1%nat, argb_visual c); (2%nat, premultiplied_argb_visual c);
            (3%nat, rgb_visual c)] /\
    posted d1 = posted d.
Proof.
  intros Hn Hlo Hhi Hm Hnd.
  assert (Hne : compositor_object c <> argb_visual c /\
                compositor_object c <> premultiplied_argb_visual c /\
                compositor_object c <> rgb_visual c /\
                argb_visual c <> premultiplied_argb_visual c /\
                argb_visual c <> rgb_visual c /\
                premultiplied_argb_visual c <> rgb_visual c).
  { rewrite !NoDup_cons, !not_elem_of_cons in Hnd. tauto. }
  destruct Hne as (H12 & H13 & H14 & H23 & H24 & H34).
  unfold wl_compositor_init, assert. cbn [bool_decide andb orb].
  rewrite orb_true_r. cbn [mbind result_bind].
  destruct (register_release d (compositor_object c) citf
              (Some (user_interface n)) Hn)
    as (d3 & Hr3 & Hh3 & Ho3 & Hi3 & Hn3 & Hg3 & Hp3 & _); [lia..|].
  rewrite Hm in Hr3, Hg3.
  destruct (wl_display_add_object _ (Some (compositor_object c)))
    as [d2| | |]; cbn [mbind result_bind] in Hr3; try discriminate.
  cbn [mbind result_bind]. rewrite Hr3. cbn [mbind result_bind Z.eqb negb].
  destruct (register_release d3 (argb_visual c) vitf None Hn)
    as (d6 & Hr6 & Hh6 & Ho6 & Hi6 & Hn6 & Hg6 & Hp6 & _); [lia..|].
  destruct (wl_display_add_object _ (Some (argb_visual c)))
    as [d5| | |]; cbn [mbind result_bind] in Hr6; try discriminate.
  cbn [mbind result_bind]. rewrite Hr6. cbn [mbind result_bind].
  destruct (register_release d6 (premultiplied_argb_visual c) vitf None Hn)
    as (d9 & Hr9 & Hh9 & Ho9 & Hi9 & Hn9 & Hg9 & Hp9 & _); [lia..|].
  destruct (wl_display_add_object _ (Some (premultiplied_argb_visual c)))
    as [d8| | |]; cbn [mbind result_bind] in Hr9; try discriminate.
  cbn [mbind result_bind]. rewrite Hr9. cbn [mbind result_bind].
  destruct (register_release d9 (rgb_visual c) vitf None Hn)
    as (d12 & Hr12 & Hh12 & Ho12 & Hi12 & Hn12 & Hg12 & Hp12 & _); [lia..|].
  destruct (wl_display_add_object _ (Some (rgb_visual c)))
    as [d11| | |]; cbn [mbind result_bind] in Hr12; try discriminate.
  cbn [mbind result_bind]. rewrite Hr12. cbn [mbind result_bind].
  exists d12. split; [reflexivity|].
  split; [lia|].
  split.
  { rewrite Ho12, Ho9, Ho6, Ho3, Hi9, Hi6, Hi3.
    by replace (id d + 1 + 1) with (id d + 2) by lia;
       replace (id d + 2 + 1) with (id d + 3) by lia. }
  rewrite Hh12, Hh9, Hh6, Hh3, Hi9, Hi6, Hi3.
  replace (id d + 1 + 1) with (id d + 2) by lia.
  replace (id d + 2 + 1) with (id d + 3) by lia.
  split. { by rewrite !lookup_insert_ne, lookup_insert_eq by done. }
  split. { by rewrite !lookup_insert_ne, lookup_insert_eq by done. }
  split. { by rewrite !lookup_insert_ne, lookup_insert_eq by done. }
  split. { by rewrite lookup_insert_eq. }
  split; [|congruence].
  rewrite Hg12, Hg9, Hg6, Hg3, Hn9, Hn6, Hn3. csimpl.
  replace (next_alloc d + 1)%nat with (S (next_alloc d)) by lia.
  replace (next_alloc d + 2)%nat with (S (S (next_alloc d))) by lia.
  replace (next_alloc d + 3)%nat with (S (S (S (next_alloc d)))) by lia.
  rewrite <- !app_assoc. cbn [app].
  destruct (malloc_fails (S (next_alloc d)));
    destruct (malloc_fails (S (S (next_alloc d))));
    destruct (malloc_fails (S (S (S (next_alloc d))))); done.
Qed.

(** X16.  With the asserts compiled in, [wl_compositor_init] does not
    return: it registers the compositor with a null connect function, which
    the assert of [wl_display_add_global] refuses; by then the compositor is
    in the table of objects. *)
Theorem wl_compositor_init_debug_aborts citf vitf d c n :
  ndebug = false ->
  wl_compositor_init citf vitf d (Some c) (Some n) = Aborted /\
  exists d2,
    wl_display_add_object
      (write_object d (compositor_object c) citf (Some (user_interface n)))
      (Some (compositor_object c)) = Done d2 /\
    objects d2 !! id d = Some (compositor_object c) /\
    wl_display_add_global d2 (Some (compositor_object c)) None = Aborted.
Proof.
  intros Hn.
  unfold wl_compositor_init, wl_display_add_object, wl_display_add_global,
    assert, write_object.
  rewrite Hn. cbn [bool_decide andb orb mbind result_bind heap set_heap].
  rewrite lookup_insert_eq. cbn [mbind result_bind]. split; [done|].
  eexists. split; [reflexivity|].
  cbn [objects set_objects set_id set_heap]. unfold wl_hash_table_insert.
  by rewrite lookup_insert_eq.
Qed.

(** ** Announcing globals *)

Lemma post_globals_events l : forall d client c disp,
  clients d !! client = Some c ->
  heap d !! display_object ≫= cell_as_object = Some disp ->
  Forall (fun g => is_Some (heap d !! global_object g ≫= cell_as_object)) l ->
  exists d',
    post_globals l d client = Done d' /\
    posted d'
    = posted d
      ++ map (pair client)
           (omap (fun g => global_event d (object_id disp) (global_object g))
              l) /\
    length (omap (fun g => global_event d (object_id disp) (global_object g))
              l) = length l /\
    heap d' = heap d /\ clients d' = clients d /\
    client_id_range d' = client_id_range d /\
    global_list d' = global_list d /\ next_alloc d' = next_alloc d /\
    trace d' = trace d /\ frame_list d' = frame_list d /\
    objects d' = objects d /\ id d' = id d.
Proof.
  induction l as [|g l IH]; intros d client c disp Hc Hd Hl.
  - exists d. cbn. by rewrite app_nil_r.
  - apply Forall_cons in Hl as [[o Ho] Hl]. cbn [post_globals].
    rewrite Ho.
    rewrite (ServerFacts.wl_client_post_event_ok d client display_object c
               disp) by done.
    cbn [mbind result_bind]. set (d1 := set_posted _ _).
    destruct (IH d1 client c disp) as
      (d' & Hrun & Hp & Hlen & Hh & Hcs & Hr & Hg & Hn & Ht & Hf & Hob & Hid);
      [done..|].
    assert (Hsame :
      omap (fun g => global_event d1 (object_id disp) (global_object g)) l
      = omap (fun g => global_event d (object_id disp) (global_object g)) l)
      by reflexivity.
    rewrite Hsame in Hp, Hlen.
    assert (Hev : exists ev,
              global_event d (object_id disp) (global_object g) = Some ev /\
              posted d1 = posted d ++ [(client, ev)]).
    { eexists. split; [unfold global_event; rewrite Ho; reflexivity|done]. }
    destruct Hev as (ev & Hev & Hp1).
    exists d'. split; [done|]. csimpl. rewrite Hev. csimpl.
    rewrite Hp, Hlen, Hp1, <- app_assoc. done.
Qed.

Lemma call_connect_funcs_wf d client :
  globals_wf d -> call_connect_funcs (global_list d) d client = d.
Proof.
  intros Hwf. apply ServerFacts.call_connect_funcs_none.
  eapply Forall_impl; [exact Hwf|]. by intros g [? _].
Qed.

(** What [wl_client_create] does on a display whose globals are well
    formed. *)
Lemma wl_client_create_events d script disp :
  malloc_fails (next_alloc d) = false ->
  heap d !! display_object ≫= cell_as_object = Some disp ->
  globals_wf d ->
  exists d1,
    wl_client_create d script = Done (Some (next_alloc d), d1) /\
    posted d1
    = posted d
      ++ map (pair (next_alloc d))
           (range_event (object_id disp) (client_id_range d)
            :: omap (fun g => global_event d (object_id disp)
                                (global_object g)) (global_list d)) /\
    length (omap (fun g => global_event d (object_id disp) (global_object g))
              (global_list d)) = length (global_list d) /\
    clients d1
    = <[next_alloc d := {| connection_in := []; client_socket := script;
                           resource_list := []; id_count := 256 |}]>
        (clients d) /\
    client_id_range d1 = wrap32 (client_id_range d + 256) /\
    trace d1 = trace d /\ heap d1 = heap d /\
    global_list d1 = global_list d /\ objects d1 = objects d /\
    next_alloc d1 = S (next_alloc d) /\ frame_list d1 = frame_list d.
Proof.
  intros Hm Hd Hwf. unfold wl_client_create, malloc. rewrite Hm.
  set (cl := {| connection_in := []; client_socket := script;
                resource_list := []; id_count := 0 |}).
  set (d2 := set_clients _ _).
  rewrite (ServerFacts.wl_display_post_range_ok d2 (next_alloc d) cl disp);
    [|subst d2; cbn [clients set_clients set_next_alloc];
      by rewrite lookup_insert_eq|done].
  cbn [mbind result_bind]. set (d3 := set_clients _ _).
  destruct (post_globals_events (global_list d3) d3 (next_alloc d)
              (set_id_count cl (wrap32 (id_count cl + 256))) disp)
    as (d4 & Hrun & Hp & Hlen & Hh & Hcs & Hr & Hg & Hn & Ht & Hf & Hob & Hid).
  { subst d3. cbn [clients set_clients]. by rewrite lookup_insert_eq. }
  { done. }
  { eapply Forall_impl; [exact Hwf|]. by intros g [_ ?]. }
  rewrite Hrun. cbn [mbind result_bind].
  rewrite call_connect_funcs_wf.
  2:{ unfold globals_wf. rewrite Hg, Hh. exact Hwf. }
  exists d4. split; [done|].
  rewrite Hp, Hcs, Hr, Ht, Hh, Hg, Hob, Hn, Hf. subst d3 d2.
  cbn [posted clients client_id_range trace heap global_list objects
       next_alloc frame_list set_clients set_client_id_range set_posted
       set_next_alloc map].
  rewrite <- app_assoc. cbn [app].
  split; [done|]. split; [exact Hlen|].
  rewrite insert_insert_eq. done.
Qed.

(** X17.  A new client is told its range first and then every global, in
    the order of registration, each with the name and the version of its
    interface; and since [wl_display_add_global] only accepts a null
    connect function, the globals stay without one and [wl_client_create]
    calls no connect function. *)
Theorem wl_client_create_announces d script disp object func r d0 :
  malloc_fails (next_alloc d0) = false ->
  heap d !! display_object ≫= cell_as_object = Some disp ->
  globals_wf d ->
  is_Some (heap d !! object ≫= cell_as_object) ->
  wl_display_add_global d (Some object) func = Done (r, d0) ->
  globals_wf d0 /\
  exists d1,
    wl_client_create d0 script = Done (Some (next_alloc d0), d1) /\
    posted d1
    = posted d0
      ++ map (pair (next_alloc d0))
           (range_event (object_id disp) (client_id_range d0)
            :: omap (fun g => global_event d0 (object_id disp)
                                (global_object g)) (global_list d0)) /\
    length (omap (fun g => global_event d0 (object_id disp) (global_object g))
              (global_list d0)) = length (global_list d0) /\
    connect_calls (trace d1) = connect_calls (trace d0).
Proof.
  intros Hm Hd Hwf Hobj Hadd.
  assert (Hkeep : heap d0 = heap d /\ globals_wf d0) .
  { unfold wl_display_add_global, assert, malloc in Hadd.
    destruct (ndebug || _); [|discriminate]. cbn [mbind result_bind] in Hadd.
    destruct func; [injection Hadd as <- <-; done|].
    destruct (malloc_fails (next_alloc d)); injection Hadd as <- <-;
      (split; [done|]); [done|].
    unfold globals_wf. cbn [global_list set_global_list set_next_alloc heap].
    apply Forall_app. split; [exact Hwf|]. by repeat constructor. }
  destruct Hkeep as [Hheap Hwf0]. split; [done|].
  destruct (wl_client_create_events d0 script disp Hm) as
    (d1 & Hrun & Hp & Hlen & _ & _ & Ht & _); [by rewrite Hheap|done|].
  exists d1. by rewrite Ht.
Qed.

(** X18.  A global that is registered while a client is connected is not
    announced to that client by [wl_display_add_global]: nothing is posted.
    [wl_client_post_global] posts to the client the very event that a
    client created afterwards gets as the last of its announcements. *)
Theorem late_global_needs_post_global d a o c cl disp script :
  ndebug = true ->
  malloc_fails (next_alloc d) = false ->
  malloc_fails (S (next_alloc d)) = false ->
  clients d !! c = Some cl ->
  heap d !! display_object ≫= cell_as_object = Some disp ->
  heap d !! a ≫= cell_as_object = Some o ->
  globals_wf d ->
  exists d1 d2 d3 ev,
    global_event d (object_id disp) a = Some ev /\
    wl_display_add_global d (Some a) None = Done (0, d1) /\
    posted d1 = posted d /\
    wl_client_post_global d1 (Some c) (Some a) = Done d2 /\
    posted d2 = posted d ++ [(c, ev)] /\
    wl_client_create d1 script = Done (Some (S (next_alloc d)), d3) /\
    last (posted d3) = Some (S (next_alloc d), ev).
Proof.
  intros Hn Hm Hm1 Hc Hd Ho Hwf.
  unfold wl_display_add_global, assert, malloc. rewrite Hn, Hm.
  cbn [orb mbind result_bind]. set (d1 := set_global_list _ _).
  assert (Hwf1 : globals_wf d1).
  { unfold globals_wf. subst d1.
    cbn [global_list set_global_list set_next_alloc heap].
    apply Forall_app. split; [exact Hwf|].
    repeat constructor. cbn. by rewrite Ho. }
  destruct (wl_client_create_events d1 script disp) as
    (d3 & Hrun & Hp & _); [done..|].
  eexists d1, _, d3, _. split.
  { unfold global_event. rewrite Ho. reflexivity. }
  split; [done|]. split; [done|]. split.
  { unfold wl_client_post_global, assert. rewrite Hn.
    cbn [orb mbind result_bind]. subst d1.
    cbn [heap set_global_list set_next_alloc]. rewrite Ho.
    apply (ServerFacts.wl_client_post_event_ok _ c display_object cl disp);
      done. }
  split; [done|]. split; [exact Hrun|].
  rewrite Hp. subst d1.
  cbn [global_list set_global_list set_next_alloc next_alloc].
  rewrite omap_app. csimpl. unfold global_event at 2.
  cbn [heap set_global_list set_next_alloc]. rewrite Ho. csimpl.
  rewrite map_app, app_comm_cons, app_assoc. cbn [map].
  by rewrite last_snoc.
Qed.

End Globals.

Section Focus.

Context `{Environment}.

Variables PF KF : event_opcode.

(** ** The focus of an input device *)

Lemma filter_absent (l : focus_listener) (ks : list focus_listener) :
  l ∉ ks -> filter (fun k => k ≠ l) ks = ks.
Proof.
  induction ks as [|k ks IH]; intros Hl; [done|].
  apply not_elem_of_cons in Hl as [Hk Hl].
  rewrite filter_cons_True by done. by rewrite IH.
Qed.

Lemma filter_snoc_self (l : focus_listener) (ks : list focus_listener) :
  filter (fun k => k ≠ l) (ks ++ [l]) = filter (fun k => k ≠ l) ks.
Proof.
  rewrite filter_app, (filter_cons_False _ l) by (intros Hl; by apply Hl).
  rewrite filter_nil. apply app_nil_r.
Qed.

Lemma not_elem_of_filter_self (l : focus_listener) (ks : list focus_listener) :
  l ∉ filter (fun k => k ≠ l) ks.
Proof. rewrite list_elem_of_filter. tauto. Qed.

Lemma unlink_listener_absent l m :
  (forall s srf, m !! s = Some srf -> l ∉ destroy_listener_list srf) ->
  unlink_listener l m = m.
Proof.
  intros Habs. apply map_eq. intros s. unfold unlink_listener.
  rewrite lookup_fmap. destruct (m !! s) as [srf|] eqn:Hs; [|done].
  cbn. rewrite filter_absent by eauto. by destruct srf.
Qed.

Lemma unlink_link_unlink l s m :
  unlink_listener l (link_listener l s (unlink_listener l m))
  = unlink_listener l m.
Proof.
  apply map_eq. intros j. unfold unlink_listener, link_listener.
  rewrite !lookup_fmap.
  destruct (decide (s = j)) as [<-|].
  - rewrite lookup_alter_eq, lookup_fmap.
    destruct (m !! s) as [srf|]; [|done]. cbn.
    rewrite filter_snoc_self. f_equal. f_equal.
    apply filter_absent, not_elem_of_filter_self.
  - rewrite lookup_alter_ne, lookup_fmap by done.
    destruct (m !! j) as [srf|]; [|done]. cbn. f_equal. f_equal.
    apply filter_absent, not_elem_of_filter_self.
Qed.

Lemma lookup_relink_some l s m j srf :
  relink l (Some s) m !! j = Some srf ->
  (l ∈ destroy_listener_list srf <-> j = s).
Proof.
  unfold relink, link_listener, unlink_listener.
  destruct (decide (s = j)) as [<-|Hne].
  - rewrite lookup_alter_eq, lookup_fmap.
    destruct (m !! s) as [srf0|]; [|discriminate]. cbn. intros [= <-]. cbn.
    split; [done|]. intros _. apply elem_of_app. right. left.
  - rewrite lookup_alter_ne, lookup_fmap by done.
    destruct (m !! j) as [srf0|]; [|discriminate]. cbn. intros [= <-]. cbn.
    split; [|by intros ->]. intros Hin.
    by apply not_elem_of_filter_self in Hin.
Qed.

(** X19.  The pointer focus moves from one surface to another.  The
    client that loses the focus gets the event with a null surface and zero
    coordinates, unless the new surface is of the same client; then the
    client of the new surface gets the event with the surface and the
    coordinates.  The device holds the new focus and the time, and its
    listener is linked at the tail of the destroy listeners of the new
    surface and of no other.  [lose_pointer_focus], called through that
    listener, then takes the focus away with one event to that client. *)
Theorem pointer_focus_moves st a dv s1 s2 old new cl1 cl2 obj time x y sx sy
  time' :
  devices st !! a = Some dv ->
  pointer_focus dv = Some s1 -> s1 <> s2 ->
  surfaces st !! s1 = Some old -> surfaces st !! s2 = Some new ->
  clients (input_display st) !! surface_client old = Some cl1 ->
  clients (input_display st) !! surface_client new = Some cl2 ->
  heap (input_display st) !! device_object dv ≫= cell_as_object = Some obj ->
  let event c surface x y sx sy t :=
    (c, {| event_sender := object_id obj; event_opcode_of := PF;
           event_args := [arg_uint t; arg_object surface; arg_int x;
                          arg_int y; arg_int sx; arg_int sy] |}) in
  exists st1 st2,
    wl_input_device_set_pointer_focus PF st (Some a) (Some s2) time x y sx sy
    = Done st1 /\
    posted (input_display st1)
    = posted (input_display st)
      ++ (if decide (surface_client old = surface_client new) then []
          else [event (surface_client old) None 0 0 0 0 time])
      ++ [event (surface_client new) (Some s2) x y sx sy time] /\
    pointer_focus <$> devices st1 !! a = Some (Some s2) /\
    pointer_focus_time <$> devices st1 !! a = Some time /\
    (forall j srf, surfaces st1 !! j = Some srf ->
       pointer_focus_listener a ∈ destroy_listener_list srf <-> j = s2) /\
    destroy_listener_list <$> surfaces st1 !! s2
    = Some (filter (fun k => k ≠ pointer_focus_listener a)
              (destroy_listener_list new) ++ [pointer_focus_listener a]) /\
    lose_pointer_focus PF st1 (pointer_focus_listener a) s2 time'
    = Done st2 /\
    posted (input_display st2)
    = posted (input_display st1)
      ++ [event (surface_client new) None 0 0 0 0 time'] /\
    pointer_focus <$> devices st2 !! a = Some None /\
    (forall j srf, surfaces st2 !! j = Some srf ->
       pointer_focus_listener a ∉ destroy_listener_list srf).
Proof.
  intros Ha Hfocus Hne Hs1 Hs2 Hc1 Hc2 Hobj event.
  assert (Hpost : exists d1,
    post_focus_events st (device_object dv) PF (Some s1) (Some s2)
      [arg_uint time; arg_object None; arg_int 0; arg_int 0; arg_int 0;
       arg_int 0]
      [arg_uint time; arg_object (Some s2); arg_int x; arg_int y; arg_int sx;
       arg_int sy] = Done d1 /\
    posted d1
    = posted (input_display st)
      ++ (if decide (surface_client old = surface_client new) then []
          else [event (surface_client old) None 0 0 0 0 time])
      ++ [event (surface_client new) (Some s2) x y sx sy time] /\
    clients d1 = clients (input_display st) /\
    heap d1 = heap (input_display st)).
  { unfold post_focus_events. rewrite Hs1, Hs2.
    destruct (decide (surface_client old = surface_client new)) as [Heq|Hdiff].
    - rewrite decide_False by (intros Hc; by apply Hc).
      cbn [mbind result_bind].
      rewrite (ServerFacts.wl_client_post_event_ok _ _ _ cl2 obj) by done.
      eexists. split; [reflexivity|]. done.
    - rewrite decide_True by done.
      rewrite (ServerFacts.wl_client_post_event_ok _ _ _ cl1 obj) by done.
      cbn [mbind result_bind].
      rewrite (ServerFacts.wl_client_post_event_ok _ _ _ cl2 obj) by done.
      eexists. split; [reflexivity|].
      cbn [posted set_posted]. by rewrite <- app_assoc. }
  destruct Hpost as (d1 & Hpost & Hposted & Hclients & Hheap).
  unfold wl_input_device_set_pointer_focus at 1, assert.
  cbn [bool_decide orb]. rewrite orb_true_r. cbn [mbind result_bind].
  rewrite Ha, Hfocus. rewrite decide_False by congruence.
  rewrite Hpost. cbn [mbind result_bind].
  set (st1 := {| input_display := d1 |}).
  assert (Hs2' : surfaces st1 !! s2
                 = Some {| surface_client := surface_client new;
                           destroy_listener_list :=
                             filter (fun k => k ≠ pointer_focus_listener a)
                               (destroy_listener_list new)
                             ++ [pointer_focus_listener a] |}).
  { subst st1. cbn [surfaces relink]. unfold link_listener, unlink_listener.
    rewrite lookup_alter_eq, lookup_fmap, Hs2. done. }
  eexists st1, _. split; [reflexivity|].
  split; [exact Hposted|].
  split. { subst st1. cbn [devices]. by rewrite lookup_insert_eq. }
  split. { subst st1. cbn [devices]. by rewrite lookup_insert_eq. }
  split. { intros j srf. apply lookup_relink_some. }
  split. { by rewrite Hs2'. }
  unfold lose_pointer_focus, wl_input_device_set_pointer_focus, assert.
  cbn [bool_decide orb]. rewrite orb_true_r. cbn [mbind result_bind].
  assert (Ha1 : devices st1 !! a
                = Some {| device_object := device_object dv;
                          device_compositor := device_compositor dv;
                          device_x := device_x dv;
                          device_y := device_y dv;
                          pointer_focus := Some s2;
                          pointer_focus_time := time;
                          keyboard_focus := keyboard_focus dv;
                          keyboard_focus_time := keyboard_focus_time dv;
                          keys := keys dv |}).
  { subst st1. cbn [devices]. by rewrite lookup_insert_eq. }
  rewrite Ha1. cbn [pointer_focus]. rewrite decide_False by discriminate.
  unfold post_focus_events. rewrite Hs2'.
  cbn [surface_client device_object input_display].
  assert (Hd1 : input_display st1 = d1) by done. rewrite Hd1.
  rewrite (ServerFacts.wl_client_post_event_ok d1 _ _ cl2 obj)
    by (by rewrite ?Hclients, ?Hheap).
  cbn [mbind result_bind].
  split; [reflexivity|].
  cbn [input_display posted set_posted devices surfaces].
  split; [done|].
  split. { by rewrite lookup_insert_eq. }
  intros j srf. cbn [relink]. unfold unlink_listener.
  rewrite lookup_fmap. destruct (surfaces st1 !! j); [|discriminate].
  cbn. intros [= <-]. cbn. apply not_elem_of_filter_self.
Qed.

(** X20.  The keyboard focus given and taken away.  From a device without
    keyboard focus whose listener is not linked, the focus on a surface
    posts one event with the surface and the keys that are down to the
    client of the surface; a second call for the same surface changes
    nothing, not even the time; [lose_keyboard_focus], called through the
    listener, posts one event with a null surface to the same client and
    leaves the device without focus and the destroy listeners of all
    surfaces as they were at the start. *)
Theorem keyboard_focus_round_trip st a dv s srf cl obj time time1 time2 :
  devices st !! a = Some dv ->
  keyboard_focus dv = None ->
  (forall j sj, surfaces st !! j = Some sj ->
     keyboard_focus_listener a ∉ destroy_listener_list sj) ->
  surfaces st !! s = Some srf ->
  clients (input_display st) !! surface_client srf = Some cl ->
  heap (input_display st) !! device_object dv ≫= cell_as_object = Some obj ->
  let event surface t :=
    (surface_client srf,
     {| event_sender := object_id obj; event_opcode_of := KF;
        event_args := [arg_uint t; arg_object surface;
                       arg_array (keys dv)] |}) in
  exists st1 st2,
    wl_input_device_set_keyboard_focus KF st (Some a) (Some s) time
    = Done st1 /\
    posted (input_display st1)
    = posted (input_display st) ++ [event (Some s) time] /\
    keyboard_focus <$> devices st1 !! a = Some (Some s) /\
    wl_input_device_set_keyboard_focus KF st1 (Some a) (Some s) time1
    = Done st1 /\
    lose_keyboard_focus KF st1 (keyboard_focus_listener a) s time2
    = Done st2 /\
    posted (input_display st2)
    = posted (input_display st)
      ++ [event (Some s) time; event None time2] /\
    keyboard_focus <$> devices st2 !! a = Some None /\
    surfaces st2 = surfaces st.
Proof.
  intros Ha Hfocus Habs Hs Hc Hobj event.
  unfold wl_input_device_set_keyboard_focus at 1, assert.
  cbn [bool_decide orb]. rewrite orb_true_r. cbn [mbind result_bind].
  rewrite Ha, Hfocus. rewrite decide_False by discriminate.
  unfold post_focus_events at 1. cbn [mbind result_bind]. rewrite Hs.
  rewrite (ServerFacts.wl_client_post_event_ok _ _ _ cl obj) by done.
  cbn [mbind result_bind].
  set (st1 := {| input_display := set_posted _ _ |}).
  assert (Ha1 : devices st1 !! a
                = Some {| device_object := device_object dv;
                          device_compositor := device_compositor dv;
                          device_x := device_x dv;
                          device_y := device_y dv;
                          pointer_focus := pointer_focus dv;
                          pointer_focus_time := pointer_focus_time dv;
                          keyboard_focus := Some s;
                          keyboard_focus_time := time;
                          keys := keys dv |}).
  { subst st1. cbn [devices]. by rewrite lookup_insert_eq. }
  assert (Hs1 : surfaces st1 !! s
                = Some {| surface_client := surface_client srf;
                          destroy_listener_list :=
                            destroy_listener_list srf
                            ++ [keyboard_focus_listener a] |}).
  { subst st1. cbn [surfaces relink]. rewrite unlink_listener_absent by done.
    unfold link_listener. rewrite lookup_alter_eq, Hs. done. }
  eexists st1, _. split; [reflexivity|].
  split; [done|].
  split. { by rewrite Ha1. }
  split.
  { unfold wl_input_device_set_keyboard_focus, assert.
    cbn [bool_decide orb]. rewrite orb_true_r. cbn [mbind result_bind].
    rewrite Ha1. cbn [keyboard_focus]. by rewrite decide_True. }
  unfold lose_keyboard_focus, wl_input_device_set_keyboard_focus, assert.
  cbn [bool_decide orb]. rewrite orb_true_r. cbn [mbind result_bind].
  rewrite Ha1. cbn [keyboard_focus]. rewrite decide_False by discriminate.
  unfold post_focus_events. rewrite Hs1.
  cbn [surface_client device_object keys].
  rewrite (ServerFacts.wl_client_post_event_ok _ _ _ cl obj) by done.
  cbn [mbind result_bind].
  split; [reflexivity|].
  cbn [input_display posted set_posted devices surfaces].
  split. { subst st1. cbn [input_display posted set_posted].
           by rewrite <- app_assoc. }
  split. { by rewrite lookup_insert_eq. }
  subst st1. cbn [surfaces relink].
  rewrite unlink_link_unlink. by apply unlink_listener_absent.
Qed.

End Focus.

Section ListeningSockets.

Context `{Environment}.

(** ** [wl_display_add_socket] *)

Lemma string_length_append (s t : string) :
  String.length (s ++ t) = (String.length s + String.length t)%nat.
Proof.
  induction s as [|c s IH]; [done|].
  change (S (String.length (s ++ t))
          = S (String.length s + String.length t)).
  by rewrite IH.
Qed.

Lemma substring_whole (s : string) :
  String.substring 0 (String.length s) s = s.
Proof. induction s as [|c s IH]; cbn; [done|]. by rewrite IH. Qed.

Lemma snprintf_stored_fits size s :
  (String.length s < size)%nat -> snprintf_stored size s = s.
Proof.
  intros Hs. unfold snprintf_stored.
  replace ((size - 1) `min` String.length s)%nat with (String.length s)
    by lia.
  apply substring_whole.
Qed.

Lemma length_substring (s : string) : forall n,
  (n <= String.length s)%nat ->
  String.length (String.substring 0 n s) = n.
Proof.
  induction s as [|c s IH]; intros [|n] Hn; cbn in *; try done; try lia.
  rewrite IH; [done|lia].
Qed.

(** X21.  The server listens where the client connects.  With
    [XDG_RUNTIME_DIR] set and a path that fits the 108 bytes of
    [sun_path], [wl_display_add_socket] binds the very path, with the very
    address size, that [connect_to_socket] of the client file connects to
    for the same environment and name; it then listens, and returns 0 with
    the socket in its list and its descriptor in the event loop. *)
Theorem add_socket_agrees_with_client d env ks kc name dir errno0 :
  Client.XDG_RUNTIME_DIR env = Some dir ->
  malloc_fails (next_alloc d) = false ->
  0 <= socket_returns ks -> bind_fails ks = false ->
  listen_fails ks = false ->
  0 <= Client.socket_returns kc ->
  Z.of_nat (String.length dir)
  + Z.of_nat (String.length (Client.socket_name env name)) + 2 <= 108 ->
  exists out d1 path size rest,
    wl_display_add_socket d env ks name = Done (out, d1) /\
    returned out = 0 /\
    syscalls out = [sys_socket; sys_bind (socket_returns ks) path size;
                    sys_listen (socket_returns ks) 1] /\
    socket_list_added out
    = Some {| socket_fd := socket_returns ks; socket_path := path |} /\
    loop_fd_added out = Some (socket_returns ks) /\
    path = (dir ++ "/" ++ Client.socket_name env name)%string /\
    Client.syscalls (Client.connect_to_socket env kc name errno0)
    = Client.sys_socket
      :: Client.sys_connect (Client.socket_returns kc) path size :: rest.
Proof.
  intros Hdir Hm Hfd Hbind Hlisten Hfdc Hfits.
  unfold wl_display_add_socket, malloc, Client.connect_to_socket.
  rewrite Hm, Hdir, Hbind, Hlisten.
  rewrite (proj2 (Z.ltb_ge (socket_returns ks) 0)) by lia.
  rewrite (proj2 (Z.ltb_ge (Client.socket_returns kc) 0)) by lia.
  cbn [default Datatypes.id].
  assert (Hname : match match name with
                        | Some n => Some n
                        | None => Client.WAYLAND_DISPLAY env
                        end with
                  | Some n => n
                  | None => "wayland-0"%string
                  end = Client.socket_name env name).
  { unfold Client.socket_name. destruct name; [done|].
    by destruct (Client.WAYLAND_DISPLAY env). }
  rewrite Hname. set (nm := Client.socket_name env name) in *.
  assert (Hlen : String.length (dir ++ "/" ++ nm)
                 = (String.length dir + 1 + String.length nm)%nat).
  { rewrite !string_length_append. change (String.length "/") with 1%nat.
      lia. }
  rewrite snprintf_stored_fits by (unfold sun_path_size; lia).
  unfold Client.sun_path_size.
  match goal with
  | |- context [108 <? ?x] =>
      destruct (Z.ltb_spec 108 x) as [Hover|_]; [lia|]
  end.
  assert (Hsize : 2 + (Z.of_nat (String.length (dir ++ "/" ++ nm)) + 1)
                  = 2 + (Z.of_nat (String.length dir) + 1
                         + Z.of_nat (String.length nm) + 1)) by lia.
  rewrite Hsize.
  destruct (Client.connect_fails kc); do 5 eexists;
    (split; [reflexivity|]); cbn [returned syscalls socket_list_added
                                  loop_fd_added Client.syscalls]; done.
Qed.

(** X22.  Where the two sides part.  Without [XDG_RUNTIME_DIR] the server
    falls back to the current directory and listens on "./name", while the
    client gives up with [ENOENT] before any system call.  With a path
    beyond the 108 bytes of [sun_path] the server goes on without a check:
    it binds the first 107 characters with an address size beyond the 110
    bytes of the address, while the client closes its socket and gives up
    with [ENAMETOOLONG]. *)
Theorem add_socket_parts_from_client d env ks kc name errno0 :
  malloc_fails (next_alloc d) = false ->
  0 <= socket_returns ks -> bind_fails ks = false ->
  listen_fails ks = false ->
  0 <= Client.socket_returns kc ->
  (Client.XDG_RUNTIME_DIR env = None ->
   (exists out d1 size,
      wl_display_add_socket d env ks name = Done (out, d1) /\
      returned out = 0 /\
      syscalls out
      = [sys_socket;
         sys_bind (socket_returns ks)
           (snprintf_stored sun_path_size
              ("./" ++ Client.socket_name env name)) size;
         sys_listen (socket_returns ks) 1]) /\
   Client.returned (Client.connect_to_socket env kc name errno0) = -1 /\
   Client.errno_after (Client.connect_to_socket env kc name errno0)
   = Client.ENOENT /\
   Client.syscalls (Client.connect_to_socket env kc name errno0) = []) /\
  (forall dir,
     Client.XDG_RUNTIME_DIR env = Some dir ->
     108 < Z.of_nat (String.length dir)
           + Z.of_nat (String.length (Client.socket_name env name)) + 2 ->
     (exists out d1 path size,
        wl_display_add_socket d env ks name = Done (out, d1) /\
        returned out = 0 /\
        syscalls out = [sys_socket; sys_bind (socket_returns ks) path size;
                        sys_listen (socket_returns ks) 1] /\
        String.length path = 107%nat /\ 110 < size) /\
     Client.returned (Client.connect_to_socket env kc name errno0) = -1 /\
     Client.errno_after (Client.connect_to_socket env kc name errno0)
     = Client.ENAMETOOLONG /\
     Client.syscalls (Client.connect_to_socket env kc name errno0)
     = [Client.sys_socket; Client.sys_close (Client.socket_returns kc)]).
Proof.
  intros Hm Hfd Hbind Hlisten Hfdc.
  assert (Hname : match match name with
                        | Some n => Some n
                        | None => Client.WAYLAND_DISPLAY env
                        end with
                  | Some n => n
                  | None => "wayland-0"%string
                  end = Client.socket_name env name).
  { unfold Client.socket_name. destruct name; [done|].
    by destruct (Client.WAYLAND_DISPLAY env). }
  split.
  - intros Hdir. unfold wl_display_add_socket, malloc,
      Client.connect_to_socket.
    rewrite Hm, Hdir, Hbind, Hlisten, Hname.
    rewrite (proj2 (Z.ltb_ge (socket_returns ks) 0)) by lia.
    cbn [default Datatypes.id]. split; [|done].
    do 3 eexists. split; [reflexivity|]. done.
  - intros dir Hdir Hlong. unfold wl_display_add_socket, malloc,
      Client.connect_to_socket.
    rewrite Hm, Hdir, Hbind, Hlisten, Hname.
    rewrite (proj2 (Z.ltb_ge (socket_returns ks) 0)) by lia.
    rewrite (proj2 (Z.ltb_ge (Client.socket_returns kc) 0)) by lia.
    cbn [default Datatypes.id]. set (nm := Client.socket_name env name) in *.
    assert (Hlen : String.length (dir ++ "/" ++ nm)
                   = (String.length dir + 1 + String.length nm)%nat).
    { rewrite !string_length_append. change (String.length "/") with 1%nat.
      lia. }
    unfold Client.sun_path_size.
    match goal with
    | |- context [108 <? ?x] =>
        destruct (Z.ltb_spec 108 x) as [_|Hfits]; [|lia]
    end.
    split; [|done].
    do 4 eexists. split; [reflexivity|].
    cbn [returned syscalls]. split; [done|]. split; [done|]. split.
    + unfold snprintf_stored, sun_path_size.
      rewrite length_substring by lia. lia.
    + lia.
Qed.

(** X23.  [wl_display_add_socket] never closes the descriptor it got from
    [socket].  It returns 0 exactly when [socket], [bind] and [listen] all
    succeed, and then the socket is in the list of the display and its
    descriptor in the event loop; when [bind] or [listen] fails it returns
    -1 with the descriptor open and known to nobody.  When [malloc] fails
    the function does not notice, since its test compares the function
    [socket] and not the pointer, and stores through the null pointer. *)
Theorem add_socket_never_closes d env k name :
  (malloc_fails (next_alloc d) = true ->
   wl_display_add_socket d env k name = Undefined) /\
  (malloc_fails (next_alloc d) = false ->
   exists out d1,
     wl_display_add_socket d env k name = Done (out, d1) /\
     (forall fd, sys_close fd ∉ syscalls out) /\
     (returned out = 0 <->
      0 <= socket_returns k /\ bind_fails k = false /\
      listen_fails k = false) /\
     (returned out = 0 ->
      loop_fd_added out = Some (socket_returns k) /\
      exists path, socket_list_added out
                   = Some {| socket_fd := socket_returns k;
                             socket_path := path |}) /\
     (returned out <> 0 ->
      returned out = -1 /\ socket_list_added out = None /\
      loop_fd_added out = None)).
Proof.
  unfold wl_display_add_socket, malloc. split; intros ->; [done|].
  destruct (Z.ltb_spec (socket_returns k) 0) as [Hneg|Hfd].
  { do 2 eexists. split; [reflexivity|]. cbn.
    split.
    { intros fd Hin. rewrite !elem_of_cons in Hin.
      destruct Hin as [?|Hnil]; try discriminate.
      by apply elem_of_nil in Hnil. }
    split; [split; [done|lia]|]. done. }
  destruct (bind_fails k) eqn:Hbind.
  { do 2 eexists. split; [reflexivity|]. cbn.
    split.
    { intros fd Hin. rewrite !elem_of_cons in Hin.
      destruct Hin as [?|[?|Hnil]]; try discriminate.
      by apply elem_of_nil in Hnil. }
    split; [split; [done|by intros (_ & ? & _)]|]. done. }
  destruct (listen_fails k) eqn:Hlisten.
  { do 2 eexists. split; [reflexivity|]. cbn.
    split.
    { intros fd Hin. rewrite !elem_of_cons in Hin.
      destruct Hin as [?|[?|[?|Hnil]]]; try discriminate.
      by apply elem_of_nil in Hnil. }
    split; [split; [done|by intros (_ & _ & ?)]|]. done. }
  do 2 eexists. split; [reflexivity|]. cbn.
  split.
  { intros fd Hin. rewrite !elem_of_cons in Hin.
    destruct Hin as [?|[?|[?|Hnil]]]; try discriminate.
    by apply elem_of_nil in Hnil. }
  split; [done|]. split; [|done]. intros _. split; [done|]. by eexists.
Qed.

End ListeningSockets.

Section Requests.

Context `{Environment}.

(** ** A request that is decoded *)

Lemma result_bind_done {A} (m : result A) : (x ← m; Done x) = m.
Proof. by destruct m. Qed.

(** The receiving loop on a ring that holds one whole frame for an object
    of the table, with an opcode that the interface has: the frame is
    taken off the ring and decoded against the signature of the method,
    and what follows depends on the decoder alone. *)
Lemma connection_data_loop_decodes fuel d client c f a object message :
  frame_ok f ->
  clients d !! client = Some c ->
  connection_in c = encode_frame f ->
  objects d !! frame_object f = Some a ->
  heap d !! a ≫= cell_as_object = Some object ->
  frame_opcode f < wrap32 (method_count (object_interface object)) ->
  methods (object_interface object) !! Z.to_nat (frame_opcode f)
  = Some message ->
  connection_data_loop (S (S fuel)) d client (frame_size f)
  = let d1 := wl_connection_consume d client (frame_size f) in
    match demarshal message (encode_frame f) (objects d) with
    | inl e =>
        if e =? EINVAL then
          wl_client_post_event (set_errno d1 e) client display_object
            WL_DISPLAY_INVALID_METHOD
            [arg_uint (frame_object f); arg_uint (frame_opcode f)]
        else if e =? ENOMEM then
          wl_client_post_no_memory (set_errno d1 e) client
        else Undefined
    | inr args => wl_closure_invoke d1 args object (frame_opcode f) client
    end.
Proof.
  intros Hok Hc Hin Hobj Ho Hop Hmsg.
  pose proof (length_encode_frame f) as Hlen.
  pose proof (frame_size_pos f) as Hpos.
  assert (Hwhole : Z.to_nat (frame_size f) = length (encode_frame f)) by lia.
  cbn [connection_data_loop].
  rewrite (proj2 (Z.ltb_ge (frame_size f) 8)) by lia.
  rewrite Hc, Hin.
  pose proof (peek_header f [] Hok) as Hpeek. rewrite app_nil_r in Hpeek.
  destruct Hpeek as (-> & -> & ->).
  rewrite Z.ltb_irrefl. unfold wl_hash_table_lookup. rewrite Hobj, Ho.
  rewrite (proj2 (Z.leb_gt _ _)) by lia. rewrite Hmsg.
  unfold wl_connection_demarshal. rewrite Hc, Hin, Hwhole, firstn_all.
  rewrite Z.sub_diag. cbv zeta.
  destruct (demarshal message (encode_frame f) (objects d)) as [e|args].
  - destruct (e =? EINVAL); [|destruct (e =? ENOMEM); [|done]].
    + match goal with |- (?m ≫= _) = _ => destruct m end; done.
    + match goal with |- (?m ≫= _) = _ => destruct m end; done.
  - match goal with |- (?m ≫= _) = _ => destruct m end; done.
Qed.

Lemma wl_connection_consume_whole d client c f :
  clients d !! client = Some c ->
  connection_in c = encode_frame f ->
  clients (wl_connection_consume d client (frame_size f))
  = <[client := set_connection_in c []]> (clients d).
Proof.
  intros Hc Hin. apply (ServerFacts.wl_connection_consume_clients d client c).
  - done.
  - rewrite Hin. rewrite <- (app_nil_r (encode_frame f)) at 1.
    apply drop_encode_frame.
Qed.

(** X24.  A [sync] request on the wire is answered at once.  The call of
    [wl_client_connection_data] that receives the frame takes it off the
    ring, calls [display_sync] once, and posts to the sender, from the
    display, the event [key] with the key of the request and the time 0;
    no frame listener is made. *)
Theorem sync_request_answered d client c io script f key disp fuel :
  frame_ok f -> frame_opcode f = 0 ->
  clients d !! client = Some c ->
  connection_in c = [] ->
  client_socket c = io :: script ->
  io_received io = Some (encode_frame f) ->
  objects d !! frame_object f = Some display_object ->
  heap d !! display_object = Some (cell_object disp) ->
  object_interface disp = wl_display_interface ->
  object_implementation disp = Some display_interface ->
  demarshal {| message_name := "sync"; message_signature := "u" |}
    (encode_frame f) (objects d) = inr [arg_uint key] ->
  exists d1,
    wl_client_connection_data (S (S fuel)) d client WL_EVENT_READABLE
    = Done d1 /\
    posted d1
    = posted d
      ++ [(client, {| event_sender := object_id disp;
                      event_opcode_of := WL_DISPLAY_KEY;
                      event_args := [arg_uint key; arg_uint 0] |})] /\
    trace d1 = trace d ++ [t_invoke (object_id disp) 0 client] /\
    connection_in <$> clients d1 !! client = Some [] /\
    frame_list d1 = frame_list d /\ heap d1 = heap d.
Proof.
  intros Hok Hop Hc Hin Hsock Hrecv Hobj Hdisp Hitf Himpl Hdem.
  rewrite (ServerFacts.wl_client_connection_data_receive _ d client c io
             script (encode_frame f)) by done.
  rewrite Hin, app_nil_l, length_encode_frame.
  set (d0 := set_clients d _).
  set (c0 := set_connection_in (set_client_socket c script) (encode_frame f)).
  assert (Hc0 : clients d0 !! client = Some c0).
  { subst d0. cbn [clients set_clients]. by rewrite lookup_insert_eq. }
  rewrite (connection_data_loop_decodes fuel d0 client c0 f display_object
             disp {| message_name := "sync"; message_signature := "u" |});
    try done.
  - cbv zeta. subst d0. cbn [objects set_clients]. rewrite Hdem.
    rewrite Hop. unfold wl_closure_invoke. rewrite Himpl.
    unfold display_sync.
    set (d1 := record _ _).
    assert (Hc1 : clients d1 !! client = Some (set_connection_in c0 [])).
    { subst d1. cbn [clients record set_trace].
      rewrite (wl_connection_consume_whole _ client c0 f) by done.
      by rewrite lookup_insert_eq. }
    rewrite (ServerFacts.wl_client_post_event_ok d1 client display_object
               (set_connection_in c0 []) disp);
      [|done|subst d1; cbn [heap record set_trace wl_connection_consume
                            set_clients]; by rewrite Hdisp].
    eexists. split; [reflexivity|].
    cbn [posted set_posted trace frame_list heap clients].
    rewrite Hc1. subst d1.
    cbn [posted trace frame_list heap record set_trace wl_connection_consume
         set_clients]. done.
  - subst d0. cbn [heap set_clients]. by rewrite Hdisp.
  - rewrite Hitf, Hop. done.
  - by rewrite Hitf, Hop.
Qed.

(** X25.  A request that does not decode is answered and dropped.  When
    the decoder fails with [EINVAL] the sender gets [invalid_method] with
    the id and the opcode of the frame, when it fails with [ENOMEM] it gets
    [no_memory]; either way the frame is off the ring and the method was
    not called.  With any other [errno] the loop goes on to call the method
    with the null closure. *)
Theorem undecoded_request_answered d client c io script f a object message e
  disp fuel :
  frame_ok f ->
  clients d !! client = Some c ->
  connection_in c = [] ->
  client_socket c = io :: script ->
  io_received io = Some (encode_frame f) ->
  objects d !! frame_object f = Some a ->
  heap d !! a ≫= cell_as_object = Some object ->
  heap d !! display_object ≫= cell_as_object = Some disp ->
  frame_opcode f < wrap32 (method_count (object_interface object)) ->
  methods (object_interface object) !! Z.to_nat (frame_opcode f)
  = Some message ->
  demarshal message (encode_frame f) (objects d) = inl e ->
  (e <> EINVAL -> e <> ENOMEM ->
   wl_client_connection_data (S (S fuel)) d client WL_EVENT_READABLE
   = Undefined) /\
  (e = EINVAL \/ e = ENOMEM ->
   exists d1,
     wl_client_connection_data (S (S fuel)) d client WL_EVENT_READABLE
     = Done d1 /\
     posted d1
     = posted d
       ++ [(client,
            {| event_sender := object_id disp;
               event_opcode_of :=
                 if e =? EINVAL then WL_DISPLAY_INVALID_METHOD
                 else WL_DISPLAY_NO_MEMORY;
               event_args :=
                 if e =? EINVAL
                 then [arg_uint (frame_object f); arg_uint (frame_opcode f)]
                 else [] |})] /\
     trace d1 = trace d /\ errno d1 = e /\
     connection_in <$> clients d1 !! client = Some [] /\
     frame_list d1 = frame_list d /\ heap d1 = heap d).
Proof.
  intros Hok Hc Hin Hsock Hrecv Hobj Ho Hdisp Hop Hmsg Hdem.
  rewrite (ServerFacts.wl_client_connection_data_receive _ d client c io
             script (encode_frame f)) by done.
  rewrite Hin, app_nil_l, length_encode_frame.
  set (d0 := set_clients d _).
  set (c0 := set_connection_in (set_client_socket c script) (encode_frame f)).
  assert (Hc0 : clients d0 !! client = Some c0).
  { subst d0. cbn [clients set_clients]. by rewrite lookup_insert_eq. }
  rewrite (connection_data_loop_decodes fuel d0 client c0 f a object message)
    by done.
  cbv zeta. replace (objects d0) with (objects d) by done. rewrite Hdem.
  set (d1 := set_errno _ _).
  assert (Hc1 : clients d1 !! client = Some (set_connection_in c0 [])).
  { subst d1. cbn [clients set_errno].
    rewrite (wl_connection_consume_whole _ client c0 f) by done.
    by rewrite lookup_insert_eq. }
  assert (Hd1 : heap d1 !! display_object ≫= cell_as_object = Some disp)
    by done.
  split.
  - intros He1 He2.
    rewrite (proj2 (Z.eqb_neq e EINVAL)), (proj2 (Z.eqb_neq e ENOMEM));
      done.
  - intros [->| ->].
    + cbn [Z.eqb EINVAL Pos.eqb].
      rewrite (ServerFacts.wl_client_post_event_ok d1 client display_object
                 (set_connection_in c0 []) disp) by done.
      eexists. split; [reflexivity|].
      cbn [posted set_posted trace frame_list heap clients errno].
      rewrite Hc1. done.
    + change (ENOMEM =? EINVAL) with false.
      change (ENOMEM =? ENOMEM) with true. cbv iota.
      unfold wl_client_post_no_memory.
      rewrite (ServerFacts.wl_client_post_event_ok d1 client display_object
                 (set_connection_in c0 []) disp) by done.
      eexists. split; [reflexivity|].
      cbn [posted set_posted trace frame_list heap clients errno].
      rewrite Hc1. done.
Qed.

End Requests.

Section Departure.

Context `{Environment}.

(** ** A client that goes away *)

Lemma plain_resource_destroy c :
  plain_resource c ->
  (exists li, c = cell_frame_listener li /\
              cell_destroy c = Some destroy_frame_listener) \/
  (exists r n, c = cell_resource r /\ cell_destroy c = Some (user_destroy n)).
Proof.
  destruct c as [o|r|li]; cbn; [done| |by left; eexists].
  intros Hr. right. destruct (resource_destroy r) as [|n] eqn:E; [done|].
  by exists r, n.
Qed.

(** One call of [wl_resource_destroy] on a resource of a client. *)
Lemma wl_resource_destroy_step d a client cl c :
  quiet_destroy ->
  clients d !! client = Some cl ->
  heap d !! a = Some c ->
  plain_resource c ->
  exists d1,
    wl_resource_destroy d a client = Done d1 /\
    trace d1 = trace d ++ [t_destroy a client] /\
    posted d1 = posted d /\ next_alloc d1 = next_alloc d /\
    clients d1
    = (fun c => set_resource_list c
                  (filter (fun b => b ≠ a) (resource_list c))) <$> clients d /\
    (forall b, b <> a -> heap d1 !! b = heap d !! b) /\
    heap d1 !! a = match listener_at d a with
                   | Some _ => None
                   | None => Some c
                   end /\
    frame_list d1
    = match listener_at d a with
      | Some _ => filter (fun b => b ≠ a) (frame_list d)
      | None => frame_list d
      end.
Proof.
  intros Hq Hcl Hc Hplain. unfold wl_resource_destroy, listener_at.
  rewrite Hcl, Hc.
  destruct (plain_resource_destroy c Hplain)
    as [(li & -> & ->)|(r & n & -> & ->)].
  - eexists. split; [reflexivity|].
    cbn [cell_object_id Z.ltb Z.compare].
    unfold destroy_frame_listener_body.
    split; [done|]. split; [done|]. split; [done|]. split; [done|].
    split.
    { intros b Hb. cbn [heap set_heap]. by rewrite lookup_delete_ne. }
    split; [|done]. cbn [heap set_heap]. by rewrite lookup_delete_eq.
  - rewrite Hq. eexists. split; [reflexivity|].
    destruct (0 <? _); repeat split; done.
Qed.

Lemma destroy_resources_ok l : forall d client cl,
  quiet_destroy ->
  NoDup l ->
  clients d !! client = Some cl ->
  (forall a, a ∈ l -> exists c, heap d !! a = Some c /\ plain_resource c) ->
  exists d1,
    destroy_resources l d client = Done d1 /\
    trace d1 = trace d ++ map (fun a => t_destroy a client) l /\
    posted d1 = posted d /\ next_alloc d1 = next_alloc d /\
    clients d1
    = (fun c => set_resource_list c (unlink_all l (resource_list c)))
        <$> clients d /\
    (forall b, ~ (b ∈ l /\ is_Some (listener_at d b)) ->
               heap d1 !! b = heap d !! b) /\
    (forall b, b ∈ l -> is_Some (listener_at d b) -> heap d1 !! b = None) /\
    (forall b, b ∈ frame_list d1 <->
               b ∈ frame_list d /\ ~ (b ∈ l /\ is_Some (listener_at d b))) /\
    (NoDup (frame_list d) -> NoDup (frame_list d1)).
Proof.
  induction l as [|a l IH]; intros d client cl Hq Hnd Hcl Hl.
  - exists d. cbn [destroy_resources map]. rewrite app_nil_r.
    split; [done|]. split; [done|]. split; [done|]. split; [done|].
    split.
    { symmetry. rewrite <- (map_fmap_id (clients d)) at 2.
      apply map_fmap_ext. intros ? [] ?. done. }
    split; [done|].
    split. { intros b Hb. by apply elem_of_nil in Hb. }
    split; [|done].
    intros b. split; [|by intros [? _]].
    intros Hb. split; [done|]. intros [Hb' _]. by apply elem_of_nil in Hb'.
  - apply NoDup_cons in Hnd as [Ha Hnd].
    destruct (Hl a) as (c & Hc & Hplain); [left|].
    destruct (wl_resource_destroy_step d a client cl c Hq Hcl Hc Hplain)
      as (d1 & Hstep & Ht1 & Hp1 & Hn1 & Hcs1 & Hh1 & Hha1 & Hf1).
    cbn [destroy_resources]. rewrite Hstep. cbn [mbind result_bind].
    assert (Hsame : forall b, b <> a -> listener_at d1 b = listener_at d b).
    { intros b Hb. unfold listener_at. by rewrite Hh1. }
    destruct (IH d1 client
                (set_resource_list cl
                   (filter (fun b => b ≠ a) (resource_list cl))) Hq Hnd)
      as (d2 & Hrun & Ht & Hp & Hn & Hcs & Hkeep & Hgone & Hfl & Hnd2).
    { by rewrite Hcs1, lookup_fmap, Hcl. }
    { intros b Hb. destruct (Hl b) as (cb & Hcb & Hpb); [by right|].
      exists cb. split; [|done]. rewrite Hh1; [done|]. by intros ->. }
    exists d2. split; [done|].
    split. { rewrite Ht, Ht1, <- app_assoc. done. }
    split; [congruence|]. split; [congruence|].
    split.
    { rewrite Hcs, Hcs1, <- map_fmap_compose. apply map_fmap_ext.
      intros ? [] ?. done. }
    split.
    { intros b Hb. destruct (decide (b = a)) as [->|Hne].
      - rewrite Hkeep by (intros [? _]; done). rewrite Hha1.
        destruct (listener_at d a) eqn:E; [|done].
        exfalso. apply Hb. split; [left|]. rewrite ?E. by eexists.
      - rewrite Hkeep, Hh1; [done..|].
        intros [Hbl Hli]. apply Hb. split; [by right|].
        by rewrite <- Hsame. }
    split.
    { intros b Hb Hli. apply elem_of_cons in Hb as [->|Hb].
      - rewrite Hkeep by (intros [? _]; done). rewrite Hha1.
        by destruct Hli as [li ->].
      - assert (Hne : b <> a) by (by intros ->).
        apply Hgone; [done|]. by rewrite Hsame. }
    split.
    { intros b. rewrite Hfl. destruct (decide (b = a)) as [->|Hne].
      - rewrite Hf1. destruct (listener_at d a) eqn:E.
        + rewrite list_elem_of_filter. split; [intros [[? _] _]; done|].
          intros [_ Hno]. exfalso. apply Hno.
          split; [left|rewrite ?E; by eexists].
        + split.
          * intros [Hin _]. split; [done|]. intros [_ [? ?]].
            congruence.
          * intros [Hin _]. split; [done|]. by intros [? _].
      - rewrite (Hsame b Hne), elem_of_cons.
        assert (Hin : b ∈ frame_list d1 <-> b ∈ frame_list d).
        { rewrite Hf1. destruct (listener_at d a); [|done].
          rewrite list_elem_of_filter. tauto. }
        rewrite Hin. tauto. }
    intros Hndf. apply Hnd2. rewrite Hf1.
    destruct (listener_at d a); [by apply NoDup_filter|done].
Qed.

Lemma listener_at_cell d a li :
  listener_at d a = Some li <-> heap d !! a = Some (cell_frame_listener li).
Proof.
  unfold listener_at. destruct (heap d !! a) as [[]|]; split; congruence.
Qed.

(** X26.  A client whose socket fails is destroyed, and its frame
    listeners go with it.  On a read error [wl_client_connection_data]
    calls the destroy function of every resource of the client, in the
    order of its list, and removes the client.  The frame list loses the
    listeners of that client and keeps those of the others, and stays well
    formed: a later [wl_display_post_frame] returns, and posts to the
    clients that remain and nothing to the one that is gone. *)
Theorem lost_client_takes_its_listeners d client c io script fuel time :
  quiet_destroy ->
  frames_wf d -> listeners_owned d ->
  clients d !! client = Some c ->
  resources_wf d c ->
  client_socket c = io :: script ->
  io_received io = None ->
  exists d1 d2 disp,
    heap d !! display_object ≫= cell_as_object = Some disp /\
    wl_client_connection_data fuel d client WL_EVENT_READABLE = Done d1 /\
    clients d1 !! client = None /\
    (forall k, k <> client -> is_Some (clients d1 !! k) <->
                              is_Some (clients d !! k)) /\
    destroyed (trace d1) = destroyed (trace d) ++ resource_list c /\
    posted d1 = posted d /\
    (forall a li, listener_at d a = Some li ->
       (a ∈ frame_list d1 <->
        a ∈ frame_list d /\ listener_client li <> client) /\
       (listener_client li <> client -> listener_at d1 a = Some li)) /\
    frames_wf d1 /\
    wl_display_post_frame d1 time = Done d2 /\
    posted d2
    = posted d
      ++ map (key_event (object_id disp) time)
           (listeners d1 (frame_list d1)) /\
    Forall (fun li => listener_client li <> client)
      (listeners d1 (frame_list d1)).
Proof.
  intros Hq Hwf Hown Hc [Hnd Hres] Hsock Hrecv.
  destruct (wf_display d Hwf) as [disp Hdisp].
  unfold wl_client_connection_data, wl_connection_data.
  rewrite Hc, Hsock.
  change (Z.land WL_EVENT_READABLE WL_EVENT_READABLE =? 0) with false.
  change (Z.land WL_EVENT_READABLE WL_EVENT_WRITEABLE =? 0) with true.
  cbv iota.
  change (Z.lor WL_CONNECTION_READABLE 0) with 1.
  change (Z.land 1 WL_CONNECTION_WRITABLE =? 0) with true.
  change (Z.land 1 WL_CONNECTION_READABLE =? 0) with false.
  cbn [negb andb]. rewrite Hrecv. cbn [mbind result_bind Z.ltb Z.compare].
  set (c0 := set_client_socket c script). set (d0 := set_clients d _).
  assert (Hc0 : clients d0 !! client = Some c0).
  { subst d0. cbn [clients set_clients]. by rewrite lookup_insert_eq. }
  unfold wl_client_destroy. rewrite Hc0.
  change (resource_list c0) with (resource_list c).
  destruct (destroy_resources_ok (resource_list c) d0 client c0 Hq Hnd Hc0)
    as (d1 & Hrun & Ht & Hp & Hn & Hcs & Hkeep & Hgone & Hfl & Hndf).
  { intros a Ha. rewrite Forall_forall in Hres. specialize (Hres a Ha).
    change (heap d0) with (heap d).
    destruct (heap d !! a) as [cell|]; [|done]. by exists cell. }
  rewrite Hrun. cbn [mbind result_bind].
  set (d2 := set_clients d1 _).
  assert (Hlis0 : forall a, listener_at d0 a = listener_at d a) by done.
  (* who owns what *)
  assert (Hmine : forall a li,
            listener_at d a = Some li -> a ∈ resource_list c ->
            listener_client li = client).
  { intros a li Hli Ha. apply listener_at_cell in Hli.
    destruct (Hown a _ Hli) as [_ Hall]. symmetry. by apply (Hall client c). }
  assert (Htheirs : forall a li,
            listener_at d a = Some li -> a ∈ frame_list d ->
            listener_client li = client -> a ∈ resource_list c).
  { intros a li Hli Ha Hcl. apply listener_at_cell in Hli.
    destruct (Hown a _ Hli) as [Hin _]. specialize (Hin Ha).
    rewrite Hcl, Hc in Hin. done. }
  assert (Hheap2 : forall a li,
            listener_at d a = Some li -> listener_client li <> client ->
            listener_at d2 a = Some li).
  { intros a li Hli Hne. unfold listener_at. subst d2. cbn [heap set_clients].
    rewrite Hkeep; [exact Hli|].
    intros [Ha _]. apply Hne. by apply (Hmine a li). }
  assert (Hfl2 : forall a li, listener_at d a = Some li ->
            (a ∈ frame_list d2 <->
             a ∈ frame_list d /\ listener_client li <> client)).
  { intros a li Hli. subst d2. cbn [frame_list set_clients]. rewrite Hfl.
    change (frame_list d0) with (frame_list d). rewrite Hlis0, Hli.
    split.
    - intros [Ha Hno]. split; [done|]. intros Hcl. apply Hno.
      split; [|done]. by apply (Htheirs a li).
    - intros [Ha Hne]. split; [done|]. intros [Hin _]. apply Hne.
      by apply (Hmine a li). }
  assert (Hwf2 : frames_wf d2).
  { constructor.
    - subst d2. cbn [frame_list set_clients]. apply Hndf.
      exact (wf_nodup d Hwf).
    - intros a Ha.
      assert (Ha0 : a ∈ frame_list d).
      { subst d2. cbn [frame_list set_clients] in Ha.
        apply Hfl in Ha as [Ha _]. exact Ha. }
      destruct (wf_listeners d Hwf a Ha0) as (li & Hli & [cl Hcl]).
      apply (Hfl2 a li Hli) in Ha as [_ Hne].
      exists li. split; [by apply Hheap2|].
      subst d2. cbn [clients set_clients].
      rewrite lookup_delete_ne by done. rewrite Hcs, lookup_fmap.
      subst d0. cbn [clients set_clients].
      rewrite lookup_insert_ne by done. by rewrite Hcl.
    - subst d2. cbn [heap set_clients].
      rewrite Hkeep; [change (heap d0) with (heap d); by rewrite Hdisp|].
      intros [_ [li Hli]]. rewrite Hlis0 in Hli.
      apply listener_at_cell in Hli.
      destruct (heap d !! display_object) as [[]|]; done.
    - intros a [cell Hcell]. subst d2. cbn [heap next_alloc set_clients] in *.
      rewrite Hn. change (next_alloc d0) with (next_alloc d).
      apply (wf_fresh d Hwf).
      destruct (decide (a ∈ resource_list c /\ is_Some (listener_at d0 a)))
        as [[Ha Hli]|Hno].
      + by rewrite Hgone in Hcell.
      + rewrite Hkeep in Hcell by done. change (heap d0) with (heap d) in Hcell.
        by exists cell. }
  assert (Hdisp2 : heap d2 !! display_object ≫= cell_as_object = Some disp).
  { subst d2. cbn [heap set_clients].
    rewrite Hkeep; [change (heap d0) with (heap d); done|].
    intros [_ [li Hli]]. rewrite Hlis0 in Hli.
    apply listener_at_cell in Hli.
    destruct (heap d !! display_object) as [[]|]; done. }
  destruct (ServerFacts.post_frame_loop_ok (frame_list d2) d2 disp time
              (wf_nodup d2 Hwf2) (wf_listeners d2 Hwf2) Hdisp2)
    as (d3 & Hpost & Hposted & _).
  exists d2, d3, disp. split; [done|]. split; [done|].
  split. { subst d2. cbn [clients set_clients]. by rewrite lookup_delete_eq. }
  split.
  { intros k Hk. subst d2. cbn [clients set_clients].
    rewrite lookup_delete_ne by done. rewrite Hcs, lookup_fmap.
    subst d0. cbn [clients set_clients].
    rewrite lookup_insert_ne by done. by rewrite fmap_is_Some. }
  split.
  { subst d2. cbn [trace set_clients]. rewrite Ht.
    change (trace d0) with (trace d). rewrite ServerFacts.destroyed_app.
    f_equal. unfold destroyed. clear. induction (resource_list c) as [|a l IH];
      [done|]. csimpl. by rewrite IH. }
  split. { subst d2. cbn [posted set_clients]. by rewrite Hp. }
  split. { intros a li Hli. split; [by apply Hfl2|by apply Hheap2]. }
  split; [done|]. split; [exact Hpost|].
  split. { rewrite Hposted. subst d2. cbn [posted set_clients]. by rewrite Hp. }
  apply Forall_forall. intros li Hli. unfold listeners in Hli.
  apply list_elem_of_omap in Hli as (a & Ha & Hla).
  assert (Ha0 : a ∈ frame_list d).
  { subst d2. cbn [frame_list set_clients] in Ha.
    apply Hfl in Ha as [Ha _]. exact Ha. }
  destruct (wf_listeners d Hwf a Ha0) as (li0 & Hli0 & _).
  apply (Hfl2 a li0 Hli0) in Ha as [_ Hne].
  rewrite (Hheap2 a li0 Hli0 Hne) in Hla. by injection Hla as <-.
Qed.

End Departure.

Section Resources.

Context `{Environment}.

(** ** Resources and ranges *)

(** X27.  A resource of the compositor added to a client and destroyed
    again.  [wl_client_add_resource] puts the resource in the table under
    its id and at the tail of the list of the client;
    [wl_resource_destroy] calls its destroy function once and unlinks it.
    The entry of the table is removed only for an id above 0: a resource
    with id 0 stays in the table after it was destroyed. *)
Theorem resource_round_trip d client cl r o n :
  quiet_destroy ->
  clients d !! client = Some cl ->
  64 <= id_count cl < 4294967296 ->
  heap d !! r = Some (cell_resource {| resource_object := o;
                                       resource_destroy := user_destroy n |}) ->
  r ∉ resource_list cl ->
  exists d1 d2,
    wl_client_add_resource d client r = Done d1 /\
    objects d1 !! object_id o = Some r /\
    resource_list <$> clients d1 !! client = Some (resource_list cl ++ [r]) /\
    wl_resource_destroy d1 r client = Done d2 /\
    resource_list <$> clients d2 !! client = Some (resource_list cl) /\
    trace d2 = trace d ++ [t_destroy r client] /\
    objects d2
    = (if 0 <? object_id o then delete (object_id o) (objects d)
       else <[object_id o := r]> (objects d)) /\
    heap d2 = heap d /\ posted d2 = posted d.
Proof.
  intros Hq Hcl Hcount Hr Hnew. unfold wl_client_add_resource.
  rewrite Hcl, Hr. rewrite (proj2 (Z.ltb_ge (id_count cl) 64)) by lia.
  cbn [mbind result_bind cell_object_id resource_object].
  set (d1 := set_clients _ _).
  assert (Hcl1 : clients d1 !! client
                 = Some (set_resource_list
                           (set_id_count cl (wrap32 (id_count cl - 1)))
                           (resource_list cl ++ [r]))).
  { subst d1. cbn [clients set_clients set_objects].
    by rewrite lookup_alter_eq, lookup_insert_eq. }
  exists d1. eexists. split; [reflexivity|].
  split.
  { subst d1. cbn [objects set_clients set_objects].
    unfold wl_hash_table_insert. by rewrite lookup_insert_eq. }
  split. { by rewrite Hcl1. }
  unfold wl_resource_destroy. rewrite Hcl1.
  replace (heap d1) with (heap d) by done. rewrite Hr.
  cbn [cell_destroy resource_destroy cell_object_id resource_object].
  rewrite Hq. split; [reflexivity|].
  split.
  { destruct (0 <? object_id o);
      cbn [clients record set_trace set_objects set_clients];
      rewrite lookup_fmap, Hcl1; cbn;
      rewrite filter_app, filter_cons_False, filter_nil, app_nil_r
        by (intros Hne; by apply Hne);
      f_equal; clear -Hnew; induction (resource_list cl) as [|a l IH];
      try done; apply not_elem_of_cons in Hnew as [Ha Hl];
      rewrite filter_cons_True by done; by rewrite IH. }
  split. { by destruct (0 <? object_id o). }
  split.
  { destruct (0 <? object_id o); subst d1;
      cbn [objects record set_trace set_objects set_clients];
      unfold wl_hash_table_remove, wl_hash_table_insert; [|done].
    by rewrite delete_insert_eq. }
  by destruct (0 <? object_id o).
Qed.

(** X28.  Two clients that connect one after the other are told the same
    globals in the same order, and get adjacent ranges of 256 ids each: the
    second range starts where the first ends. *)
Theorem two_clients_get_adjacent_ranges d s1 s2 disp :
  malloc_fails (next_alloc d) = false ->
  malloc_fails (S (next_alloc d)) = false ->
  heap d !! display_object ≫= cell_as_object = Some disp ->
  globals_wf d ->
  0 <= client_id_range d -> client_id_range d + 256 < 4294967296 ->
  let globals :=
    omap (fun g => global_event d (object_id disp) (global_object g))
      (global_list d) in
  exists d1 d2,
    wl_client_create d s1 = Done (Some (next_alloc d), d1) /\
    wl_client_create d1 s2 = Done (Some (S (next_alloc d)), d2) /\
    posted d2
    = posted d
      ++ map (pair (next_alloc d))
           (range_event (object_id disp) (client_id_range d) :: globals)
      ++ map (pair (S (next_alloc d)))
           (range_event (object_id disp) (client_id_range d + 256)
            :: globals) /\
    length globals = length (global_list d) /\
    id_count <$> clients d2 !! next_alloc d = Some 256 /\
    id_count <$> clients d2 !! S (next_alloc d) = Some 256 /\
    client_id_range d2 = wrap32 (client_id_range d + 512).
Proof.
  intros Hm Hm1 Hdisp Hwf Hlo Hhi globals.
  destruct (wl_client_create_events d s1 disp Hm Hdisp Hwf) as
    (d1 & Hrun1 & Hp1 & Hlen1 & Hcs1 & Hr1 & _ & Hh1 & Hg1 & _ & Hn1 & _).
  destruct (wl_client_create_events d1 s2 disp) as
    (d2 & Hrun2 & Hp2 & _ & Hcs2 & Hr2 & _).
  { by rewrite Hn1. }
  { by rewrite Hh1. }
  { unfold globals_wf. by rewrite Hg1, Hh1. }
  rewrite Hn1 in Hrun2, Hp2, Hcs2.
  exists d1, d2. split; [done|]. split; [done|].
  split.
  { rewrite Hp2, Hp1, Hr1, Hg1, <- app_assoc. unfold global_event.
    rewrite Hh1. by rewrite wrap32_small by lia. }
  split; [exact Hlen1|].
  rewrite Hcs2, Hcs1, Hr2, Hr1.
  split. { rewrite lookup_insert_ne by lia. by rewrite lookup_insert_eq. }
  split. { by rewrite lookup_insert_eq. }
  rewrite (wrap32_small (client_id_range d + 256)) by lia.
  f_equal. lia.
Qed.

End Resources.

(** ** The model at work *)

Lemma wl_compositor_init_release_witness :
  exists d1,
    @wl_compositor_init release_environment (bare_interface "wl_compositor")
      (bare_interface "wl_visual") fresh_display
      (Some {| compositor_object := 10; argb_visual := 11;
               premultiplied_argb_visual := 12; rgb_visual := 13 |})
      (Some 0%nat) = Done (0, d1) /\
    id d1 = 6 /\
    objects d1 !! 2 = Some 10%nat /\ objects d1 !! 5 = Some 13%nat /\
    global_object <$> global_list d1 = [0; 10; 11; 12; 13]%nat.
Proof.
  destruct (wl_compositor_init_release (H := release_environment)
              (bare_interface "wl_compositor") (bare_interface "wl_visual")
              fresh_display
              {| compositor_object := 10; argb_visual := 11;
                 premultiplied_argb_visual := 12; rgb_visual := 13 |} 0%nat)
    as (d1 & Hrun & Hid & Hobj & _ & _ & _ & _ & Hgl & _);
    try reflexivity.
  - vm_compute. discriminate.
  - apply (bool_decide_unpack _). vm_compute. exact I.
  - exists d1. split; [exact Hrun|]. split; [exact Hid|].
    rewrite Hobj, Hgl. repeat split; vm_compute; reflexivity.
Defined.

Lemma wl_compositor_init_debug_aborts_witness :
  @wl_compositor_init debug_environment (bare_interface "wl_compositor")
    (bare_interface "wl_visual") fresh_display
    (Some {| compositor_object := 10; argb_visual := 11;
             premultiplied_argb_visual := 12; rgb_visual := 13 |})
    (Some 0%nat) = Aborted.
Proof.
  apply (wl_compositor_init_debug_aborts (H := debug_environment)
           (bare_interface "wl_compositor") (bare_interface "wl_visual")
           fresh_display
           {| compositor_object := 10; argb_visual := 11;
              premultiplied_argb_visual := 12; rgb_visual := 13 |} 0%nat).
  reflexivity.
Defined.

Lemma fresh_display_globals_wf : globals_wf fresh_display.
Proof. apply (bool_decide_unpack _). vm_compute. exact I. Qed.

Lemma wl_client_create_announces_witness :
  globals_wf with_second_global /\
  exists d1,
    @wl_client_create release_environment with_second_global []
    = Done (Some 3%nat, d1) /\
    (posted d1).*2
    = [ range_event 1 256;
        {| event_sender := 1; event_opcode_of := WL_DISPLAY_GLOBAL;
           event_args := [arg_object (Some 0%nat); arg_string "wl_display";
                          arg_uint 1] |};
        {| event_sender := 1; event_opcode_of := WL_DISPLAY_GLOBAL;
           event_args := [arg_object (Some 0%nat); arg_string "wl_display";
                          arg_uint 1] |} ] /\
    connect_calls (trace d1) = [].
Proof.
  destruct (wl_client_create_announces (H := release_environment)
              fresh_display []
              {| object_interface := wl_display_interface;
                 object_implementation := Some display_interface;
                 object_id := 1 |}
              display_object None 0 with_second_global)
    as (Hwf & d1 & Hrun & Hp & _ & Ht); try reflexivity.
  - exact fresh_display_globals_wf.
  - vm_compute. eauto.
  - split; [exact Hwf|]. exists d1. split; [exact Hrun|].
    rewrite Hp, Ht. split; vm_compute; reflexivity.
Defined.

Lemma one_client_state_globals_wf : globals_wf one_client_state.
Proof. apply (bool_decide_unpack _). vm_compute. exact I. Qed.

Lemma late_global_needs_post_global_witness :
  exists d1 d2 d3 ev,
    ev = {| event_sender := 1; event_opcode_of := WL_DISPLAY_GLOBAL;
            event_args := [arg_object (Some 0%nat); arg_string "wl_display";
                           arg_uint 1] |} /\
    @wl_display_add_global release_environment one_client_state
      (Some display_object) None = Done (0, d1) /\
    posted d1 = posted one_client_state /\
    @wl_client_post_global release_environment d1 (Some 2%nat)
      (Some display_object) = Done d2 /\
    posted d2 = posted one_client_state ++ [(2%nat, ev)] /\
    @wl_client_create release_environment d1 [] = Done (Some 4%nat, d3) /\
    last (posted d3) = Some (4%nat, ev).
Proof.
  destruct (late_global_needs_post_global (H := release_environment)
              one_client_state display_object
              {| object_interface := wl_display_interface;
                 object_implementation := Some display_interface;
                 object_id := 1 |}
              2%nat
              {| connection_in := []; client_socket := [];
                 resource_list := []; id_count := 256 |}
              {| object_interface := wl_display_interface;
                 object_implementation := Some display_interface;
                 object_id := 1 |} [])
    as (d1 & d2 & d3 & ev & Hev & Hadd & Hp1 & Hpost & Hp2 & Hnew & Hlast);
    try reflexivity.
  - exact one_client_state_globals_wf.
  - exists d1, d2, d3, ev. vm_compute in Hev. injection Hev as <-.
    repeat split; assumption.
Defined.

Lemma pointer_focus_moves_witness :
  exists st1 st2,
    @wl_input_device_set_pointer_focus release_environment (other_event 3)
      input_example (Some 21%nat) (Some 31%nat) 7 1 2 3 4 = Done st1 /\
    drop 4 (posted (input_display st1)).*1 = [2; 3]%nat /\
    pointer_focus <$> devices st1 !! 21%nat = Some (Some 31%nat) /\
    destroy_listener_list <$> surfaces st1 !! 30%nat = Some [] /\
    destroy_listener_list <$> surfaces st1 !! 31%nat
    = Some [pointer_focus_listener 21] /\
    @lose_pointer_focus release_environment (other_event 3) st1
      (pointer_focus_listener 21) 31 8 = Done st2 /\
    pointer_focus <$> devices st2 !! 21%nat = Some None.
Proof.
  destruct (pointer_focus_moves (H := release_environment) (other_event 3)
              input_example 21%nat
              {| device_object := 20;
                 device_compositor := None;
                 device_x := 100;
                 device_y := 100;
                 pointer_focus := Some 30%nat;
                 pointer_focus_time := 0;
                 keyboard_focus := None;
                 keyboard_focus_time := 0;
                 keys := [] |}
              30%nat 31%nat
              {| surface_client := 2;
                 destroy_listener_list := [pointer_focus_listener 21] |}
              {| surface_client := 3; destroy_listener_list := [] |}
              {| connection_in := [];
                 client_socket := [ {| io_sent := true;
                                       io_received := None |} ];
                 resource_list := [4; 6]%nat; id_count := 256 |}
              {| connection_in := []; client_socket := [];
                 resource_list := [5%nat]; id_count := 256 |}
              {| object_interface := bare_interface "wl_input_device";
                 object_implementation := None;
                 object_id := 0 |}
              7 1 2 3 4 8)
    as (st1 & st2 & Hrun & Hp & Hfocus & _ & _ & Hlist & Hlose & _ & Hnone
        & _);
    try reflexivity.
  - lia.
  - exists st1, st2. split; [exact Hrun|].
    split; [rewrite Hp; vm_compute; reflexivity|].
    split; [exact Hfocus|].
    split.
    { vm_compute in Hrun. injection Hrun as <-. vm_compute. reflexivity. }
    split; [rewrite Hlist; vm_compute; reflexivity|].
    split; [exact Hlose|exact Hnone].
Defined.

Lemma keyboard_focus_round_trip_witness :
  exists st1 st2,
    @wl_input_device_set_keyboard_focus release_environment (other_event 4)
      input_example (Some 21%nat) (Some 31%nat) 7 = Done st1 /\
    keyboard_focus <$> devices st1 !! 21%nat = Some (Some 31%nat) /\
    @wl_input_device_set_keyboard_focus release_environment (other_event 4)
      st1 (Some 21%nat) (Some 31%nat) 9 = Done st1 /\
    @lose_keyboard_focus release_environment (other_event 4) st1
      (keyboard_focus_listener 21) 31 8 = Done st2 /\
    drop 4 (posted (input_display st2)).*1 = [3; 3]%nat /\
    keyboard_focus <$> devices st2 !! 21%nat = Some None /\
    surfaces st2 = surfaces input_example.
Proof.
  destruct (keyboard_focus_round_trip (H := release_environment)
              (other_event 4) input_example 21%nat
              {| device_object := 20;
                 device_compositor := None;
                 device_x := 100;
                 device_y := 100;
                 pointer_focus := Some 30%nat;
                 pointer_focus_time := 0;
                 keyboard_focus := None;
                 keyboard_focus_time := 0;
                 keys := [] |}
              31%nat
              {| surface_client := 3; destroy_listener_list := [] |}
              {| connection_in := []; client_socket := [];
                 resource_list := [5%nat]; id_count := 256 |}
              {| object_interface := bare_interface "wl_input_device";
                 object_implementation := None;
                 object_id := 0 |}
              7 9 8)
    as (st1 & st2 & Hrun & _ & Hfocus & Hsame & Hlose & Hp & Hnone & Hsurf);
    try reflexivity.
  - apply (bool_decide_unpack _). vm_compute. exact I.
  - exists st1, st2. repeat split; try assumption.
    rewrite Hp. vm_compute. reflexivity.
Defined.

Lemma add_socket_agrees_with_client_witness :
  exists out d1 rest,
    @wl_display_add_socket release_environment fresh_display
      Client.user_environ willing_kernel None = Done (out, d1) /\
    returned out = 0 /\
    syscalls out = [sys_socket; sys_bind 4 "/run/user/1000/wayland-0" 27;
                    sys_listen 4 1] /\
    Client.syscalls
      (Client.connect_to_socket Client.user_environ Client.willing_kernel
         None 0)
    = Client.sys_socket
      :: Client.sys_connect 3 "/run/user/1000/wayland-0" 27 :: rest.
Proof.
  destruct (add_socket_agrees_with_client (H := release_environment)
              fresh_display Client.user_environ willing_kernel
              Client.willing_kernel None "/run/user/1000" 0)
    as (out & d1 & path & size & rest & Hrun & Hret & Hsys & _ & _ & Hpath
        & Hclient); try reflexivity.
  - cbn. lia.
  - cbn. lia.
  - vm_compute. discriminate.
  - exists out, d1, rest. split; [exact Hrun|]. split; [exact Hret|].
    vm_compute in Hrun. injection Hrun as <- <-.
    vm_compute in Hsys. injection Hsys as <- <-.
    split; [reflexivity|]. exact Hclient.
Defined.

Lemma add_socket_parts_from_client_witness :
  (exists out d1 size,
     @wl_display_add_socket release_environment fresh_display bare_environ
       willing_kernel None = Done (out, d1) /\
     returned out = 0 /\
     syscalls out = [sys_socket; sys_bind 4 "./wayland-0" size;
                     sys_listen 4 1]) /\
  Client.returned
    (Client.connect_to_socket bare_environ Client.willing_kernel None 0)
  = -1 /\
  Client.syscalls
    (Client.connect_to_socket bare_environ Client.willing_kernel None 0)
  = [].
Proof.
  destruct (add_socket_parts_from_client (H := release_environment)
              fresh_display bare_environ willing_kernel
              Client.willing_kernel None 0) as [Hbare _];
    try reflexivity.
  - cbn. lia.
  - cbn. lia.
  - destruct (Hbare eq_refl) as (Hserver & Hret & _ & Hsys).
    split; [exact Hserver|]. split; [exact Hret|exact Hsys].
Defined.

Lemma sync_request_answered_witness :
  exists d1,
    @wl_client_connection_data decoding_environment 2
      (with_script one_client_state 2
         [ {| io_sent := true; io_received := Some (encode_frame sync_frame) |} ])
      2 WL_EVENT_READABLE = Done d1 /\
    drop 2 (posted d1)
    = [(2%nat, {| event_sender := 1; event_opcode_of := WL_DISPLAY_KEY;
                  event_args := [arg_uint 42; arg_uint 0] |})] /\
    trace d1 = [t_invoke 1 0 2] /\ frame_list d1 = [].
Proof.
  destruct (sync_request_answered (H := decoding_environment)
              (with_script one_client_state 2
                 [ {| io_sent := true;
                      io_received := Some (encode_frame sync_frame) |} ])
              2%nat
              {| connection_in := [];
                 client_socket :=
                   [ {| io_sent := true;
                        io_received := Some (encode_frame sync_frame) |} ];
                 resource_list := []; id_count := 256 |}
              {| io_sent := true;
                 io_received := Some (encode_frame sync_frame) |}
              [] sync_frame 42
              {| object_interface := wl_display_interface;
                 object_implementation := Some display_interface;
                 object_id := 1 |} 0)
    as (d1 & Hrun & Hp & Ht & _ & Hf & _); try reflexivity.
  - apply (bool_decide_unpack _). vm_compute. exact I.
  - exists d1. split; [exact Hrun|]. rewrite Hp, Ht, Hf.
    repeat split; vm_compute; reflexivity.
Defined.

Lemma undecoded_request_answered_witness :
  exists d1,
    @wl_client_connection_data release_environment 2
      (with_script one_client_state 2
         [ {| io_sent := true; io_received := Some (encode_frame sync_frame) |} ])
      2 WL_EVENT_READABLE = Done d1 /\
    drop 2 (posted d1)
    = [(2%nat, {| event_sender := 1;
                  event_opcode_of := WL_DISPLAY_INVALID_METHOD;
                  event_args := [arg_uint 1; arg_uint 0] |})] /\
    trace d1 = [] /\ errno d1 = EINVAL.
Proof.
  destruct (undecoded_request_answered (H := release_environment)
              (with_script one_client_state 2
                 [ {| io_sent := true;
                      io_received := Some (encode_frame sync_frame) |} ])
              2%nat
              {| connection_in := [];
                 client_socket :=
                   [ {| io_sent := true;
                        io_received := Some (encode_frame sync_frame) |} ];
                 resource_list := []; id_count := 256 |}
              {| io_sent := true;
                 io_received := Some (encode_frame sync_frame) |}
              [] sync_frame display_object
              {| object_interface := wl_display_interface;
                 object_implementation := Some display_interface;
                 object_id := 1 |}
              {| message_name := "sync"; message_signature := "u" |}
              EINVAL
              {| object_interface := wl_display_interface;
                 object_implementation := Some display_interface;
                 object_id := 1 |} 0)
    as [_ Hanswer]; try reflexivity.
  - apply (bool_decide_unpack _). vm_compute. exact I.
  - destruct (Hanswer (or_introl eq_refl))
      as (d1 & Hrun & Hp & Ht & He & _).
    exists d1. split; [exact Hrun|]. rewrite Hp, Ht, He.
    repeat split; vm_compute; reflexivity.
Defined.

Lemma two_clients_state_wf : frames_wf two_clients_state.
Proof.
  constructor.
  - apply (bool_decide_unpack _). vm_compute. exact I.
  - intros a Ha.
    assert (Hall : Forall (fun a =>
                     from_option
                       (fun li => is_Some (clients two_clients_state
                                           !! listener_client li))
                       False (listener_at two_clients_state a))
                     (frame_list two_clients_state))
      by (apply (bool_decide_unpack _); vm_compute; exact I).
    rewrite Forall_forall in Hall. specialize (Hall a Ha).
    destruct (listener_at two_clients_state a) as [li|]; [|done].
    by exists li.
  - vm_compute. eauto.
  - intros a [c Hc].
    assert (Hall : map_Forall (fun a _ => (a < 7)%nat)
                     (heap two_clients_state))
      by (apply (bool_decide_unpack _); vm_compute; exact I).
    apply (Hall a c Hc).
Qed.

Lemma lost_client_takes_its_listeners_witness :
  exists d1 d2,
    @wl_client_connection_data release_environment 2 two_clients_state 2
      WL_EVENT_READABLE = Done d1 /\
    clients d1 !! 2%nat = None /\
    destroyed (trace d1) = [4; 6]%nat /\
    frames_wf d1 /\
    @wl_display_post_frame release_environment d1 9 = Done d2 /\
    drop (length (posted two_clients_state)) (posted d2)
    = [(3%nat, {| event_sender := 1; event_opcode_of := WL_DISPLAY_KEY;
                  event_args := [arg_uint 20; arg_uint 9] |})].
Proof.
  destruct (lost_client_takes_its_listeners (H := release_environment)
              two_clients_state 2%nat
              {| connection_in := [];
                 client_socket := [ {| io_sent := true;
                                       io_received := None |} ];
                 resource_list := [4; 6]%nat; id_count := 256 |}
              {| io_sent := true; io_received := None |} [] 2 9)
    as (d1 & d2 & disp & _ & Hrun & Hgone & _ & Hd & _ & _ & Hwf & Hpost
        & _ & _); try reflexivity.
  - intros n r c d. reflexivity.
  - exact two_clients_state_wf.
  - apply (bool_decide_unpack _). vm_compute. exact I.
  - split; apply (bool_decide_unpack _); vm_compute; exact I.
  - exists d1, d2. split; [exact Hrun|]. split; [exact Hgone|].
    split; [exact Hd|]. split; [exact Hwf|]. split; [exact Hpost|].
    vm_compute in Hrun. injection Hrun as <-.
    vm_compute in Hpost. injection Hpost as <-. vm_compute. reflexivity.
Defined.

Lemma resource_round_trip_witness :
  exists d1 d2,
    @wl_client_add_resource first_client_state first_client 2 = Done d1 /\
    objects d1 !! 1000 = Some 2%nat /\
    @wl_resource_destroy release_environment d1 2 first_client = Done d2 /\
    objects d2 = objects first_client_state /\
    resource_list <$> clients d2 !! first_client = Some [] /\
    trace d2 = [t_destroy 2 first_client].
Proof.
  destruct (resource_round_trip (H := release_environment) first_client_state
              first_client
              {| connection_in := []; client_socket := [];
                 resource_list := []; id_count := 256 |}
              2%nat
              {| object_interface := wl_display_interface;
                 object_implementation := None;
                 object_id := 1000 |} 0%nat)
    as (d1 & d2 & Hadd & Hobj & _ & Hdestroy & Hlist & Ht & Hobj2 & _);
    try reflexivity.
  - intros n r c d. reflexivity.
  - cbn. lia.
  - apply not_elem_of_nil.
  - exists d1, d2. split; [exact Hadd|]. split; [exact Hobj|].
    split; [exact Hdestroy|]. rewrite Hobj2, Ht.
    split; [vm_compute; reflexivity|]. split; [exact Hlist|].
    vm_compute. reflexivity.
Defined.

Lemma two_clients_get_adjacent_ranges_witness :
  exists d1 d2,
    @wl_client_create release_environment fresh_display []
    = Done (Some 2%nat, d1) /\
    @wl_client_create release_environment d1 [] = Done (Some 3%nat, d2) /\
    range_bases (posted d2) = [[arg_uint 256]; [arg_uint 512]] /\
    id_count <$> clients d2 !! 2%nat = Some 256 /\
    id_count <$> clients d2 !! 3%nat = Some 256 /\
    client_id_range d2 = 768.
Proof.
  destruct (two_clients_get_adjacent_ranges (H := release_environment)
              fresh_display [] []
              {| object_interface := wl_display_interface;
                 object_implementation := Some display_interface;
                 object_id := 1 |})
    as (d1 & d2 & Hrun1 & Hrun2 & Hp & _ & Hc1 & Hc2 & Hr);
    try reflexivity.
  - exact fresh_display_globals_wf.
  - vm_compute. discriminate.
  - exists d1, d2. split; [exact Hrun1|]. split; [exact Hrun2|].
    split; [rewrite Hp; vm_compute; reflexivity|].
    split; [exact Hc1|]. split; [exact Hc2|]. rewrite Hr. reflexivity.
Defined.

End ServerMore.
